(** * The byte pipe of [kernel/pipe.c]

    A shallow embedding of the pipe of [kernel/pipe.c]: a ring of bytes in
    caller-provided storage, indexed by [head] and [tail], a flag word, a
    counter of waiting threads and two wait queues, all protected by one
    spinlock.  The five entry points are embedded as functions on the pipe
    record; a call that suspends inside [wait_for] is split at [z_pend_curr]
    into the part that runs before the thread is suspended and the part
    that runs once it has been made ready again. *)

From Stdlib Require Import ZArith List Lia Bool.
From Stdlib Require Import Init.Byte.
Import ListNotations.
Local Open Scope Z_scope.

(** ** Machine integers

    [size_t] is modelled at 32 bits, the width of the targets the kernel is
    mostly built for; an expression of that type is a [Z] reduced modulo
    [2 ^ SIZE_WIDTH].  A storage object is at most [PTRDIFF_MAX] bytes. *)

Definition SIZE_WIDTH : Z := 32.
Definition SIZE_MAX : Z := 2 ^ SIZE_WIDTH - 1.
Definition INT_MAX : Z := 2 ^ 31 - 1.
Definition PTRDIFF_MAX : Z := 2 ^ 31 - 1.

(** The value of a [size_t] expression. *)
Definition size_t (x : Z) : Z := x mod 2 ^ SIZE_WIDTH.

(** [return write_len;] in a function returning [int]. *)
Definition int_of_size (x : Z) : Z :=
  if x <=? INT_MAX then x else x - 2 ^ SIZE_WIDTH.

(** The macro [MIN(a, b)]. *)
Definition MIN (a b : Z) : Z := if a <? b then a else b.

(** The error numbers of [errno.h], with the values of the C library the
    kernel ships. *)
Definition EAGAIN : Z := 11.
Definition EPIPE : Z := 32.
Definition EALREADY : Z := 120.
Definition ECANCELED : Z := 140.

(** ** Undefined behaviour

    The C code divides by [buffer_size] and copies with [memcpy]; both are
    undefined outside their domain, which the embedding keeps visible. *)

Inductive fault : Type :=
| DivideByZero
| OutOfBounds.

Inductive exec (A : Type) : Type :=
| Ok (a : A)
| Undefined (f : fault).

Arguments Ok {A} a.
Arguments Undefined {A} f.

Definition bind {A B : Type} (e : exec A) (k : A -> exec B) : exec B :=
  match e with
  | Ok a => k a
  | Undefined f => Undefined f
  end.

Notation "x <- e ;; k" := (bind e (fun x => k))
  (at level 61, e at next level, right associativity).

(** [a % b] on unsigned operands. *)
Definition umod (a b : Z) : exec Z :=
  if b =? 0 then Undefined DivideByZero else Ok (a mod b).

(** ** Memory blocks

    A block of bytes is a list; an access is defined only inside it. *)

Definition mem_read (m : list byte) (off n : Z) : exec (list byte) :=
  if (0 <=? off) && (0 <=? n) && (off + n <=? Z.of_nat (length m))
  then Ok (firstn (Z.to_nat n) (skipn (Z.to_nat off) m))
  else Undefined OutOfBounds.

Definition mem_write (m : list byte) (off : Z) (bs : list byte) : exec (list byte) :=
  if (0 <=? off) && (off + Z.of_nat (length bs) <=? Z.of_nat (length m))
  then Ok (firstn (Z.to_nat off) m ++ bs
             ++ skipn (Z.to_nat off + length bs) m)
  else Undefined OutOfBounds.

(** [memcpy(&dst[doff], &src[soff], n)] *)
Definition memcpy (dst : list byte) (doff : Z) (src : list byte) (soff n : Z)
  : exec (list byte) :=
  bs <- mem_read src soff n ;;
  mem_write dst doff bs.

(** ** The pipe object *)

Definition tid : Type := nat.

(** A wait queue holds the suspended threads, the earliest first. *)
Definition wait_q : Type := list tid.

Record k_pipe : Type := mk_pipe {
  buffer : list byte;
  buffer_size : Z;
  head : Z;
  tail : Z;
  waiting : Z;
  flags : Z;
  lock : bool;
  data : wait_q;
  space : wait_q
}.

Definition set_buffer (p : k_pipe) (b : list byte) : k_pipe :=
  mk_pipe b (buffer_size p) (head p) (tail p) (waiting p) (flags p) (lock p)
          (data p) (space p).
Definition set_head (p : k_pipe) (h : Z) : k_pipe :=
  mk_pipe (buffer p) (buffer_size p) h (tail p) (waiting p) (flags p) (lock p)
          (data p) (space p).
Definition set_tail (p : k_pipe) (t : Z) : k_pipe :=
  mk_pipe (buffer p) (buffer_size p) (head p) t (waiting p) (flags p) (lock p)
          (data p) (space p).
Definition set_waiting (p : k_pipe) (w : Z) : k_pipe :=
  mk_pipe (buffer p) (buffer_size p) (head p) (tail p) w (flags p) (lock p)
          (data p) (space p).
Definition set_flags (p : k_pipe) (f : Z) : k_pipe :=
  mk_pipe (buffer p) (buffer_size p) (head p) (tail p) (waiting p) f (lock p)
          (data p) (space p).
Definition set_lock (p : k_pipe) (l : bool) : k_pipe :=
  mk_pipe (buffer p) (buffer_size p) (head p) (tail p) (waiting p) (flags p) l
          (data p) (space p).
Definition set_data (p : k_pipe) (q : wait_q) : k_pipe :=
  mk_pipe (buffer p) (buffer_size p) (head p) (tail p) (waiting p) (flags p)
          (lock p) q (space p).
Definition set_space (p : k_pipe) (q : wait_q) : k_pipe :=
  mk_pipe (buffer p) (buffer_size p) (head p) (tail p) (waiting p) (flags p)
          (lock p) (data p) q.

(** The flag bits.  [PIPE_FLAG_OPEN], [PIPE_FLAG_RESET] and
    [PIPE_FLAG_FULL] are defined in a header outside [kernel/pipe.c]; they
    are three distinct bits of the flag word, taken here in the order the
    code introduces them. *)
Definition BIT (n : Z) : Z := Z.shiftl 1 n.
Definition PIPE_FLAG_OPEN : Z := BIT 0.
Definition PIPE_FLAG_RESET : Z := BIT 1.
Definition PIPE_FLAG_FULL : Z := BIT 2.

(** [word & mask] used as a condition. *)
Definition testflag (word mask : Z) : bool := negb (Z.land word mask =? 0).

Definition flag (p : k_pipe) (mask : Z) : bool := testflag (flags p) mask.

(** ** Timeouts

    A timeout is a number of ticks; [K_NO_WAIT] is zero ticks and
    [K_FOREVER] is the tick count [-1].  [K_TIMEOUT_EQ] compares ticks. *)

Definition k_timeout_t : Type := Z.
Definition K_NO_WAIT : k_timeout_t := 0.
Definition K_FOREVER : k_timeout_t := -1.
Definition K_TIMEOUT_EQ (a b : k_timeout_t) : bool := a =? b.

(** ** Spinlock and scheduler primitives

    The spinlock and the wait queues are kernel code outside
    [kernel/pipe.c]; they are modelled by the contracts the pipe relies
    on.  A thread removed from its queue is ready: it runs on from
    [z_pend_curr] at some later point. *)

(** Modelled from the spec: [k_spin_lock] is missing; it takes the lock
    that serialises every operation on the pipe. *)
Definition k_spin_lock (p : k_pipe) : k_pipe := set_lock p true.

(** Modelled from the spec: [k_spin_unlock] is missing; it releases the
    lock. *)
Definition k_spin_unlock (p : k_pipe) : k_pipe := set_lock p false.

Inductive waitq_id : Type :=
| DATA    (* &pipe->data *)
| SPACE.  (* &pipe->space *)

Definition waitq (p : k_pipe) (q : waitq_id) : wait_q :=
  match q with DATA => data p | SPACE => space p end.

Definition set_waitq (p : k_pipe) (q : waitq_id) (l : wait_q) : k_pipe :=
  match q with DATA => set_data p l | SPACE => set_space p l end.

(** Modelled from the spec: [z_pend_curr] is missing; it releases the
    lock and suspends the current thread on the queue in one step, behind
    the threads already there. *)
Definition z_pend_curr (curr : tid) (q : waitq_id) (p : k_pipe) : k_pipe :=
  k_spin_unlock (set_waitq p q (waitq p q ++ [curr])).

(** Modelled from the spec: [z_unpend_all] is missing; it makes every
    thread of the queue ready. *)
Definition z_unpend_all (q : waitq_id) (p : k_pipe) : k_pipe :=
  set_waitq p q [].

(** ** [kernel/pipe.c] *)

Definition wait_cond_t : Type := k_pipe -> exec bool.

Definition utilization (pipe : k_pipe) : exec Z :=
  if flag pipe PIPE_FLAG_FULL then Ok (buffer_size pipe)
  else umod (size_t (size_t (tail pipe - head pipe) + buffer_size pipe))
            (buffer_size pipe).

Definition queue_full : wait_cond_t := fun pipe =>
  u <- utilization pipe ;; Ok (u =? buffer_size pipe).

Definition queue_empty : wait_cond_t := fun pipe =>
  u <- utilization pipe ;; Ok (u =? 0).

(** [wait_for] up to and including [z_pend_curr]: either it has returned
    [-EAGAIN] with the lock released, or the thread is suspended. *)
Inductive wait_entry : Type :=
| NoWait (rc : Z) (pipe : k_pipe)
| Pended (pipe : k_pipe).

Definition wait_for_enter (curr : tid) (q : waitq_id) (pipe : k_pipe)
           (timeout : k_timeout_t) : wait_entry :=
  if K_TIMEOUT_EQ timeout K_NO_WAIT || flag pipe PIPE_FLAG_RESET
  then NoWait (- EAGAIN) (k_spin_unlock pipe)
  else
    let pipe := set_waiting pipe (size_t (waiting pipe + 1)) in
    Pended (z_pend_curr curr q pipe).

(** [wait_for] from the return of [z_pend_curr] on. *)
Definition wait_for_resume (cond : wait_cond_t) (pipe : k_pipe)
  : exec (Z * k_pipe) :=
  let pipe := k_spin_lock pipe in
  let pipe := set_waiting pipe (size_t (waiting pipe - 1)) in
  if negb (flag pipe PIPE_FLAG_OPEN) then Ok (- EPIPE, pipe)
  else if flag pipe PIPE_FLAG_RESET then
    let pipe :=
      if waiting pipe =? 0
      then set_flags pipe (Z.land (flags pipe) (Z.lnot PIPE_FLAG_RESET))
      else pipe in
    Ok (- ECANCELED, pipe)
  else
    c <- cond pipe ;;
    if negb c then Ok (0, pipe) else Ok (- EAGAIN, pipe).

(** [notify_waiter]: [z_unpend_first_thread] takes the earliest thread
    off the queue, if there is one, and [z_ready_thread] makes it ready. *)
Definition notify_waiter (q : waitq_id) (p : k_pipe) : k_pipe :=
  match waitq p q with
  | [] => p
  | _ :: rest => set_waitq p q rest
  end.

Definition z_impl_k_pipe_init (buffer : list byte) (buffer_size : Z) : k_pipe :=
  mk_pipe buffer buffer_size 0 0 0 PIPE_FLAG_OPEN false [] [].

(** The result of entering a call: it has returned, or the calling thread
    is suspended inside [wait_for]. *)
Inductive outcome (A : Type) : Type :=
| Returned (a : A) (pipe : k_pipe)
| Suspended (pipe : k_pipe).

Arguments Returned {A} a pipe.
Arguments Suspended {A} pipe.

(** [z_impl_k_pipe_write] from the test of the open flag to its end. *)
Definition write_transfer (pipe : k_pipe) (src : list byte) : exec (Z * k_pipe) :=
  let len := Z.of_nat (length src) in
  if negb (flag pipe PIPE_FLAG_OPEN) then Ok (- EPIPE, k_spin_unlock pipe)
  else
    u <- utilization pipe ;;
    let write_len := MIN (size_t (buffer_size pipe - u)) len in
    let first_chunk := MIN (size_t (buffer_size pipe - tail pipe)) write_len in
    let second_chunk := size_t (write_len - first_chunk) in
    b <- memcpy (buffer pipe) (tail pipe) src 0 first_chunk ;;
    b <- (if 0 <? second_chunk then memcpy b 0 src first_chunk second_chunk
          else Ok b) ;;
    t <- umod (size_t (tail pipe + write_len)) (buffer_size pipe) ;;
    let pipe := set_tail (set_buffer pipe b) t in
    let pipe :=
      if negb (write_len =? 0) then
        let pipe := notify_waiter DATA pipe in
        if tail pipe =? head pipe
        then set_flags pipe (Z.lor (flags pipe) PIPE_FLAG_FULL)
        else pipe
      else pipe in
    Ok (int_of_size write_len, k_spin_unlock pipe).

(** [z_impl_k_pipe_write], entered by thread [curr] with the [len] bytes
    [src]. *)
Definition z_impl_k_pipe_write (curr : tid) (pipe : k_pipe) (src : list byte)
           (timeout : k_timeout_t) : exec (outcome Z) :=
  let pipe := k_spin_lock pipe in
  full <- queue_full pipe ;;
  if full then
    match wait_for_enter curr SPACE pipe timeout with
    | NoWait rc pipe => Ok (Returned rc (k_spin_unlock pipe))
    | Pended pipe => Ok (Suspended pipe)
    end
  else
    r <- write_transfer pipe src ;;
    Ok (Returned (fst r) (snd r)).

(** [z_impl_k_pipe_write] of a thread made ready again. *)
Definition z_impl_k_pipe_write_resume (pipe : k_pipe) (src : list byte)
  : exec (Z * k_pipe) :=
  r <- wait_for_resume queue_full pipe ;;
  let (rc, pipe) := r in
  if negb (rc =? 0) then Ok (rc, k_spin_unlock pipe)
  else write_transfer pipe src.

(** [z_impl_k_pipe_read] from the second test of the buffer to its end;
    the bytes stored through [data] are returned beside the result. *)
Definition read_transfer (pipe : k_pipe) (len : Z)
  : exec (Z * list byte * k_pipe) :=
  u <- utilization pipe ;;
  if (u =? 0) && negb (flag pipe PIPE_FLAG_OPEN)
  then Ok (- EPIPE, [], k_spin_unlock pipe)
  else
    u <- utilization pipe ;;
    let read_len := MIN len u in
    let first_chunk := MIN (size_t (buffer_size pipe - head pipe)) read_len in
    let second_chunk := size_t (read_len - first_chunk) in
    d1 <- mem_read (buffer pipe) (head pipe) first_chunk ;;
    d2 <- (if 0 <? second_chunk then mem_read (buffer pipe) 0 second_chunk
           else Ok []) ;;
    h <- umod (size_t (head pipe + read_len)) (buffer_size pipe) ;;
    let pipe := set_head pipe h in
    let pipe :=
      if negb (read_len =? 0) then
        let pipe :=
          set_flags pipe (Z.land (flags pipe) (Z.lnot PIPE_FLAG_FULL)) in
        notify_waiter SPACE pipe
      else pipe in
    Ok (int_of_size read_len, d1 ++ d2, k_spin_unlock pipe).

(** [z_impl_k_pipe_read], entered by thread [curr]. *)
Definition z_impl_k_pipe_read (curr : tid) (pipe : k_pipe) (len : Z)
           (timeout : k_timeout_t) : exec (outcome (Z * list byte)) :=
  let len := size_t len in
  let pipe := k_spin_lock pipe in
  u <- utilization pipe ;;
  if (u =? 0) && flag pipe PIPE_FLAG_OPEN then
    match wait_for_enter curr DATA pipe timeout with
    | NoWait rc pipe => Ok (Returned (rc, []) (k_spin_unlock pipe))
    | Pended pipe => Ok (Suspended pipe)
    end
  else
    r <- read_transfer pipe len ;;
    Ok (Returned (fst r) (snd r)).

(** [z_impl_k_pipe_read] of a thread made ready again. *)
Definition z_impl_k_pipe_read_resume (pipe : k_pipe) (len : Z)
  : exec (Z * list byte * k_pipe) :=
  let len := size_t len in
  r <- wait_for_resume queue_empty pipe ;;
  let (rc, pipe) := r in
  if negb (rc =? 0) && negb (rc =? - EPIPE)
  then Ok (rc, [], k_spin_unlock pipe)
  else read_transfer pipe len.

Definition z_impl_k_pipe_reset (pipe : k_pipe) : Z * k_pipe :=
  let pipe := k_spin_lock pipe in
  let pipe := set_head pipe 0 in
  let pipe := set_tail pipe 0 in
  let pipe := set_flags pipe (Z.lor (flags pipe) PIPE_FLAG_RESET) in
  let pipe := z_unpend_all DATA pipe in
  let pipe := z_unpend_all SPACE pipe in
  (0, k_spin_unlock pipe).

Definition z_impl_k_pipe_close (pipe : k_pipe) : Z * k_pipe :=
  let pipe := k_spin_lock pipe in
  if negb (flag pipe PIPE_FLAG_OPEN) then (- EALREADY, k_spin_unlock pipe)
  else
    let pipe := set_flags pipe 0 in
    let pipe := z_unpend_all DATA pipe in
    let pipe := z_unpend_all SPACE pipe in
    (0, k_spin_unlock pipe).

(** ** Threads around the pipe

    A thread is inside at most one call.  A call that suspended is kept as
    a frame: the thread, the call it is in and its timeout.  A framed
    thread that is on neither wait queue has been made ready (by a
    notification, by [z_unpend_all] or by its timeout) and has still to run
    on from [z_pend_curr]. *)

Inductive call : Type :=
| CallWrite (src : list byte)
| CallRead (len : Z).

Definition frame : Type := (tid * call * k_timeout_t)%type.

Record kernel : Type := mk_kernel {
  pipe : k_pipe;
  frames : list frame
}.

Inductive event : Type :=
| Write (t : tid) (src : list byte) (timeout : k_timeout_t)
| Read (t : tid) (len : Z) (timeout : k_timeout_t)
| Reset
| Close
| Expire (t : tid)
| Resume (t : tid).

Inductive response : Type :=
| WriteRet (rc : Z) (src : list byte)
| ReadRet (rc : Z) (out : list byte)
| ResetRet (rc : Z)
| CloseRet (rc : Z)
| Suspend
| Expired.

Definition queued (t : tid) (q : wait_q) : bool := existsb (Nat.eqb t) q.

Definition unqueue (t : tid) (q : wait_q) : wait_q :=
  filter (fun x => negb (Nat.eqb t x)) q.

Fixpoint find_frame (t : tid) (fs : list frame) : option (call * k_timeout_t) :=
  match fs with
  | [] => None
  | (t', c, to) :: rest =>
      if Nat.eqb t t' then Some (c, to) else find_frame t rest
  end.

Definition drop_frame (t : tid) (fs : list frame) : list frame :=
  filter (fun f => negb (Nat.eqb t (fst (fst f)))) fs.

(** One step of the system: a thread enters a call, a timeout fires, or a
    ready thread runs its call to the end.  [Ok None] is an event that
    cannot happen in the state. *)
Definition step (k : kernel) (e : event) : exec (option (kernel * response)) :=
  match e with
  | Write t src timeout =>
      match find_frame t (frames k) with
      | Some _ => Ok None
      | None =>
          o <- z_impl_k_pipe_write t (pipe k) src timeout ;;
          match o with
          | Returned rc p => Ok (Some (mk_kernel p (frames k), WriteRet rc src))
          | Suspended p =>
              Ok (Some (mk_kernel p (frames k ++ [(t, CallWrite src, timeout)]),
                        Suspend))
          end
      end
  | Read t len timeout =>
      match find_frame t (frames k) with
      | Some _ => Ok None
      | None =>
          o <- z_impl_k_pipe_read t (pipe k) len timeout ;;
          match o with
          | Returned (rc, out) p =>
              Ok (Some (mk_kernel p (frames k), ReadRet rc out))
          | Suspended p =>
              Ok (Some (mk_kernel p (frames k ++ [(t, CallRead len, timeout)]),
                        Suspend))
          end
      end
  | Reset =>
      let (rc, p) := z_impl_k_pipe_reset (pipe k) in
      Ok (Some (mk_kernel p (frames k), ResetRet rc))
  | Close =>
      let (rc, p) := z_impl_k_pipe_close (pipe k) in
      Ok (Some (mk_kernel p (frames k), CloseRet rc))
  | Expire t =>
      match find_frame t (frames k) with
      | Some (_, timeout) =>
          if (queued t (data (pipe k)) || queued t (space (pipe k)))
             && negb (K_TIMEOUT_EQ timeout K_FOREVER)
          then
            let p := set_data (pipe k) (unqueue t (data (pipe k))) in
            let p := set_space p (unqueue t (space p)) in
            Ok (Some (mk_kernel p (frames k), Expired))
          else Ok None
      | None => Ok None
      end
  | Resume t =>
      match find_frame t (frames k) with
      | Some (c, _) =>
          if queued t (data (pipe k)) || queued t (space (pipe k))
          then Ok None
          else
            match c with
            | CallWrite src =>
                r <- z_impl_k_pipe_write_resume (pipe k) src ;;
                Ok (Some (mk_kernel (snd r) (drop_frame t (frames k)),
                          WriteRet (fst r) src))
            | CallRead len =>
                r <- z_impl_k_pipe_read_resume (pipe k) len ;;
                Ok (Some (mk_kernel (snd r) (drop_frame t (frames k)),
                          ReadRet (fst (fst r)) (snd (fst r))))
            end
      | None => Ok None
      end
  end.

(** A run of events from a state, with the responses in order. *)
Fixpoint run (k : kernel) (es : list event) : exec (option (kernel * list response)) :=
  match es with
  | [] => Ok (Some (k, []))
  | e :: es =>
      s <- step k e ;;
      match s with
      | None => Ok None
      | Some (k', r) =>
          s' <- run k' es ;;
          match s' with
          | None => Ok None
          | Some (k'', rs) => Ok (Some (k'', r :: rs))
          end
      end
  end.

Definition boot (buffer : list byte) (buffer_size : Z) : kernel :=
  mk_kernel (z_impl_k_pipe_init buffer buffer_size) [].

Definition zeros (n : nat) : list byte := repeat x00 n.

(** ** Well-formed pipes and the bytes they hold *)

(** The ring indices are inside the storage, the storage has the size the
    pipe was initialised with, and the full flag is up only where the two
    indices meet. *)
Definition ring_ok (p : k_pipe) : Prop :=
  0 < buffer_size p <= SIZE_MAX /\
  Z.of_nat (length (buffer p)) = buffer_size p /\
  0 <= head p < buffer_size p /\
  0 <= tail p < buffer_size p /\
  (flag p PIPE_FLAG_FULL = true -> head p = tail p).

(** The byte at an index of a block. *)
Definition zth (l : list byte) (i : Z) : byte := nth (Z.to_nat i) l x00.

(** The number of bytes the ring holds, without the wrap-around of the
    machine arithmetic. *)
Definition occupancy (p : k_pipe) : Z :=
  if flag p PIPE_FLAG_FULL then buffer_size p
  else (tail p - head p) mod buffer_size p.

(** The bytes the ring holds, oldest first: [occupancy] bytes from [head]
    on, around the end of the storage. *)
Definition contents (p : k_pipe) : list byte :=
  map (fun i => zth (buffer p) ((head p + Z.of_nat i) mod buffer_size p))
      (seq 0 (Z.to_nat (occupancy p))).

(** Two pipes with the same ring: they differ at most in the lock, the
    counter of waiters, the wait queues and the reset flag. *)
Definition same_ring (p p' : k_pipe) : Prop :=
  buffer p' = buffer p /\ buffer_size p' = buffer_size p /\
  head p' = head p /\ tail p' = tail p /\
  flag p' PIPE_FLAG_FULL = flag p PIPE_FLAG_FULL /\
  flag p' PIPE_FLAG_OPEN = flag p PIPE_FLAG_OPEN.

(** What holds of the pipe whenever the lock is free: the ring is well
    formed, and a closed pipe has no queued thread and is not full. *)
Definition pipe_inv (p : k_pipe) : Prop :=
  ring_ok p /\
  (flag p PIPE_FLAG_OPEN = false ->
   data p = [] /\ space p = [] /\ flag p PIPE_FLAG_FULL = false).

(** The state of the system between two steps: the pipe is well formed,
    holds the storage of [size] bytes it was given, and its lock is free. *)
Definition kernel_inv (size : Z) (k : kernel) : Prop :=
  pipe_inv (pipe k) /\ lock (pipe k) = false /\ buffer_size (pipe k) = size.

(** The bytes a response shows to have entered or left the pipe. *)
Definition accepted (r : response) : list byte :=
  match r with
  | WriteRet rc src => if 0 <? rc then firstn (Z.to_nat rc) src else []
  | _ => []
  end.

Definition delivered (r : response) : list byte :=
  match r with
  | ReadRet _ out => out
  | _ => []
  end.

Definition written (rs : list response) : list byte := flat_map accepted rs.
Definition received (rs : list response) : list byte := flat_map delivered rs.

(** Events other than [reset] and [close]. *)
Definition transfer_event (e : event) : bool :=
  match e with
  | Reset | Close => false
  | _ => true
  end.

(** ** The calls in flight *)

(** The threads of the frames. *)
Definition tids (fs : list frame) : list tid := map (fun f => fst (fst f)) fs.

(** A queue as a notification leaves it: as it was, or without its
    earliest thread. *)
Definition dequeued (q q' : wait_q) : Prop := q' = q \/ q' = tl q.

(** The bookkeeping of the calls in flight: [waiting] counts the frames,
    no thread has two frames or two places in the queues, and every
    queued thread has a frame. *)
Definition frames_inv (k : kernel) : Prop :=
  waiting (pipe k) = size_t (Z.of_nat (length (frames k))) /\
  NoDup (tids (frames k)) /\
  NoDup (data (pipe k) ++ space (pipe k)) /\
  (forall t, In t (data (pipe k) ++ space (pipe k)) -> In t (tids (frames k))).

(** The result code of a response that ends a [write] or a [read]. *)
Definition result_code (r : response) : option Z :=
  match r with
  | WriteRet rc _ => Some rc
  | ReadRet rc _ => Some rc
  | _ => None
  end.

(** What a closed pipe answers: a write is refused with [-EPIPE], a
    close with [-EALREADY], and no caller is suspended. *)
Definition closed_response (r : response) : Prop :=
  match r with
  | WriteRet rc _ => rc = - EPIPE
  | CloseRet rc => rc = - EALREADY
  | Suspend => False
  | _ => True
  end.

(** * Flag bits *)

Lemma testflag_testbit (f i : Z) :
  0 <= i -> testflag f (BIT i) = Z.testbit f i.
Proof.
  intros Hi. unfold testflag, BIT.
  destruct (Z.testbit f i) eqn:Hb.
  - apply negb_true_iff, Z.eqb_neq. intros H0.
    assert (Z.testbit (Z.land f (Z.shiftl 1 i)) i = true) as Ht.
    { rewrite Z.land_spec, Hb, Z.shiftl_spec by lia.
      rewrite Z.sub_diag. reflexivity. }
    rewrite H0, Z.bits_0 in Ht. discriminate.
  - apply negb_false_iff, Z.eqb_eq. apply Z.bits_inj'. intros n Hn.
    rewrite Z.bits_0, Z.land_spec, Z.shiftl_spec by lia.
    destruct (Z.eq_dec n i) as [->|Hne].
    + rewrite Hb. reflexivity.
    + replace (Z.testbit 1 (n - i)) with false; [apply andb_false_r|].
      symmetry. destruct (Z.ltb_spec n i).
      * apply Z.testbit_neg_r. lia.
      * change 1 with (2 ^ 0). apply Z.pow2_bits_false. lia.
Qed.

Lemma testbit_BIT (i n : Z) :
  0 <= i -> 0 <= n -> Z.testbit (BIT i) n = (n =? i).
Proof.
  intros Hi Hn. unfold BIT. rewrite Z.shiftl_spec by lia.
  destruct (Z.eqb_spec n i) as [->|Hne].
  - rewrite Z.sub_diag. reflexivity.
  - destruct (Z.ltb_spec n i).
    + apply Z.testbit_neg_r. lia.
    + change 1 with (2 ^ 0). apply Z.pow2_bits_false. lia.
Qed.

Lemma testflag_raise (f i j : Z) :
  0 <= i -> 0 <= j ->
  testflag (Z.lor f (BIT i)) (BIT j) = (j =? i) || testflag f (BIT j).
Proof.
  intros Hi Hj. rewrite !testflag_testbit by assumption.
  rewrite Z.lor_spec, testbit_BIT by assumption. apply orb_comm.
Qed.

Lemma testflag_clear (f i j : Z) :
  0 <= i -> 0 <= j ->
  testflag (Z.land f (Z.lnot (BIT i))) (BIT j)
  = negb (j =? i) && testflag f (BIT j).
Proof.
  intros Hi Hj. rewrite !testflag_testbit by assumption.
  rewrite Z.land_spec, Z.lnot_spec, testbit_BIT by assumption.
  apply andb_comm.
Qed.

Lemma testflag_zero (m : Z) : testflag 0 m = false.
Proof. reflexivity. Qed.

(** The flag tests after each update of the flag word the code makes. *)
Lemma full_set_full f : testflag (Z.lor f PIPE_FLAG_FULL) PIPE_FLAG_FULL = true.
Proof. unfold PIPE_FLAG_FULL. rewrite testflag_raise by lia. reflexivity. Qed.

Lemma open_set_full f :
  testflag (Z.lor f PIPE_FLAG_FULL) PIPE_FLAG_OPEN = testflag f PIPE_FLAG_OPEN.
Proof. unfold PIPE_FLAG_FULL, PIPE_FLAG_OPEN. rewrite testflag_raise by lia. reflexivity. Qed.

Lemma reset_set_full f :
  testflag (Z.lor f PIPE_FLAG_FULL) PIPE_FLAG_RESET = testflag f PIPE_FLAG_RESET.
Proof. unfold PIPE_FLAG_FULL, PIPE_FLAG_RESET. rewrite testflag_raise by lia. reflexivity. Qed.

Lemma full_clear_full f :
  testflag (Z.land f (Z.lnot PIPE_FLAG_FULL)) PIPE_FLAG_FULL = false.
Proof. unfold PIPE_FLAG_FULL. rewrite testflag_clear by lia. reflexivity. Qed.

Lemma open_clear_full f :
  testflag (Z.land f (Z.lnot PIPE_FLAG_FULL)) PIPE_FLAG_OPEN = testflag f PIPE_FLAG_OPEN.
Proof. unfold PIPE_FLAG_FULL, PIPE_FLAG_OPEN. rewrite testflag_clear by lia. reflexivity. Qed.

Lemma reset_clear_full f :
  testflag (Z.land f (Z.lnot PIPE_FLAG_FULL)) PIPE_FLAG_RESET = testflag f PIPE_FLAG_RESET.
Proof. unfold PIPE_FLAG_FULL, PIPE_FLAG_RESET. rewrite testflag_clear by lia. reflexivity. Qed.

Lemma reset_set_reset f : testflag (Z.lor f PIPE_FLAG_RESET) PIPE_FLAG_RESET = true.
Proof. unfold PIPE_FLAG_RESET. rewrite testflag_raise by lia. reflexivity. Qed.

Lemma open_set_reset f :
  testflag (Z.lor f PIPE_FLAG_RESET) PIPE_FLAG_OPEN = testflag f PIPE_FLAG_OPEN.
Proof. unfold PIPE_FLAG_RESET, PIPE_FLAG_OPEN. rewrite testflag_raise by lia. reflexivity. Qed.

Lemma full_set_reset f :
  testflag (Z.lor f PIPE_FLAG_RESET) PIPE_FLAG_FULL = testflag f PIPE_FLAG_FULL.
Proof. unfold PIPE_FLAG_RESET, PIPE_FLAG_FULL. rewrite testflag_raise by lia. reflexivity. Qed.

Lemma reset_clear_reset f :
  testflag (Z.land f (Z.lnot PIPE_FLAG_RESET)) PIPE_FLAG_RESET = false.
Proof. unfold PIPE_FLAG_RESET. rewrite testflag_clear by lia. reflexivity. Qed.

Lemma open_clear_reset f :
  testflag (Z.land f (Z.lnot PIPE_FLAG_RESET)) PIPE_FLAG_OPEN = testflag f PIPE_FLAG_OPEN.
Proof. unfold PIPE_FLAG_RESET, PIPE_FLAG_OPEN. rewrite testflag_clear by lia. reflexivity. Qed.

Lemma full_clear_reset f :
  testflag (Z.land f (Z.lnot PIPE_FLAG_RESET)) PIPE_FLAG_FULL = testflag f PIPE_FLAG_FULL.
Proof. unfold PIPE_FLAG_RESET, PIPE_FLAG_FULL. rewrite testflag_clear by lia. reflexivity. Qed.

Create Rewrite HintDb pipe_flags.
#[local] Hint Rewrite testflag_zero full_set_full open_set_full reset_set_full
  full_clear_full open_clear_full reset_clear_full reset_set_reset
  open_set_reset full_set_reset reset_clear_reset open_clear_reset
  full_clear_reset : pipe_flags.

(** Projections of an updated pipe. *)
Ltac fields :=
  unfold flag in *;
  cbn [buffer buffer_size head tail waiting flags lock data space
       set_buffer set_head set_tail set_waiting set_flags set_lock set_data
       set_space k_spin_lock k_spin_unlock z_unpend_all z_pend_curr waitq
       set_waitq flag fst snd] in *.

(** The updated pipe as a record. *)
Ltac setters :=
  unfold k_spin_lock, k_spin_unlock, z_unpend_all, z_pend_curr, set_waitq,
    set_buffer, set_head, set_tail, set_waiting, set_flags, set_lock,
    set_data, set_space in *;
  cbn [buffer buffer_size head tail waiting flags lock data space] in *.

(** Goals decided by the values of the error numbers. *)
Ltac errno :=
  intros; unfold EAGAIN, EPIPE, EALREADY, ECANCELED in *;
  solve [lia | discriminate | intuition lia].

(** * Machine arithmetic *)

Lemma size_t_id (x : Z) : 0 <= x <= SIZE_MAX -> size_t x = x.
Proof.
  unfold size_t, SIZE_MAX. intros H. apply Z.mod_small. lia.
Qed.

Lemma size_t_range (x : Z) : 0 <= size_t x <= SIZE_MAX.
Proof.
  unfold size_t, SIZE_MAX.
  pose proof (Z.mod_pos_bound x (2 ^ SIZE_WIDTH) ltac:(reflexivity)). lia.
Qed.

Lemma size_t_add_l (a b : Z) : size_t (size_t a + b) = size_t (a + b).
Proof. unfold size_t. apply Zplus_mod_idemp_l. Qed.

Lemma mod_cases (x n : Z) :
  0 < n -> - n <= x < 2 * n ->
  x mod n = if x <? 0 then x + n else if x <? n then x else x - n.
Proof.
  intros Hn Hx. destruct (Z.ltb_spec x 0); [|destruct (Z.ltb_spec x n)].
  - symmetry. apply (Z.mod_unique_pos x n (-1)); lia.
  - apply Z.mod_small. lia.
  - symmetry. apply (Z.mod_unique_pos x n 1); lia.
Qed.

Lemma MIN_spec (a b : Z) : MIN a b = Z.min a b.
Proof. unfold MIN. destruct (Z.ltb_spec a b); lia. Qed.

Lemma int_of_size_id (x : Z) : x <= INT_MAX -> int_of_size x = x.
Proof. unfold int_of_size. intros H. destruct (Z.leb_spec x INT_MAX); lia. Qed.

(** * Memory blocks *)

Lemma zth_app (l1 l2 : list byte) (i : Z) :
  0 <= i ->
  zth (l1 ++ l2) i
  = if i <? Z.of_nat (length l1) then zth l1 i
    else zth l2 (i - Z.of_nat (length l1)).
Proof.
  intros Hi. unfold zth. destruct (Z.ltb_spec i (Z.of_nat (length l1))).
  - apply app_nth1. lia.
  - rewrite app_nth2 by lia. f_equal. lia.
Qed.

Lemma zth_firstn (l : list byte) (n : nat) (i : Z) :
  0 <= i < Z.of_nat n -> zth (firstn n l) i = zth l i.
Proof.
  intros Hi. unfold zth. rewrite nth_firstn.
  destruct (Nat.ltb_spec (Z.to_nat i) n); [reflexivity|lia].
Qed.

Lemma zth_skipn (l : list byte) (n : nat) (i : Z) :
  0 <= i -> zth (skipn n l) i = zth l (Z.of_nat n + i).
Proof.
  intros Hi. unfold zth. rewrite nth_skipn. f_equal. lia.
Qed.

Lemma zth_ext (l1 l2 : list byte) :
  length l1 = length l2 ->
  (forall i, 0 <= i < Z.of_nat (length l1) -> zth l1 i = zth l2 i) ->
  l1 = l2.
Proof.
  intros Hlen H. apply (nth_ext l1 l2 x00 x00 Hlen). intros n Hn.
  specialize (H (Z.of_nat n) ltac:(lia)). unfold zth in H.
  now rewrite Nat2Z.id in H.
Qed.

Lemma zth_map_seq (f : nat -> byte) (n : nat) (i : Z) :
  0 <= i < Z.of_nat n -> zth (map f (seq 0 n)) i = f (Z.to_nat i).
Proof.
  intros Hi. unfold zth.
  rewrite (nth_indep _ x00 (f 0%nat)) by (rewrite length_map, length_seq; lia).
  rewrite (map_nth f), seq_nth by lia. reflexivity.
Qed.

Lemma mem_read_ok (m : list byte) (off n : Z) :
  0 <= off -> 0 <= n -> off + n <= Z.of_nat (length m) ->
  mem_read m off n = Ok (firstn (Z.to_nat n) (skipn (Z.to_nat off) m)).
Proof.
  intros H1 H2 H3. unfold mem_read.
  destruct (Z.leb_spec 0 off); [|lia].
  destruct (Z.leb_spec 0 n); [|lia].
  destruct (Z.leb_spec (off + n) (Z.of_nat (length m))); [|lia].
  reflexivity.
Qed.

Lemma mem_write_ok (m : list byte) (off : Z) (bs : list byte) :
  0 <= off -> off + Z.of_nat (length bs) <= Z.of_nat (length m) ->
  mem_write m off bs
  = Ok (firstn (Z.to_nat off) m ++ bs ++ skipn (Z.to_nat off + length bs) m).
Proof.
  intros H1 H2. unfold mem_write.
  destruct (Z.leb_spec 0 off); [|lia].
  destruct (Z.leb_spec (off + Z.of_nat (length bs)) (Z.of_nat (length m))); [|lia].
  reflexivity.
Qed.

Lemma length_slice (m : list byte) (off n : Z) :
  0 <= off -> 0 <= n -> off + n <= Z.of_nat (length m) ->
  Z.of_nat (length (firstn (Z.to_nat n) (skipn (Z.to_nat off) m))) = n.
Proof.
  intros. rewrite length_firstn, length_skipn. lia.
Qed.

Lemma zth_slice (m : list byte) (off n j : Z) :
  0 <= off -> 0 <= j < n ->
  zth (firstn (Z.to_nat n) (skipn (Z.to_nat off) m)) j = zth m (off + j).
Proof.
  intros. rewrite zth_firstn by lia. rewrite zth_skipn by lia. f_equal. lia.
Qed.

Lemma length_patch (m : list byte) (off : Z) (bs : list byte) :
  0 <= off -> off + Z.of_nat (length bs) <= Z.of_nat (length m) ->
  length (firstn (Z.to_nat off) m ++ bs ++ skipn (Z.to_nat off + length bs) m)
  = length m.
Proof.
  intros. rewrite !length_app, length_firstn, length_skipn. lia.
Qed.

Lemma zth_patch (m : list byte) (off : Z) (bs : list byte) (k : Z) :
  0 <= off -> off + Z.of_nat (length bs) <= Z.of_nat (length m) ->
  0 <= k ->
  zth (firstn (Z.to_nat off) m ++ bs ++ skipn (Z.to_nat off + length bs) m) k
  = if (off <=? k) && (k <? off + Z.of_nat (length bs))
    then zth bs (k - off) else zth m k.
Proof.
  intros Hoff Hlen Hk.
  rewrite zth_app by assumption. rewrite length_firstn.
  replace (Z.of_nat (Nat.min (Z.to_nat off) (length m))) with off by lia.
  destruct (Z.ltb_spec k off), (Z.leb_spec off k); try lia; simpl.
  - apply zth_firstn. lia.
  - rewrite zth_app by lia.
    destruct (Z.ltb_spec (k - off) (Z.of_nat (length bs))),
             (Z.ltb_spec k (off + Z.of_nat (length bs))); try lia.
    + reflexivity.
    + rewrite zth_skipn by lia. f_equal. lia.
Qed.

Lemma bind_Ok {A B : Type} (a : A) (k : A -> exec B) : bind (Ok a) k = k a.
Proof. reflexivity. Qed.

(** * The copies of [write] and [read] *)

(** The two [memcpy] calls of [write] stay inside the storage and inside
    the caller's bytes, and store byte [j] of the source at index
    [(tail + j) mod buffer_size]. *)
Lemma write_copy (buf src : list byte) (size tl wl : Z) :
  Z.of_nat (length buf) = size -> size <= SIZE_MAX ->
  0 <= tl < size -> 0 <= wl <= size -> wl <= Z.of_nat (length src) ->
  let fc := MIN (size_t (size - tl)) wl in
  let sc := size_t (wl - fc) in
  exists b1 b2,
    memcpy buf tl src 0 fc = Ok b1 /\
    (if 0 <? sc then memcpy b1 0 src fc sc else Ok b1) = Ok b2 /\
    length b2 = length buf /\
    forall k, 0 <= k < size ->
      zth b2 k = if (k - tl) mod size <? wl
                 then zth src ((k - tl) mod size) else zth buf k.
Proof.
  intros Hlen Hmax Htl Hwl Hsrc fc sc.
  assert (Hfc : fc = Z.min (size - tl) wl).
  { unfold fc. rewrite MIN_spec, size_t_id by lia. reflexivity. }
  assert (Hsc : sc = wl - fc).
  { unfold sc. rewrite size_t_id by lia. reflexivity. }
  set (s1 := firstn (Z.to_nat fc) (skipn (Z.to_nat 0) src)).
  assert (Hs1 : Z.of_nat (length s1) = fc) by (apply length_slice; lia).
  set (b1 := firstn (Z.to_nat tl) buf ++ s1 ++ skipn (Z.to_nat tl + length s1) buf).
  assert (Hb1 : length b1 = length buf) by (apply length_patch; lia).
  assert (Hm1 : memcpy buf tl src 0 fc = Ok b1).
  { unfold memcpy. rewrite mem_read_ok by lia. rewrite bind_Ok.
    fold s1. rewrite mem_write_ok by lia. reflexivity. }
  assert (Hz1 : forall k, 0 <= k < size ->
            zth b1 k = if (tl <=? k) && (k <? tl + fc)
                       then zth src (k - tl) else zth buf k).
  { intros k Hk. unfold b1. rewrite zth_patch by lia. rewrite Hs1.
    destruct ((tl <=? k) && (k <? tl + fc)) eqn:E; [|reflexivity].
    apply andb_true_iff in E. destruct E as [E1 E2].
    apply Z.leb_le in E1. apply Z.ltb_lt in E2.
    unfold s1. rewrite zth_slice by lia. f_equal. }
  set (s2 := firstn (Z.to_nat sc) (skipn (Z.to_nat fc) src)).
  assert (Hs2 : Z.of_nat (length s2) = sc) by (apply length_slice; lia).
  set (b2 := firstn (Z.to_nat 0) b1 ++ s2 ++ skipn (Z.to_nat 0 + length s2) b1).
  assert (Hb2 : length b2 = length b1) by (apply length_patch; lia).
  assert (Hz2 : forall k, 0 <= k < size ->
            zth b2 k = if k <? sc then zth src (fc + k) else zth b1 k).
  { intros k Hk. unfold b2. rewrite zth_patch by lia. rewrite Hs2.
    destruct (Z.leb_spec 0 k); [|lia]. simpl.
    destruct (Z.ltb_spec k sc); [|reflexivity].
    unfold s2. rewrite zth_slice by lia. f_equal. lia. }
  assert (Hpt : forall k b, 0 <= k < size ->
            zth b k = (if k <? sc then zth src (fc + k) else zth b1 k) ->
            zth b k = if (k - tl) mod size <? wl
                      then zth src ((k - tl) mod size) else zth buf k).
  { intros k b Hk ->. rewrite Hz1 by assumption.
    rewrite (mod_cases (k - tl) size) by lia.
    destruct (Z.ltb_spec k sc), (Z.ltb_spec (k - tl) 0),
             (Z.leb_spec tl k), (Z.ltb_spec k (tl + fc));
      simpl; try lia;
      try (destruct (Z.ltb_spec (k - tl) size));
      try (destruct (Z.ltb_spec (k - tl + size) wl));
      try (destruct (Z.ltb_spec (k - tl) wl));
      try lia; try reflexivity; f_equal; lia. }
  destruct (Z.ltb_spec 0 sc) as [Hpos|Hzero].
  - exists b1, b2. split; [exact Hm1|]. split.
    + unfold memcpy. rewrite mem_read_ok by lia. rewrite bind_Ok.
      fold s2. rewrite mem_write_ok by lia. reflexivity.
    + split; [congruence|]. intros k Hk. apply Hpt; auto.
  - exists b1, b1. split; [exact Hm1|]. split; [reflexivity|].
    split; [exact Hb1|]. intros k Hk. apply Hpt; auto.
    destruct (Z.ltb_spec k sc); [lia|reflexivity].
Qed.

(** The two copies of [read] stay inside the storage and deliver the
    bytes at the indices [(head + j) mod buffer_size], in order. *)
Lemma read_copy (buf : list byte) (size hd rl : Z) :
  Z.of_nat (length buf) = size -> size <= SIZE_MAX ->
  0 <= hd < size -> 0 <= rl <= size ->
  let fc := MIN (size_t (size - hd)) rl in
  let sc := size_t (rl - fc) in
  exists d1 d2,
    mem_read buf hd fc = Ok d1 /\
    (if 0 <? sc then mem_read buf 0 sc else Ok []) = Ok d2 /\
    d1 ++ d2
    = map (fun j => zth buf ((hd + Z.of_nat j) mod size)) (seq 0 (Z.to_nat rl)).
Proof.
  intros Hlen Hmax Hhd Hrl fc sc.
  assert (Hfc : fc = Z.min (size - hd) rl).
  { unfold fc. rewrite MIN_spec, size_t_id by lia. reflexivity. }
  assert (Hsc : sc = rl - fc).
  { unfold sc. rewrite size_t_id by lia. reflexivity. }
  set (d1 := firstn (Z.to_nat fc) (skipn (Z.to_nat hd) buf)).
  assert (Hd1 : Z.of_nat (length d1) = fc) by (apply length_slice; lia).
  set (d2 := firstn (Z.to_nat sc) (skipn (Z.to_nat 0) buf)).
  assert (Hd2 : Z.of_nat (length d2) = sc) by (apply length_slice; lia).
  assert (Hr2 : (if 0 <? sc then mem_read buf 0 sc else Ok []) = Ok d2).
  { destruct (Z.ltb_spec 0 sc).
    - apply mem_read_ok; lia.
    - f_equal. destruct d2; [reflexivity|simpl in Hd2; lia]. }
  exists d1, d2. split; [apply mem_read_ok; lia|]. split; [exact Hr2|].
  apply zth_ext.
  - rewrite length_app, length_map, length_seq. lia.
  - intros i Hi. rewrite length_app in Hi.
    rewrite zth_app by lia. rewrite Hd1.
    rewrite zth_map_seq by lia. rewrite Z2Nat.id by lia.
    rewrite (mod_cases (hd + i) size) by lia.
    destruct (Z.ltb_spec (hd + i) 0); [lia|].
    destruct (Z.ltb_spec i fc), (Z.ltb_spec (hd + i) size); try lia.
    + unfold d1. apply zth_slice; lia.
    + unfold d2. rewrite zth_slice by lia. f_equal. lia.
Qed.

(** * Occupancy *)

Lemma utilization_defined (p : k_pipe) :
  ring_ok p ->
  exists u, utilization p = Ok u /\ 0 <= u <= buffer_size p /\
            (u = buffer_size p <-> flag p PIPE_FLAG_FULL = true).
Proof.
  intros (Hs & Hl & Hh & Ht & Hf). unfold utilization.
  destruct (flag p PIPE_FLAG_FULL) eqn:E.
  - exists (buffer_size p). repeat split; auto; lia.
  - unfold umod. destruct (Z.eqb_spec (buffer_size p) 0); [lia|].
    eexists. split; [reflexivity|].
    match goal with |- context [?x mod ?n] =>
      pose proof (Z.mod_pos_bound x n ltac:(lia)) end.
    repeat split; try lia; try discriminate.
Qed.

Lemma occupancy_range (p : k_pipe) :
  ring_ok p -> 0 <= occupancy p <= buffer_size p.
Proof.
  intros (Hs & Hl & Hh & Ht & Hf). unfold occupancy.
  destruct (flag p PIPE_FLAG_FULL); [lia|].
  pose proof (Z.mod_pos_bound (tail p - head p) (buffer_size p) ltac:(lia)).
  lia.
Qed.

(** Where twice the size fits the machine word, [utilization] is the
    occupancy. *)
Lemma utilization_occupancy (p : k_pipe) :
  ring_ok p -> buffer_size p <= PTRDIFF_MAX ->
  utilization p = Ok (occupancy p).
Proof.
  intros (Hs & Hl & Hh & Ht & Hf) Hmax. unfold utilization, occupancy.
  destruct (flag p PIPE_FLAG_FULL); [reflexivity|].
  unfold umod. destruct (Z.eqb_spec (buffer_size p) 0); [lia|].
  f_equal. rewrite size_t_add_l.
  rewrite size_t_id by (unfold SIZE_MAX, PTRDIFF_MAX in *; simpl in *; lia).
  rewrite !mod_cases by lia.
  destruct (Z.ltb_spec (tail p - head p + buffer_size p) 0),
           (Z.ltb_spec (tail p - head p + buffer_size p) (buffer_size p)),
           (Z.ltb_spec (tail p - head p) 0),
           (Z.ltb_spec (tail p - head p) (buffer_size p)); lia.
Qed.

(** * The transfer of [write] *)

Lemma write_transfer_closed (p : k_pipe) (src : list byte) :
  flag p PIPE_FLAG_OPEN = false ->
  write_transfer p src = Ok (- EPIPE, k_spin_unlock p).
Proof. intros H. unfold write_transfer. rewrite H. reflexivity. Qed.

Lemma write_transfer_open (p : k_pipe) (src : list byte) (u : Z) :
  ring_ok p -> flag p PIPE_FLAG_OPEN = true ->
  utilization p = Ok u -> 0 <= u <= buffer_size p ->
  let wl := Z.min (buffer_size p - u) (Z.of_nat (length src)) in
  let t' := size_t (tail p + wl) mod buffer_size p in
  exists b,
    length b = length (buffer p) /\
    (forall k, 0 <= k < buffer_size p ->
       zth b k = if (k - tail p) mod buffer_size p <? wl
                 then zth src ((k - tail p) mod buffer_size p)
                 else zth (buffer p) k) /\
    write_transfer p src
    = Ok (int_of_size wl,
          mk_pipe b (buffer_size p) (head p) t' (waiting p)
                  (if negb (wl =? 0) && (t' =? head p)
                   then Z.lor (flags p) PIPE_FLAG_FULL else flags p)
                  false
                  (if wl =? 0 then data p else tl (data p))
                  (space p)).
Proof.
  intros Hok Hopen Hu Hur wl t'.
  destruct Hok as (Hs & Hl & Hh & Ht & Hf).
  assert (Hwl : MIN (size_t (buffer_size p - u)) (Z.of_nat (length src)) = wl).
  { rewrite MIN_spec, size_t_id by lia. reflexivity. }
  destruct (write_copy (buffer p) src (buffer_size p) (tail p) wl)
    as (b1 & b2 & H1 & H2 & Hlen & Hpt); try (unfold wl; lia).
  exists b2. split; [exact Hlen|]. split; [exact Hpt|].
  unfold write_transfer. rewrite Hopen. cbn [negb].
  rewrite Hu, bind_Ok. rewrite Hwl.
  rewrite H1, bind_Ok. rewrite H2, bind_Ok.
  unfold umod. destruct (Z.eqb_spec (buffer_size p) 0); [lia|].
  rewrite bind_Ok. fold t'. do 2 f_equal.
  destruct (Z.eqb_spec wl 0); cbn [negb andb].
  - reflexivity.
  - unfold notify_waiter. fields. setters.
    destruct (data p); fields; destruct (t' =? head p); reflexivity.
Qed.

(** * The transfer of [read] *)

Lemma read_transfer_eof (p : k_pipe) (len : Z) :
  utilization p = Ok 0 -> flag p PIPE_FLAG_OPEN = false ->
  read_transfer p len = Ok (- EPIPE, [], k_spin_unlock p).
Proof.
  intros Hu Hopen. unfold read_transfer. rewrite Hu, bind_Ok, Hopen.
  reflexivity.
Qed.

Lemma read_transfer_take (p : k_pipe) (len u : Z) :
  ring_ok p -> utilization p = Ok u -> 0 <= u <= buffer_size p ->
  u <> 0 \/ flag p PIPE_FLAG_OPEN = true -> 0 <= len ->
  let rl := Z.min len u in
  let h' := size_t (head p + rl) mod buffer_size p in
  read_transfer p len
  = Ok (int_of_size rl,
        map (fun j => zth (buffer p) ((head p + Z.of_nat j) mod buffer_size p))
            (seq 0 (Z.to_nat rl)),
        mk_pipe (buffer p) (buffer_size p) h' (tail p) (waiting p)
                (if rl =? 0 then flags p
                 else Z.land (flags p) (Z.lnot PIPE_FLAG_FULL))
                false (data p)
                (if rl =? 0 then space p else tl (space p))).
Proof.
  intros Hok Hu Hur Hgo Hlen rl h'.
  destruct Hok as (Hs & Hl & Hh & Ht & Hf).
  assert (Hrl : MIN len u = rl) by apply MIN_spec.
  destruct (read_copy (buffer p) (buffer_size p) (head p) rl)
    as (d1 & d2 & H1 & H2 & Hd); try (unfold rl; lia).
  unfold read_transfer. rewrite Hu, bind_Ok.
  replace ((u =? 0) && negb (flag p PIPE_FLAG_OPEN)) with false.
  2:{ destruct Hgo as [Hne|Hopen].
      - destruct (Z.eqb_spec u 0); [lia|reflexivity].
      - rewrite Hopen. simpl. now rewrite andb_false_r. }
  rewrite bind_Ok, Hrl. rewrite H1, bind_Ok. rewrite H2, bind_Ok.
  unfold umod. destruct (Z.eqb_spec (buffer_size p) 0); [lia|].
  rewrite bind_Ok. fold h'. rewrite Hd. do 2 f_equal.
  destruct (Z.eqb_spec rl 0); cbn [negb].
  - reflexivity.
  - unfold notify_waiter. fields. setters.
    destruct (space p); reflexivity.
Qed.

(** * Pipes with the same ring *)

Lemma same_ring_refl (p : k_pipe) : same_ring p p.
Proof. unfold same_ring. auto 10. Qed.

Lemma same_ring_trans (p q r : k_pipe) :
  same_ring p q -> same_ring q r -> same_ring p r.
Proof. unfold same_ring. intuition congruence. Qed.

Lemma ring_ok_same (p p' : k_pipe) : same_ring p p' -> ring_ok p -> ring_ok p'.
Proof.
  unfold same_ring, ring_ok.
  intros (-> & -> & -> & -> & -> & _). auto.
Qed.

Lemma utilization_same (p p' : k_pipe) :
  same_ring p p' -> utilization p' = utilization p.
Proof.
  unfold same_ring, utilization.
  intros (_ & -> & -> & -> & -> & _). reflexivity.
Qed.

Lemma occupancy_same (p p' : k_pipe) :
  same_ring p p' -> occupancy p' = occupancy p.
Proof.
  unfold same_ring, occupancy.
  intros (_ & -> & -> & -> & -> & _). reflexivity.
Qed.

Lemma contents_same (p p' : k_pipe) :
  same_ring p p' -> contents p' = contents p.
Proof.
  intros H. unfold contents. rewrite (occupancy_same _ _ H).
  destruct H as (-> & -> & -> & _). reflexivity.
Qed.

Lemma pipe_inv_same (p p' : k_pipe) :
  same_ring p p' -> pipe_inv p ->
  (flag p PIPE_FLAG_OPEN = false -> data p' = [] /\ space p' = []) ->
  pipe_inv p'.
Proof.
  intros Hs (Hok & Hc) Hq. split; [eapply ring_ok_same; eauto|].
  destruct Hs as (_ & _ & _ & _ & Hf & Ho). rewrite Ho, Hf. intros Hcl.
  specialize (Hc Hcl). specialize (Hq Hcl). intuition.
Qed.

Lemma same_ring_lock (p : k_pipe) (l : bool) : same_ring p (set_lock p l).
Proof. unfold same_ring. fields. auto 10. Qed.

Lemma same_ring_unlock (p : k_pipe) : same_ring p (k_spin_unlock p).
Proof. apply same_ring_lock. Qed.

Lemma pipe_inv_unlock (p : k_pipe) : pipe_inv p -> pipe_inv (k_spin_unlock p).
Proof.
  intros H. apply (pipe_inv_same p); [apply same_ring_unlock|exact H|].
  intros Hc. destruct H as (_ & H). specialize (H Hc). fields. intuition.
Qed.

Lemma same_ring_waiting (p : k_pipe) (w : Z) : same_ring p (set_waiting p w).
Proof. unfold same_ring. fields. auto 10. Qed.

Lemma same_ring_data (p : k_pipe) (q : wait_q) : same_ring p (set_data p q).
Proof. unfold same_ring. fields. auto 10. Qed.

Lemma same_ring_space (p : k_pipe) (q : wait_q) : same_ring p (set_space p q).
Proof. unfold same_ring. fields. auto 10. Qed.

Lemma same_ring_set_reset (p : k_pipe) :
  same_ring p (set_flags p (Z.lor (flags p) PIPE_FLAG_RESET)).
Proof. unfold same_ring. fields. autorewrite with pipe_flags. auto 10. Qed.

Lemma same_ring_clear_reset (p : k_pipe) :
  same_ring p (set_flags p (Z.land (flags p) (Z.lnot PIPE_FLAG_RESET))).
Proof. unfold same_ring. fields. autorewrite with pipe_flags. auto 10. Qed.

(** * The wait helper *)

Lemma wait_for_enter_same (curr : tid) (q : waitq_id) (p : k_pipe)
      (timeout : k_timeout_t) :
  match wait_for_enter curr q p timeout with
  | NoWait rc p' =>
      rc = - EAGAIN /\ same_ring p p' /\ lock p' = false /\
      data p' = data p /\ space p' = space p
  | Pended p' =>
      same_ring p p' /\ lock p' = false /\
      waitq p' q = waitq p q ++ [curr] /\
      match q with DATA => space p' = space p | SPACE => data p' = data p end
  end.
Proof.
  unfold wait_for_enter.
  destruct (K_TIMEOUT_EQ timeout K_NO_WAIT || flag p PIPE_FLAG_RESET).
  - repeat split.
  - destruct q; unfold same_ring; fields; auto 10.
Qed.

Lemma wait_for_resume_same (cond : wait_cond_t) (p : k_pipe) (c : bool) :
  cond (set_waiting (k_spin_lock p) (size_t (waiting p - 1))) = Ok c ->
  exists rc p',
    wait_for_resume cond p = Ok (rc, p') /\
    same_ring p p' /\ data p' = data p /\ space p' = space p /\
    (rc = 0 -> flag p PIPE_FLAG_OPEN = true /\ c = false /\
               p' = set_waiting (k_spin_lock p) (size_t (waiting p - 1))) /\
    (rc = 0 \/ rc = - EPIPE \/ rc = - ECANCELED \/ rc = - EAGAIN).
Proof.
  intros Hc. unfold wait_for_resume. fields.
  destruct (testflag (flags p) PIPE_FLAG_OPEN) eqn:Hopen; cbn [negb].
  - destruct (testflag (flags p) PIPE_FLAG_RESET) eqn:Hreset.
    + eexists _, _. split; [reflexivity|].
      destruct (size_t (waiting p - 1) =? 0);
        unfold same_ring; fields; autorewrite with pipe_flags;
        repeat split; auto; try errno.
    + fold (k_spin_lock p). rewrite Hc, bind_Ok. destruct c; cbn [negb].
      * eexists _, _. split; [reflexivity|].
        unfold same_ring; fields. repeat split; auto; try errno.
      * eexists _, _. split; [reflexivity|].
        unfold same_ring; fields. repeat split; auto; try errno.
  - eexists _, _. split; [reflexivity|].
    unfold same_ring; fields. repeat split; auto; try errno.
Qed.

(** * The transfers keep the pipe well formed *)

Lemma write_transfer_inv (p : k_pipe) (src : list byte) :
  pipe_inv p ->
  exists rc p',
    write_transfer p src = Ok (rc, p') /\ pipe_inv p' /\ lock p' = false /\
    buffer_size p' = buffer_size p /\
    length (buffer p') = length (buffer p).
Proof.
  intros Hinv. destruct (flag p PIPE_FLAG_OPEN) eqn:Hopen.
  - destruct Hinv as (Hok & Hcl).
    destruct (utilization_defined p Hok) as (u & Hu & Hur & Hfull).
    destruct (write_transfer_open p src u Hok Hopen Hu Hur)
      as (b & Hlen & _ & ->).
    eexists _, _. split; [reflexivity|].
    destruct Hok as (Hs & Hl & Hh & Ht & Hf).
    set (wl := Z.min (buffer_size p - u) (Z.of_nat (length src))) in *.
    set (t' := size_t (tail p + wl) mod buffer_size p) in *.
    pose proof (Z.mod_pos_bound (size_t (tail p + wl)) (buffer_size p)
                  ltac:(lia)) as Hb.
    fold t' in Hb.
    unfold pipe_inv, ring_ok. fields.
    repeat split; try lia; try assumption.
    + destruct (Z.eqb_spec wl 0) as [E|E]; cbn [negb andb].
      * intros HF. assert (t' = tail p) as ->; [|auto].
        unfold t'. rewrite E, Z.add_0_r, size_t_id by lia.
        apply Z.mod_small. lia.
      * destruct (Z.eqb_spec t' (head p)); [auto|].
        intros HF. apply Hfull in HF. unfold wl in E. lia.
    + destruct (negb (wl =? 0) && (t' =? head p));
        autorewrite with pipe_flags in *; congruence.
    + destruct (negb (wl =? 0) && (t' =? head p));
        autorewrite with pipe_flags in *; congruence.
    + destruct (negb (wl =? 0) && (t' =? head p));
        autorewrite with pipe_flags in *; congruence.
  - rewrite (write_transfer_closed p src Hopen).
    eexists _, _. split; [reflexivity|]. split; [|repeat split].
    now apply pipe_inv_unlock.
Qed.

Lemma after_read_inv (p : k_pipe) (rl : Z) :
  pipe_inv p -> 0 <= rl ->
  let h' := size_t (head p + rl) mod buffer_size p in
  pipe_inv (mk_pipe (buffer p) (buffer_size p) h' (tail p) (waiting p)
                    (if rl =? 0 then flags p
                     else Z.land (flags p) (Z.lnot PIPE_FLAG_FULL))
                    false (data p)
                    (if rl =? 0 then space p else tl (space p))).
Proof.
  intros ((Hs & Hl & Hh & Ht & Hf) & Hcl) Hrl h'.
  pose proof (Z.mod_pos_bound (size_t (head p + rl)) (buffer_size p)
                ltac:(lia)) as Hb.
  fold h' in Hb. unfold pipe_inv, ring_ok. fields.
  destruct (Z.eqb_spec rl 0) as [E|E]; autorewrite with pipe_flags.
  - assert (h' = head p) as ->.
    { unfold h'. rewrite E, Z.add_0_r, size_t_id by lia.
      apply Z.mod_small. lia. }
    split; [repeat split; try lia; auto|auto].
  - split; [repeat split; try lia; try discriminate; auto|].
    intros HF. destruct (Hcl HF) as (Hd & Hsp & _). rewrite Hsp. auto.
Qed.

Lemma read_transfer_inv (p : k_pipe) (len : Z) :
  pipe_inv p -> 0 <= len ->
  exists rc out p',
    read_transfer p len = Ok (rc, out, p') /\ pipe_inv p' /\ lock p' = false /\
    buffer_size p' = buffer_size p /\
    length (buffer p') = length (buffer p).
Proof.
  intros Hinv Hlen. pose proof Hinv as (Hok & Hcl).
  destruct (utilization_defined p Hok) as (u & Hu & Hur & Hfull).
  assert (Hcases : (u = 0 /\ flag p PIPE_FLAG_OPEN = false)
                   \/ (u <> 0 \/ flag p PIPE_FLAG_OPEN = true)).
  { destruct (Z.eq_dec u 0), (flag p PIPE_FLAG_OPEN); auto. }
  destruct Hcases as [(-> & Hopen)|Hgo].
  - rewrite (read_transfer_eof p len Hu Hopen).
    eexists _, _, _. split; [reflexivity|]. split; [|repeat split].
    now apply pipe_inv_unlock.
  - rewrite (read_transfer_take p len u Hok Hu Hur Hgo Hlen).
    eexists _, _, _. split; [reflexivity|]. split; [|repeat split].
    apply after_read_inv; [assumption|lia].
Qed.

(** * The calls keep the pipe well formed *)

Lemma pipe_inv_lock (p : k_pipe) : pipe_inv p -> pipe_inv (k_spin_lock p).
Proof.
  intros H. apply (pipe_inv_same p); [apply same_ring_lock|exact H|].
  intros Hc. destruct H as (_ & H). specialize (H Hc). fields. intuition.
Qed.

Lemma full_is_open (p : k_pipe) :
  pipe_inv p -> flag p PIPE_FLAG_FULL = true -> flag p PIPE_FLAG_OPEN = true.
Proof.
  intros (_ & Hcl) HF. destruct (flag p PIPE_FLAG_OPEN); [reflexivity|].
  destruct (Hcl eq_refl) as (_ & _ & H). congruence.
Qed.

Lemma wait_for_enter_inv (curr : tid) (q : waitq_id) (p : k_pipe)
      (timeout : k_timeout_t) :
  pipe_inv p -> flag p PIPE_FLAG_OPEN = true ->
  match wait_for_enter curr q p timeout with
  | NoWait rc p' =>
      pipe_inv (k_spin_unlock p') /\ buffer_size p' = buffer_size p /\
      length (buffer p') = length (buffer p)
  | Pended p' =>
      pipe_inv p' /\ lock p' = false /\ buffer_size p' = buffer_size p /\
      length (buffer p') = length (buffer p)
  end.
Proof.
  intros Hinv Hopen.
  pose proof (wait_for_enter_same curr q p timeout) as H.
  destruct (wait_for_enter curr q p timeout) as [rc p'|p'].
  - destruct H as (_ & Hs & _ & Hd & Hsp). split.
    + apply pipe_inv_unlock. apply (pipe_inv_same p); auto. congruence.
    + destruct Hs as (-> & -> & _). auto.
  - destruct H as (Hs & Hl & _). split; [|split; [exact Hl|]].
    + apply (pipe_inv_same p); auto. congruence.
    + destruct Hs as (-> & -> & _). auto.
Qed.

Lemma write_inv (curr : tid) (p : k_pipe) (src : list byte)
      (timeout : k_timeout_t) :
  pipe_inv p ->
  exists o,
    z_impl_k_pipe_write curr p src timeout = Ok o /\
    match o with
    | Returned _ p' | Suspended p' =>
        pipe_inv p' /\ lock p' = false /\ buffer_size p' = buffer_size p /\
        length (buffer p') = length (buffer p)
    end.
Proof.
  intros Hinv. apply pipe_inv_lock in Hinv.
  pose proof Hinv as (Hok & _).
  destruct (utilization_defined _ Hok) as (u & Hu & Hur & Hfull).
  unfold z_impl_k_pipe_write, queue_full. rewrite Hu, !bind_Ok.
  change (buffer_size (k_spin_lock p)) with (buffer_size p) in *.
  change (buffer (k_spin_lock p)) with (buffer p) in *.
  destruct (Z.eqb_spec u (buffer_size p)) as [E|E].
  - assert (Hopen : flag (k_spin_lock p) PIPE_FLAG_OPEN = true).
    { apply full_is_open; [assumption|]. now apply Hfull. }
    pose proof (wait_for_enter_inv curr SPACE _ timeout Hinv Hopen) as H.
    destruct (wait_for_enter curr SPACE (k_spin_lock p) timeout) as [rc p'|p'];
      eexists; (split; [reflexivity|]); cbn beta iota.
    + destruct H as (H1 & H2 & H3). split; [exact H1|]. repeat split; auto.
    + exact H.
  - destruct (write_transfer_inv _ src Hinv) as (rc & p' & -> & H).
    rewrite bind_Ok. eexists. split; [reflexivity|]. exact H.
Qed.

Lemma read_inv (curr : tid) (p : k_pipe) (len : Z) (timeout : k_timeout_t) :
  pipe_inv p ->
  exists o,
    z_impl_k_pipe_read curr p len timeout = Ok o /\
    match o with
    | Returned _ p' | Suspended p' =>
        pipe_inv p' /\ lock p' = false /\ buffer_size p' = buffer_size p /\
        length (buffer p') = length (buffer p)
    end.
Proof.
  intros Hinv. apply pipe_inv_lock in Hinv.
  pose proof Hinv as (Hok & _).
  destruct (utilization_defined _ Hok) as (u & Hu & Hur & Hfull).
  unfold z_impl_k_pipe_read. rewrite Hu, !bind_Ok.
  change (buffer_size (k_spin_lock p)) with (buffer_size p) in *.
  change (buffer (k_spin_lock p)) with (buffer p) in *.
  destruct ((u =? 0) && flag (k_spin_lock p) PIPE_FLAG_OPEN) eqn:E.
  - apply andb_true_iff in E. destruct E as (_ & Hopen).
    pose proof (wait_for_enter_inv curr DATA _ timeout Hinv Hopen) as H.
    destruct (wait_for_enter curr DATA (k_spin_lock p) timeout) as [rc p'|p'];
      eexists; (split; [reflexivity|]); cbn beta iota.
    + destruct H as (H1 & H2 & H3). split; [exact H1|]. repeat split; auto.
    + exact H.
  - destruct (read_transfer_inv _ (size_t len) Hinv) as (rc & out & p' & -> & H).
    { apply size_t_range. }
    rewrite bind_Ok. eexists. split; [reflexivity|]. exact H.
Qed.

Lemma cond_defined (p : k_pipe) :
  ring_ok p ->
  (exists c, queue_full p = Ok c) /\ (exists c, queue_empty p = Ok c).
Proof.
  intros Hok. destruct (utilization_defined p Hok) as (u & Hu & _).
  unfold queue_full, queue_empty. rewrite Hu, !bind_Ok. eauto.
Qed.

Lemma pipe_inv_woken (p : k_pipe) :
  pipe_inv p ->
  pipe_inv (set_waiting (k_spin_lock p) (size_t (waiting p - 1))).
Proof.
  intros H. apply (pipe_inv_same p); [|exact H|].
  - eapply same_ring_trans; [apply same_ring_lock|apply same_ring_waiting].
  - intros Hc. destruct H as (_ & H). specialize (H Hc). fields. intuition.
Qed.

Lemma write_resume_inv (p : k_pipe) (src : list byte) :
  pipe_inv p ->
  exists rc p',
    z_impl_k_pipe_write_resume p src = Ok (rc, p') /\
    pipe_inv p' /\ lock p' = false /\ buffer_size p' = buffer_size p /\
    length (buffer p') = length (buffer p).
Proof.
  intros Hinv. pose proof (pipe_inv_woken p Hinv) as Hinv1.
  destruct (cond_defined _ (proj1 Hinv1)) as ((c & Hc) & _).
  destruct (wait_for_resume_same queue_full p c Hc)
    as (rc & p' & Hw & Hs & Hd & Hsp & Hzero & _).
  unfold z_impl_k_pipe_write_resume. rewrite Hw, bind_Ok.
  destruct (Z.eqb_spec rc 0) as [E|E]; cbn [negb].
  - destruct (Hzero E) as (_ & _ & ->).
    destruct (write_transfer_inv _ src Hinv1) as (rc' & p'' & -> & H).
    eexists _, _. split; [reflexivity|]. exact H.
  - eexists _, _. split; [reflexivity|]. split; [|split; [reflexivity|]].
    + apply pipe_inv_unlock. apply (pipe_inv_same p); auto.
      destruct Hinv as (_ & Hcl). intros Hc'. rewrite Hd, Hsp.
      specialize (Hcl Hc'). intuition.
    + destruct Hs as (Hb & Hz & _). fields. rewrite Hb, Hz. auto.
Qed.

Lemma read_resume_inv (p : k_pipe) (len : Z) :
  pipe_inv p ->
  exists rc out p',
    z_impl_k_pipe_read_resume p len = Ok (rc, out, p') /\
    pipe_inv p' /\ lock p' = false /\ buffer_size p' = buffer_size p /\
    length (buffer p') = length (buffer p).
Proof.
  intros Hinv. pose proof (pipe_inv_woken p Hinv) as Hinv1.
  destruct (cond_defined _ (proj1 Hinv1)) as (_ & (c & Hc)).
  destruct (wait_for_resume_same queue_empty p c Hc)
    as (rc & p' & Hw & Hs & Hd & Hsp & _ & _).
  assert (Hinv' : pipe_inv p').
  { apply (pipe_inv_same p); auto.
    destruct Hinv as (_ & Hcl). intros Hc'. rewrite Hd, Hsp.
    specialize (Hcl Hc'). intuition. }
  unfold z_impl_k_pipe_read_resume. rewrite Hw, bind_Ok.
  destruct (negb (rc =? 0) && negb (rc =? - EPIPE)).
  - eexists _, _, _. split; [reflexivity|]. split; [|split; [reflexivity|]].
    + now apply pipe_inv_unlock.
    + destruct Hs as (Hb & Hz & _). fields. rewrite Hb, Hz. auto.
  - destruct (read_transfer_inv p' (size_t len) Hinv')
      as (rc' & out & p'' & -> & H1 & H2 & H3 & H4).
    { apply size_t_range. }
    eexists _, _, _. split; [reflexivity|].
    destruct Hs as (Hb & Hz & _). rewrite <- Hb, <- Hz. auto.
Qed.

Lemma reset_inv (p : k_pipe) :
  pipe_inv p ->
  pipe_inv (snd (z_impl_k_pipe_reset p)) /\
  lock (snd (z_impl_k_pipe_reset p)) = false /\
  buffer_size (snd (z_impl_k_pipe_reset p)) = buffer_size p /\
  length (buffer (snd (z_impl_k_pipe_reset p))) = length (buffer p).
Proof.
  intros ((Hs & Hl & Hh & Ht & Hf) & Hcl).
  unfold z_impl_k_pipe_reset, pipe_inv, ring_ok. fields.
  autorewrite with pipe_flags.
  repeat split; try lia; auto. now apply Hcl.
Qed.

Lemma close_inv (p : k_pipe) :
  pipe_inv p ->
  pipe_inv (snd (z_impl_k_pipe_close p)) /\
  lock (snd (z_impl_k_pipe_close p)) = false /\
  buffer_size (snd (z_impl_k_pipe_close p)) = buffer_size p /\
  length (buffer (snd (z_impl_k_pipe_close p))) = length (buffer p).
Proof.
  intros Hinv. unfold z_impl_k_pipe_close.
  destruct (flag (k_spin_lock p) PIPE_FLAG_OPEN) eqn:E; cbn [negb snd].
  - destruct Hinv as ((Hs & Hl & Hh & Ht & Hf) & Hcl).
    unfold pipe_inv, ring_ok. fields. autorewrite with pipe_flags.
    repeat split; try lia; auto; discriminate.
  - split; [|repeat split]. apply pipe_inv_unlock. now apply pipe_inv_lock.
Qed.

Lemma expire_inv (p : k_pipe) (t : tid) :
  pipe_inv p ->
  pipe_inv (set_space (set_data p (unqueue t (data p)))
                      (unqueue t (space (set_data p (unqueue t (data p)))))).
Proof.
  intros H. apply (pipe_inv_same p); [|exact H|].
  - eapply same_ring_trans; [apply same_ring_data|apply same_ring_space].
  - intros Hc. destruct H as (_ & H). destruct (H Hc) as (Hd & Hsp & _).
    fields. rewrite Hd, Hsp. auto.
Qed.

(** * Every step keeps the system well formed *)

Lemma boot_inv (storage : list byte) (size : Z) :
  0 < size <= SIZE_MAX -> Z.of_nat (length storage) = size ->
  kernel_inv size (boot storage size).
Proof.
  intros Hs Hl. unfold kernel_inv, boot, z_impl_k_pipe_init, pipe_inv, ring_ok.
  cbn [pipe]. fields. repeat split; try lia; try discriminate.
Qed.

Lemma step_inv (size : Z) (k : kernel) (e : event) :
  kernel_inv size k ->
  exists s, step k e = Ok s /\
            forall k' r, s = Some (k', r) -> kernel_inv size k'.
Proof.
  intros (Hinv & Hlock & Hsize). unfold kernel_inv.
  destruct e as [t src timeout|t len timeout| | |t|t]; cbn [step].
  - destruct (find_frame t (frames k)); [eexists; split; [reflexivity|discriminate]|].
    destruct (write_inv t (pipe k) src timeout Hinv) as (o & -> & H).
    rewrite bind_Ok. destruct o as [rc p'|p'];
      (eexists; split; [reflexivity|]); intros k' r [= <- _]; cbn [pipe];
      intuition congruence.
  - destruct (find_frame t (frames k)); [eexists; split; [reflexivity|discriminate]|].
    destruct (read_inv t (pipe k) len timeout Hinv) as (o & -> & H).
    rewrite bind_Ok. destruct o as [[rc out] p'|p'];
      (eexists; split; [reflexivity|]); intros k' r [= <- _]; cbn [pipe];
      intuition congruence.
  - pose proof (reset_inv (pipe k) Hinv) as H.
    destruct (z_impl_k_pipe_reset (pipe k)) as [rc p'].
    eexists; split; [reflexivity|]. intros k' r [= <- _]. cbn [pipe snd] in *.
    intuition congruence.
  - pose proof (close_inv (pipe k) Hinv) as H.
    destruct (z_impl_k_pipe_close (pipe k)) as [rc p'].
    eexists; split; [reflexivity|]. intros k' r [= <- _]. cbn [pipe snd] in *.
    intuition congruence.
  - destruct (find_frame t (frames k)) as [[c timeout]|];
      [|eexists; split; [reflexivity|discriminate]].
    match goal with |- context [if ?b then _ else _] => destruct b end;
      [|eexists; split; [reflexivity|discriminate]].
    eexists; split; [reflexivity|]. intros k' r [= <- _]. cbn [pipe].
    split; [now apply expire_inv|]. fields. auto.
  - destruct (find_frame t (frames k)) as [[c timeout]|];
      [|eexists; split; [reflexivity|discriminate]].
    match goal with |- context [if ?b then _ else _] => destruct b end;
      [eexists; split; [reflexivity|discriminate]|].
    destruct c as [src|len].
    + destruct (write_resume_inv (pipe k) src Hinv) as (rc & p' & -> & H).
      rewrite bind_Ok. eexists; split; [reflexivity|].
      intros k' r [= <- _]. cbn [pipe snd]. intuition congruence.
    + destruct (read_resume_inv (pipe k) len Hinv) as (rc & out & p' & -> & H).
      rewrite bind_Ok. eexists; split; [reflexivity|].
      intros k' r [= <- _]. cbn [pipe snd]. intuition congruence.
Qed.

Lemma run_inv (size : Z) (es : list event) :
  forall k, kernel_inv size k ->
  exists s, run k es = Ok s /\
            forall k' rs, s = Some (k', rs) -> kernel_inv size k'.
Proof.
  induction es as [|e es IH]; intros k Hk; cbn [run].
  - eexists; split; [reflexivity|]. now intros k' rs [= <- _].
  - destruct (step_inv size k e Hk) as (s & -> & Hs). rewrite bind_Ok.
    destruct s as [[k1 r]|]; [|eexists; split; [reflexivity|discriminate]].
    destruct (IH k1 (Hs _ _ eq_refl)) as (s' & -> & Hs'). rewrite bind_Ok.
    destruct s' as [[k2 rs]|]; [|eexists; split; [reflexivity|discriminate]].
    eexists; split; [reflexivity|]. intros k' rs' [= <- _]. eauto.
Qed.

(** * The bytes in the ring *)

(** Case analysis on every remainder by the buffer size in sight. *)
Ltac ring_cases :=
  repeat match goal with
         | |- context [?x mod ?n] => rewrite (mod_cases x n) by lia
         | H : context [?x mod ?n] |- _ => rewrite (mod_cases x n) in H by lia
         | |- context [?a <? ?b] => destruct (Z.ltb_spec a b)
         | H : context [?a <? ?b] |- _ =>
             revert H; destruct (Z.ltb_spec a b); intro H
         end.

Lemma map_seq_from {A : Type} (f : nat -> A) (a n : nat) :
  map f (seq a n) = map (fun i => f (a + i)%nat) (seq 0 n).
Proof.
  revert a. induction n as [|n IH]; intros a; [reflexivity|].
  cbn [seq map]. rewrite Nat.add_0_r. f_equal.
  rewrite IH, <- seq_shift, map_map. apply map_ext. intros i.
  f_equal. lia.
Qed.

Lemma occupancy_after_write (p : k_pipe) (wl : Z) (b : list byte) :
  ring_ok p -> buffer_size p <= PTRDIFF_MAX ->
  0 <= wl <= buffer_size p - occupancy p ->
  let t' := size_t (tail p + wl) mod buffer_size p in
  occupancy (mk_pipe b (buffer_size p) (head p) t' (waiting p)
                     (if negb (wl =? 0) && (t' =? head p)
                      then Z.lor (flags p) PIPE_FLAG_FULL else flags p)
                     false
                     (if wl =? 0 then data p else tl (data p))
                     (space p))
  = occupancy p + wl.
Proof.
  intros Hok Hmax Hwl t'. pose proof (occupancy_range p Hok) as Hocc.
  destruct Hok as (Hs & Hl & Hh & Ht & Hf).
  assert (Ht' : t' = (tail p + wl) mod buffer_size p).
  { unfold t'. rewrite size_t_id; [reflexivity|].
    unfold SIZE_MAX, PTRDIFF_MAX in *. simpl in *. lia. }
  revert Hwl. unfold occupancy. fields.
  destruct (Z.eqb_spec wl 0) as [E|E]; cbn [negb andb].
  - subst wl. intros _. rewrite Z.add_0_r in Ht'.
    rewrite Z.mod_small in Ht' by lia. rewrite Ht'. lia.
  - destruct (testflag (flags p) PIPE_FLAG_FULL) eqn:EF; [lia|].
    intros Hwl. destruct (Z.eqb_spec t' (head p)) as [E'|E'];
      autorewrite with pipe_flags; rewrite ?EF; rewrite Ht' in *;
      ring_cases; lia.
Qed.

Lemma contents_after_write (p : k_pipe) (src : list byte) (rc : Z) (p' : k_pipe) :
  ring_ok p -> buffer_size p <= PTRDIFF_MAX ->
  write_transfer p src = Ok (rc, p') ->
  contents p' = contents p ++ accepted (WriteRet rc src).
Proof.
  intros Hok Hmax Hw. destruct (flag p PIPE_FLAG_OPEN) eqn:Hopen.
  2:{ rewrite (write_transfer_closed p src Hopen) in Hw.
      injection Hw as <- <-. cbn [accepted].
      rewrite (contents_same p) by apply same_ring_unlock.
      symmetry. apply app_nil_r. }
  pose proof (utilization_occupancy p Hok Hmax) as Hu.
  pose proof (occupancy_range p Hok) as Hur.
  destruct (write_transfer_open p src _ Hok Hopen Hu Hur) as (b & Hlen & Hpt & Heq).
  rewrite Heq in Hw. clear Heq. injection Hw as <- <-.
  set (u := occupancy p) in *.
  set (wl := Z.min (buffer_size p - u) (Z.of_nat (length src))) in *.
  assert (Hwl : 0 <= wl <= buffer_size p - u) by (unfold wl; lia).
  assert (Hrc : int_of_size wl = wl).
  { apply int_of_size_id. unfold INT_MAX, PTRDIFF_MAX in *. lia. }
  assert (Hacc : accepted (WriteRet (int_of_size wl) src)
                 = firstn (Z.to_nat wl) src).
  { cbn [accepted]. rewrite Hrc. destruct (Z.ltb_spec 0 wl); [reflexivity|].
    replace wl with 0 by lia. reflexivity. }
  rewrite Hacc. unfold contents at 1.
  rewrite (occupancy_after_write p wl b Hok Hmax Hwl). fold u.
  cbn [buffer head buffer_size].
  replace (Z.to_nat (u + wl)) with (Z.to_nat u + Z.to_nat wl)%nat by lia.
  rewrite seq_app, map_app. f_equal.
  - unfold contents. fold u. apply map_ext_in. intros i Hi.
    apply in_seq in Hi.
    destruct Hok as (Hs & Hl & Hh & Ht & Hf).
    assert (Hk : 0 <= (head p + Z.of_nat i) mod buffer_size p < buffer_size p)
      by (apply Z.mod_pos_bound; lia).
    rewrite (Hpt _ Hk).
    destruct (Z.ltb_spec ((((head p + Z.of_nat i) mod buffer_size p) - tail p)
                            mod buffer_size p) wl) as [Hlt|]; [|reflexivity].
    exfalso.
    pose proof (Z.mod_pos_bound
                  ((head p + Z.of_nat i) mod buffer_size p - tail p)
                  (buffer_size p) ltac:(lia)) as Hnn.
    revert Hlt Hnn. unfold u, occupancy in *.
    destruct (flag p PIPE_FLAG_FULL); [lia|]. intros Hlt _.
    ring_cases; lia.
  - rewrite map_seq_from. apply zth_ext.
    + rewrite length_map, length_seq, length_firstn. unfold wl. lia.
    + rewrite length_map, length_seq. intros j Hj.
      rewrite zth_map_seq by lia. rewrite zth_firstn by lia.
      destruct Hok as (Hs & Hl & Hh & Ht & Hf).
      assert (Hk : 0 <= (head p + Z.of_nat (0 + Z.to_nat u + Z.to_nat j))
                          mod buffer_size p < buffer_size p)
        by (apply Z.mod_pos_bound; lia).
      rewrite (Hpt _ Hk).
      replace (Z.of_nat (0 + Z.to_nat u + Z.to_nat j)) with (u + j) by lia.
      assert (Hmod : ((head p + (u + j)) mod buffer_size p - tail p)
                       mod buffer_size p = j).
      { unfold u, occupancy in *.
        destruct (flag p PIPE_FLAG_FULL); [lia|]. ring_cases; lia. }
      rewrite Hmod. destruct (Z.ltb_spec j wl); [reflexivity|lia].
Qed.

Lemma occupancy_after_read (p : k_pipe) (rl : Z) :
  ring_ok p -> buffer_size p <= PTRDIFF_MAX ->
  0 <= rl <= occupancy p ->
  let h' := size_t (head p + rl) mod buffer_size p in
  occupancy (mk_pipe (buffer p) (buffer_size p) h' (tail p) (waiting p)
                     (if rl =? 0 then flags p
                      else Z.land (flags p) (Z.lnot PIPE_FLAG_FULL))
                     false (data p)
                     (if rl =? 0 then space p else tl (space p)))
  = occupancy p - rl.
Proof.
  intros Hok Hmax Hrl h'. pose proof (occupancy_range p Hok) as Hocc.
  destruct Hok as (Hs & Hl & Hh & Ht & Hf).
  assert (Hh' : h' = (head p + rl) mod buffer_size p).
  { unfold h'. rewrite size_t_id; [reflexivity|].
    unfold SIZE_MAX, PTRDIFF_MAX in *. simpl in *. lia. }
  revert Hrl. clear Hocc. unfold occupancy. fields.
  destruct (Z.eqb_spec rl 0) as [E|E].
  - subst rl. intros _. rewrite Z.add_0_r in Hh'.
    rewrite Z.mod_small in Hh' by lia. rewrite Hh'. lia.
  - autorewrite with pipe_flags. rewrite Hh'.
    destruct (testflag (flags p) PIPE_FLAG_FULL) eqn:EF.
    + specialize (Hf eq_refl). intros Hrl. ring_cases; lia.
    + intros Hrl. ring_cases; lia.
Qed.

Lemma contents_after_read (p : k_pipe) (len rc : Z) (out : list byte)
      (p' : k_pipe) :
  ring_ok p -> buffer_size p <= PTRDIFF_MAX -> 0 <= len ->
  read_transfer p len = Ok (rc, out, p') ->
  contents p = out ++ contents p' /\
  (occupancy p <> 0 \/ flag p PIPE_FLAG_OPEN = true ->
   rc = Z.min len (occupancy p) /\ Z.of_nat (length out) = rc).
Proof.
  intros Hok Hmax Hlen Hr.
  pose proof (utilization_occupancy p Hok Hmax) as Hu.
  pose proof (occupancy_range p Hok) as Hur.
  set (u := occupancy p) in *.
  assert (Hcases : (u = 0 /\ flag p PIPE_FLAG_OPEN = false)
                   \/ (u <> 0 \/ flag p PIPE_FLAG_OPEN = true)).
  { destruct (Z.eq_dec u 0), (flag p PIPE_FLAG_OPEN); auto. }
  destruct Hcases as [(Hz & Hopen)|Hgo].
  - rewrite Hz in Hu. rewrite (read_transfer_eof p len Hu Hopen) in Hr.
    injection Hr as <- <- <-. split.
    + rewrite (contents_same p (k_spin_unlock p)) by apply same_ring_unlock.
      reflexivity.
    + intros [H|H]; [contradiction|congruence].
  - rewrite (read_transfer_take p len u Hok Hu Hur Hgo Hlen) in Hr.
    injection Hr as <- <- <-.
    set (rl := Z.min len u) in *.
    assert (Hrl : 0 <= rl <= u) by (unfold rl; lia).
    assert (Hrc : int_of_size rl = rl).
    { apply int_of_size_id. unfold INT_MAX, PTRDIFF_MAX in *. lia. }
    split; [|intros _; rewrite Hrc, length_map, length_seq; lia].
    unfold contents.
    rewrite (occupancy_after_read p rl Hok Hmax Hrl). fold u.
    cbn [buffer head buffer_size].
    replace (Z.to_nat u) with (Z.to_nat rl + Z.to_nat (u - rl))%nat by lia.
    rewrite seq_app, map_app. f_equal.
    rewrite map_seq_from. apply map_ext. intros i.
    destruct Hok as (Hs & Hl & Hh & Ht & Hf).
    f_equal. rewrite size_t_id.
    2:{ unfold SIZE_MAX, PTRDIFF_MAX in *. simpl in *. lia. }
    rewrite Zplus_mod_idemp_l. f_equal. lia.
Qed.

(** * The byte stream through the calls *)

Lemma ring_ok_lock (p : k_pipe) : ring_ok p -> ring_ok (k_spin_lock p).
Proof. apply ring_ok_same, same_ring_lock. Qed.

Lemma write_stream (curr : tid) (p : k_pipe) (src : list byte)
      (timeout : k_timeout_t) (o : outcome Z) :
  ring_ok p -> buffer_size p <= PTRDIFF_MAX ->
  z_impl_k_pipe_write curr p src timeout = Ok o ->
  match o with
  | Returned rc p' => contents p' = contents p ++ accepted (WriteRet rc src)
  | Suspended p' => contents p' = contents p
  end.
Proof.
  intros Hok Hmax. unfold z_impl_k_pipe_write, queue_full.
  destruct (utilization (k_spin_lock p)) as [u|f]; [|discriminate].
  rewrite !bind_Ok. destruct (u =? buffer_size (k_spin_lock p)).
  - pose proof (wait_for_enter_same curr SPACE (k_spin_lock p) timeout) as H.
    destruct (wait_for_enter curr SPACE (k_spin_lock p) timeout) as [rc p'|p'];
      intros [= <-].
    + destruct H as (-> & Hs & _). cbn [accepted].
      change (0 <? - EAGAIN) with false. rewrite app_nil_r.
      apply contents_same.
      eapply same_ring_trans; [apply same_ring_lock|].
      eapply same_ring_trans; [exact Hs|apply same_ring_unlock].
    + destruct H as (Hs & _). apply contents_same.
      eapply same_ring_trans; [apply same_ring_lock|exact Hs].
  - destruct (write_transfer (k_spin_lock p) src) as [[rc p']|f] eqn:Hw;
      [|discriminate].
    rewrite bind_Ok. intros [= <-]. cbn [fst snd].
    rewrite <- (contents_same p (k_spin_lock p)) by apply same_ring_lock.
    apply contents_after_write; auto using ring_ok_lock.
Qed.

Lemma write_resume_stream (p : k_pipe) (src : list byte) (rc : Z) (p' : k_pipe) :
  ring_ok p -> buffer_size p <= PTRDIFF_MAX ->
  z_impl_k_pipe_write_resume p src = Ok (rc, p') ->
  contents p' = contents p ++ accepted (WriteRet rc src).
Proof.
  intros Hok Hmax.
  set (p1 := set_waiting (k_spin_lock p) (size_t (waiting p - 1))).
  assert (Hs1 : same_ring p p1).
  { eapply same_ring_trans; [apply same_ring_lock|apply same_ring_waiting]. }
  pose proof (ring_ok_same _ _ Hs1 Hok) as Hok1.
  destruct (cond_defined _ Hok1) as ((c & Hc) & _).
  destruct (wait_for_resume_same queue_full p c Hc)
    as (rc1 & p1' & Hw & Hs & _ & _ & Hzero & Hrc).
  unfold z_impl_k_pipe_write_resume. rewrite Hw, bind_Ok.
  destruct (Z.eqb_spec rc1 0) as [E|E]; cbn [negb].
  - destruct (Hzero E) as (_ & _ & ->). fold p1. intros Hwt.
    rewrite <- (contents_same p p1 Hs1).
    apply contents_after_write; auto.
  - intros [= <- <-]. cbn [accepted].
    replace (0 <? rc1) with false by (symmetry; apply Z.ltb_ge; errno).
    rewrite app_nil_r. apply contents_same.
    eapply same_ring_trans; [exact Hs|apply same_ring_unlock].
Qed.

Lemma read_stream (curr : tid) (p : k_pipe) (len : Z) (timeout : k_timeout_t)
      (o : outcome (Z * list byte)) :
  ring_ok p -> buffer_size p <= PTRDIFF_MAX ->
  z_impl_k_pipe_read curr p len timeout = Ok o ->
  match o with
  | Returned (rc, out) p' => contents p = out ++ contents p'
  | Suspended p' => contents p' = contents p
  end.
Proof.
  intros Hok Hmax. unfold z_impl_k_pipe_read.
  destruct (utilization (k_spin_lock p)) as [u|f]; [|discriminate].
  rewrite !bind_Ok.
  destruct ((u =? 0) && flag (k_spin_lock p) PIPE_FLAG_OPEN).
  - pose proof (wait_for_enter_same curr DATA (k_spin_lock p) timeout) as H.
    destruct (wait_for_enter curr DATA (k_spin_lock p) timeout) as [rc p'|p'];
      intros [= <-].
    + destruct H as (-> & Hs & _). cbn [app]. symmetry.
      apply contents_same.
      eapply same_ring_trans; [apply same_ring_lock|].
      eapply same_ring_trans; [exact Hs|apply same_ring_unlock].
    + destruct H as (Hs & _). apply contents_same.
      eapply same_ring_trans; [apply same_ring_lock|exact Hs].
  - destruct (read_transfer (k_spin_lock p) (size_t len))
      as [[[rc out] p']|f] eqn:Hr; [|discriminate].
    rewrite bind_Ok. intros [= <-]. cbn [fst snd].
    rewrite <- (contents_same p (k_spin_lock p)) by apply same_ring_lock.
    eapply contents_after_read; eauto using ring_ok_lock.
    apply size_t_range.
Qed.

Lemma read_resume_stream (p : k_pipe) (len rc : Z) (out : list byte)
      (p' : k_pipe) :
  ring_ok p -> buffer_size p <= PTRDIFF_MAX ->
  z_impl_k_pipe_read_resume p len = Ok (rc, out, p') ->
  contents p = out ++ contents p'.
Proof.
  intros Hok Hmax.
  set (p1 := set_waiting (k_spin_lock p) (size_t (waiting p - 1))).
  assert (Hs1 : same_ring p p1).
  { eapply same_ring_trans; [apply same_ring_lock|apply same_ring_waiting]. }
  pose proof (ring_ok_same _ _ Hs1 Hok) as Hok1.
  destruct (cond_defined _ Hok1) as (_ & (c & Hc)).
  destruct (wait_for_resume_same queue_empty p c Hc)
    as (rc1 & p1' & Hw & Hs & _ & _ & _ & _).
  unfold z_impl_k_pipe_read_resume. rewrite Hw, bind_Ok.
  destruct (negb (rc1 =? 0) && negb (rc1 =? - EPIPE)).
  - intros [= <- <- <-]. cbn [app]. symmetry. apply contents_same.
    eapply same_ring_trans; [exact Hs|apply same_ring_unlock].
  - intros Hr. rewrite <- (contents_same p p1' Hs).
    eapply contents_after_read; eauto.
    + eapply ring_ok_same; eauto.
    + destruct Hs as (_ & -> & _). exact Hmax.
    + apply size_t_range.
Qed.

(** * The byte stream through a run *)

Lemma step_stream (size : Z) (k : kernel) (e : event) (k' : kernel)
      (r : response) :
  kernel_inv size k -> size <= PTRDIFF_MAX -> transfer_event e = true ->
  step k e = Ok (Some (k', r)) ->
  contents (pipe k) ++ accepted r = delivered r ++ contents (pipe k').
Proof.
  intros ((Hok & _) & _ & Hsize) Hmax He. rewrite <- Hsize in Hmax.
  destruct e as [t src timeout|t len timeout| | |t|t]; try discriminate;
    cbn [step].
  - destruct (find_frame t (frames k)); [discriminate|].
    destruct (z_impl_k_pipe_write t (pipe k) src timeout) as [o|f] eqn:Hw;
      [|discriminate].
    rewrite bind_Ok. pose proof (write_stream _ _ _ _ _ Hok Hmax Hw) as H.
    destruct o as [rc p'|p']; intros [= <- <-]; cbn [pipe delivered app].
    + now symmetry.
    + cbn [accepted]. rewrite app_nil_r. now symmetry.
  - destruct (find_frame t (frames k)); [discriminate|].
    destruct (z_impl_k_pipe_read t (pipe k) len timeout) as [o|f] eqn:Hr;
      [|discriminate].
    rewrite bind_Ok. pose proof (read_stream _ _ _ _ _ Hok Hmax Hr) as H.
    destruct o as [[rc out] p'|p']; intros [= <- <-];
      cbn [pipe delivered accepted app]; rewrite app_nil_r.
    + exact H.
    + now symmetry.
  - destruct (find_frame t (frames k)) as [[c timeout]|]; [|discriminate].
    match goal with |- context [if ?b then _ else _] => destruct b end;
      [|discriminate].
    intros [= <- <-]. cbn [pipe delivered accepted app]. rewrite app_nil_r.
    symmetry. apply contents_same.
    eapply same_ring_trans; [apply same_ring_data|apply same_ring_space].
  - destruct (find_frame t (frames k)) as [[c timeout]|]; [|discriminate].
    match goal with |- context [if ?b then _ else _] => destruct b end;
      [discriminate|].
    destruct c as [src|len].
    + destruct (z_impl_k_pipe_write_resume (pipe k) src) as [[rc p']|f] eqn:Hw;
        [|discriminate].
      rewrite bind_Ok. intros [= <- <-]. cbn [pipe delivered app fst snd].
      symmetry. now apply write_resume_stream.
    + destruct (z_impl_k_pipe_read_resume (pipe k) len)
        as [[[rc out] p']|f] eqn:Hr; [|discriminate].
      rewrite bind_Ok. intros [= <- <-].
      cbn [pipe delivered accepted app fst snd]. rewrite app_nil_r.
      eapply read_resume_stream; eauto.
Qed.

Lemma run_stream (size : Z) (es : list event) :
  forall k k' rs,
    kernel_inv size k -> size <= PTRDIFF_MAX ->
    forallb transfer_event es = true ->
    run k es = Ok (Some (k', rs)) ->
    contents (pipe k) ++ written rs = received rs ++ contents (pipe k').
Proof.
  induction es as [|e es IH]; intros k k' rs Hk Hmax Hes; cbn [run].
  - intros [= <- <-]. cbn. now rewrite app_nil_r.
  - cbn [forallb] in Hes. apply andb_true_iff in Hes. destruct Hes as (He & Hes).
    destruct (step_inv size k e Hk) as (s & Hstep & Hs). rewrite Hstep, bind_Ok.
    destruct s as [[k1 r]|]; [|discriminate].
    pose proof (Hs _ _ eq_refl) as Hk1.
    destruct (run k1 es) as [[[k2 rs']|]|f] eqn:Hrun; try discriminate.
    rewrite bind_Ok. intros [= <- <-].
    pose proof (step_stream size k e k1 r Hk Hmax He Hstep) as H1.
    pose proof (IH k1 k2 rs' Hk1 Hmax Hes Hrun) as H2.
    unfold written, received in *. cbn [flat_map].
    rewrite app_assoc, H1, <- !app_assoc. f_equal. exact H2.
Qed.

(** * One write, one read *)

Lemma length_contents (p : k_pipe) :
  Z.of_nat (length (contents p)) = Z.max 0 (occupancy p).
Proof. unfold contents. rewrite length_map, length_seq. lia. Qed.

Lemma write_then_read (w r : tid) (p : k_pipe) (src : list byte)
      (t1 t2 : k_timeout_t) :
  ring_ok p -> buffer_size p <= PTRDIFF_MAX ->
  flag p PIPE_FLAG_OPEN = true -> queue_empty p = Ok true ->
  0 < Z.of_nat (length src) <= buffer_size p ->
  exists p1 p2,
    z_impl_k_pipe_write w p src t1
    = Ok (Returned (Z.of_nat (length src)) p1) /\
    z_impl_k_pipe_read r p1 (Z.of_nat (length src)) t2
    = Ok (Returned (Z.of_nat (length src), src) p2).
Proof.
  intros Hok Hmax Hopen Hempty Hlen.
  pose proof (utilization_occupancy p Hok Hmax) as Hu.
  assert (Hocc : occupancy p = 0).
  { unfold queue_empty in Hempty. rewrite Hu, bind_Ok in Hempty.
    injection Hempty as H. now apply Z.eqb_eq. }
  set (pl := k_spin_lock p).
  assert (Hsl : same_ring p pl) by apply same_ring_lock.
  pose proof (ring_ok_same _ _ Hsl Hok) as Hokl.
  assert (Hul : utilization pl = Ok 0).
  { rewrite (utilization_same _ _ Hsl), Hu, Hocc. reflexivity. }
  assert (Hopenl : flag pl PIPE_FLAG_OPEN = true) by exact Hopen.
  destruct (write_transfer_open pl src 0 Hokl Hopenl Hul)
    as (b & _ & _ & Hw); [pose proof (proj1 Hokl); fields; lia|].
  change (buffer_size pl) with (buffer_size p) in Hw.
  replace (Z.min (buffer_size p - 0) (Z.of_nat (length src)))
    with (Z.of_nat (length src)) in Hw by lia.
  rewrite int_of_size_id in Hw
    by (unfold INT_MAX, PTRDIFF_MAX in *; lia).
  match type of Hw with _ = Ok (_, ?q) => set (p1 := q) in * end.
  assert (Hc1 : contents p1 = src).
  { rewrite (contents_after_write pl src _ p1 Hokl Hmax Hw).
    rewrite (contents_same _ _ Hsl). unfold contents at 1. rewrite Hocc.
    cbn [Z.to_nat seq map app accepted].
    destruct (Z.ltb_spec 0 (Z.of_nat (length src))); [|lia].
    rewrite Nat2Z.id. apply firstn_all. }
  assert (Hinv1 : pipe_inv p1).
  { destruct (write_transfer_inv pl src) as (rc & q & Hq & Hi & _).
    - split; [exact Hokl|]. rewrite Hopenl. discriminate.
    - rewrite Hw in Hq. now injection Hq as _ <-. }
  exists p1.
  assert (Hwrite : z_impl_k_pipe_write w p src t1
                   = Ok (Returned (Z.of_nat (length src)) p1)).
  { unfold z_impl_k_pipe_write, queue_full. fold pl. rewrite Hul, !bind_Ok.
    destruct (Z.eqb_spec 0 (buffer_size pl));
      [pose proof (proj1 Hokl); lia|].
    rewrite Hw. reflexivity. }
  set (p1l := k_spin_lock p1).
  assert (Hs1 : same_ring p1 p1l) by apply same_ring_lock.
  pose proof (ring_ok_same _ _ Hs1 (proj1 Hinv1)) as Hok1.
  assert (Hsz1 : buffer_size p1l = buffer_size p) by reflexivity.
  assert (Hmax1 : buffer_size p1l <= PTRDIFF_MAX) by (rewrite Hsz1; exact Hmax).
  assert (Hocc1 : occupancy p1l = Z.of_nat (length src)).
  { pose proof (length_contents p1l) as H.
    rewrite (contents_same _ _ Hs1), Hc1 in H.
    pose proof (occupancy_range _ Hok1). lia. }
  pose proof (utilization_occupancy p1l Hok1 Hmax1) as Hu1.
  rewrite Hocc1 in Hu1.
  destruct (read_transfer_inv p1l (Z.of_nat (length src)))
    as (rc & out & p2 & Hr & _); [now apply pipe_inv_lock|lia|].
  destruct (contents_after_read p1l (Z.of_nat (length src)) rc out p2
              Hok1 Hmax1 ltac:(lia) Hr)
    as (Hc & Hrc).
  destruct Hrc as (Hrc & Hout); [left; lia|].
  rewrite Hocc1, Z.min_id in Hrc. subst rc.
  rewrite (contents_same _ _ Hs1), Hc1 in Hc.
  assert (out = src).
  { assert (Hl : length out = length src) by lia.
    rewrite Hc, length_app in Hl.
    destruct (contents p2); [now rewrite app_nil_r in Hc|simpl in Hl; lia]. }
  subst out. exists p2. split; [exact Hwrite|].
  unfold z_impl_k_pipe_read. fold p1l. rewrite Hu1, !bind_Ok.
  destruct (Z.eqb_spec (Z.of_nat (length src)) 0); [lia|]. cbn [andb].
  rewrite size_t_id
    by (pose proof (proj1 Hok); unfold SIZE_MAX, PTRDIFF_MAX in *; lia).
  rewrite Hr. reflexivity.
Qed.

(** * The closed pipe *)

Lemma closed_write (curr : tid) (p : k_pipe) (src : list byte)
      (timeout : k_timeout_t) :
  pipe_inv p -> flag p PIPE_FLAG_OPEN = false ->
  z_impl_k_pipe_write curr p src timeout
  = Ok (Returned (- EPIPE) (k_spin_unlock p)).
Proof.
  intros (Hok & Hcl) Hopen. destruct (Hcl Hopen) as (_ & _ & Hnf).
  destruct (utilization_defined p Hok) as (u & Hu & Hur & Hfull).
  unfold z_impl_k_pipe_write, queue_full.
  rewrite (utilization_same p) by apply same_ring_lock.
  rewrite Hu, !bind_Ok.
  change (buffer_size (k_spin_lock p)) with (buffer_size p).
  destruct (Z.eqb_spec u (buffer_size p)) as [E|E].
  - apply Hfull in E. congruence.
  - rewrite write_transfer_closed by exact Hopen. reflexivity.
Qed.

Lemma closed_empty_read (curr : tid) (p : k_pipe) (len : Z)
      (timeout : k_timeout_t) :
  flag p PIPE_FLAG_OPEN = false -> queue_empty p = Ok true ->
  z_impl_k_pipe_read curr p len timeout
  = Ok (Returned (- EPIPE, []) (k_spin_unlock p)).
Proof.
  intros Hopen Hempty. unfold queue_empty in Hempty.
  destruct (utilization p) as [u|f] eqn:Hu; [|discriminate].
  rewrite bind_Ok in Hempty. injection Hempty as Hz. apply Z.eqb_eq in Hz.
  subst u. unfold z_impl_k_pipe_read.
  rewrite (utilization_same p) by apply same_ring_lock.
  rewrite Hu, !bind_Ok.
  change (flag (k_spin_lock p) PIPE_FLAG_OPEN) with (flag p PIPE_FLAG_OPEN).
  rewrite Hopen. cbn [Z.eqb andb].
  rewrite read_transfer_eof; [reflexivity| |exact Hopen].
  rewrite (utilization_same p) by apply same_ring_lock. exact Hu.
Qed.

(** A buffer that is not full is drained after [close]: the read returns
    the bytes that were buffered and leaves the ring empty. *)
Lemma close_then_drain (r : tid) (p : k_pipe) (len : Z) (timeout : k_timeout_t) :
  ring_ok p -> buffer_size p <= PTRDIFF_MAX ->
  flag p PIPE_FLAG_OPEN = true -> flag p PIPE_FLAG_FULL = false ->
  0 < occupancy p <= len -> len <= SIZE_MAX ->
  exists p',
    z_impl_k_pipe_read r (snd (z_impl_k_pipe_close p)) len timeout
    = Ok (Returned (occupancy p, contents p) p') /\
    contents p' = [] /\ flag p' PIPE_FLAG_OPEN = false.
Proof.
  intros Hok Hmax Hopen Hnf Hocc Hlen.
  assert (Hc : snd (z_impl_k_pipe_close p)
               = k_spin_unlock (z_unpend_all SPACE (z_unpend_all DATA
                                  (set_flags (k_spin_lock p) 0)))).
  { unfold z_impl_k_pipe_close.
    change (flag (k_spin_lock p) PIPE_FLAG_OPEN) with (flag p PIPE_FLAG_OPEN).
    rewrite Hopen. reflexivity. }
  rewrite Hc. clear Hc.
  set (pc := k_spin_lock (k_spin_unlock (z_unpend_all SPACE (z_unpend_all DATA
                            (set_flags (k_spin_lock p) 0))))).
  assert (Hokc : ring_ok pc).
  { destruct Hok as (Hs & Hl & Hh & Ht & Hf). unfold ring_ok, pc. fields.
    repeat split; try lia; auto. discriminate. }
  assert (Hoccc : occupancy pc = occupancy p).
  { unfold occupancy, pc. fields. rewrite Hnf. reflexivity. }
  assert (Hcc : contents pc = contents p).
  { unfold contents. rewrite Hoccc. reflexivity. }
  assert (Hmaxc : buffer_size pc <= PTRDIFF_MAX) by exact Hmax.
  pose proof (utilization_occupancy pc Hokc Hmaxc) as Hu. rewrite Hoccc in Hu.
  assert (Hinvc : pipe_inv pc).
  { split; [exact Hokc|]. intros _. unfold pc. fields. auto. }
  destruct (read_transfer_inv pc len Hinvc ltac:(lia))
    as (rc & out & p' & Hr & Hinv' & _ & Hsz & _).
  destruct (contents_after_read pc len rc out p' Hokc Hmaxc ltac:(lia) Hr)
    as (Hcont & Hrc).
  destruct Hrc as (Hrc & Hout); [left; lia|].
  rewrite Hoccc in Hrc. replace (Z.min len (occupancy p)) with (occupancy p)
    in Hrc by lia. subst rc.
  pose proof (length_contents p) as Hlc. rewrite <- Hcc, Hcont in Hlc.
  rewrite length_app in Hlc.
  assert (Hnil : contents p' = []).
  { destruct (contents p'); [reflexivity|simpl in Hlc; lia]. }
  rewrite Hnil, app_nil_r, Hcc in Hcont. subst out.
  exists p'. split; [|split; [exact Hnil|]].
  - unfold z_impl_k_pipe_read. fold pc. rewrite Hu, !bind_Ok.
    destruct (Z.eqb_spec (occupancy p) 0); [lia|]. cbn [andb].
    rewrite size_t_id by lia. rewrite Hr. reflexivity.
  - assert (Hgo : occupancy p <> 0 \/ flag pc PIPE_FLAG_OPEN = true)
      by (left; lia).
    rewrite (read_transfer_take pc len _ Hokc Hu (occupancy_range p Hok)
               Hgo ltac:(lia)) in Hr.
    injection Hr as _ _ <-. unfold pc. fields.
    destruct (Z.min len (occupancy p) =? 0); autorewrite with pipe_flags;
      reflexivity.
Qed.

(** * Reset *)

(** [reset] empties the ring unless the full flag is up, and then leaves
    it full. *)
Lemma reset_occupancy (p : k_pipe) :
  0 < buffer_size p ->
  occupancy (snd (z_impl_k_pipe_reset p))
  = if flag p PIPE_FLAG_FULL then buffer_size p else 0.
Proof.
  intros Hs. unfold z_impl_k_pipe_reset, occupancy. fields.
  autorewrite with pipe_flags.
  destruct (testflag (flags p) PIPE_FLAG_FULL); [reflexivity|].
  apply Z.mod_0_l. lia.
Qed.

(** After [reset] a read that finds the ring empty never waits, whatever
    its timeout: the reset flag is up. *)
Lemma reset_then_read (r : tid) (p : k_pipe) (len : Z) (timeout : k_timeout_t) :
  0 < buffer_size p -> buffer_size p <= SIZE_MAX ->
  flag p PIPE_FLAG_OPEN = true -> flag p PIPE_FLAG_FULL = false ->
  z_impl_k_pipe_read r (snd (z_impl_k_pipe_reset p)) len timeout
  = Ok (Returned (- EAGAIN, []) (snd (z_impl_k_pipe_reset p))).
Proof.
  intros Hs Hmax Hopen Hnf.
  unfold z_impl_k_pipe_reset, z_impl_k_pipe_read, utilization, wait_for_enter.
  fields. autorewrite with pipe_flags. rewrite Hnf, Hopen.
  change (size_t (0 - 0)) with 0. rewrite Z.add_0_l, size_t_id by lia.
  unfold umod. destruct (Z.eqb_spec (buffer_size p) 0); [lia|].
  rewrite bind_Ok, Z_mod_same_full. cbn [Z.eqb andb].
  rewrite orb_true_r. reflexivity.
Qed.

(** A full buffer is lost by [close]: the read that follows finds the
    ring empty and the pipe closed. *)
Lemma close_full_then_read (r : tid) (p : k_pipe) (len : Z)
      (timeout : k_timeout_t) :
  ring_ok p -> flag p PIPE_FLAG_OPEN = true -> flag p PIPE_FLAG_FULL = true ->
  z_impl_k_pipe_read r (snd (z_impl_k_pipe_close p)) len timeout
  = Ok (Returned (- EPIPE, []) (snd (z_impl_k_pipe_close p))).
Proof.
  intros (Hs & Hl & Hh & Ht & Hf) Hopen Hfull. specialize (Hf Hfull).
  assert (Hc : snd (z_impl_k_pipe_close p)
               = k_spin_unlock (z_unpend_all SPACE (z_unpend_all DATA
                                  (set_flags (k_spin_lock p) 0)))).
  { unfold z_impl_k_pipe_close.
    change (flag (k_spin_lock p) PIPE_FLAG_OPEN) with (flag p PIPE_FLAG_OPEN).
    rewrite Hopen. reflexivity. }
  rewrite Hc. rewrite closed_empty_read; [reflexivity|reflexivity|].
  unfold queue_empty, utilization. fields. autorewrite with pipe_flags.
  rewrite Hf, Z.sub_diag. change (size_t 0) with 0.
  rewrite Z.add_0_l, size_t_id by lia.
  unfold umod. destruct (Z.eqb_spec (buffer_size p) 0); [lia|].
  rewrite bind_Ok, Z_mod_same_full. reflexivity.
Qed.

(** * The test of the buffer at the start of a call *)

Lemma write_full_gate (curr : tid) (p : k_pipe) (src : list byte)
      (timeout : k_timeout_t) :
  lock p = false -> queue_full p = Ok true ->
  z_impl_k_pipe_write curr p src timeout
  = if K_TIMEOUT_EQ timeout K_NO_WAIT || flag p PIPE_FLAG_RESET
    then Ok (Returned (- EAGAIN) p)
    else Ok (Suspended
               (set_space (set_waiting p (size_t (waiting p + 1)))
                          (space p ++ [curr]))).
Proof.
  intros Hlock Hfull. unfold z_impl_k_pipe_write.
  assert (Hq : queue_full (k_spin_lock p) = Ok true).
  { unfold queue_full in *.
    rewrite (utilization_same p) by apply same_ring_lock. exact Hfull. }
  rewrite Hq, bind_Ok. unfold wait_for_enter.
  change (flag (k_spin_lock p) PIPE_FLAG_RESET) with (flag p PIPE_FLAG_RESET).
  destruct (K_TIMEOUT_EQ timeout K_NO_WAIT || flag p PIPE_FLAG_RESET).
  - do 2 f_equal. destruct p. cbn in *. subst. reflexivity.
  - do 2 f_equal. destruct p. cbn in *. subst. reflexivity.
Qed.

Lemma read_empty_gate (curr : tid) (p : k_pipe) (len : Z)
      (timeout : k_timeout_t) :
  lock p = false -> queue_empty p = Ok true ->
  flag p PIPE_FLAG_OPEN = true ->
  z_impl_k_pipe_read curr p len timeout
  = if K_TIMEOUT_EQ timeout K_NO_WAIT || flag p PIPE_FLAG_RESET
    then Ok (Returned (- EAGAIN, []) p)
    else Ok (Suspended
               (set_data (set_waiting p (size_t (waiting p + 1)))
                         (data p ++ [curr]))).
Proof.
  intros Hlock Hempty Hopen. unfold z_impl_k_pipe_read.
  unfold queue_empty in Hempty.
  rewrite (utilization_same p) by apply same_ring_lock.
  destruct (utilization p) as [u|f]; [|discriminate].
  rewrite bind_Ok in *. injection Hempty as ->.
  change (flag (k_spin_lock p) PIPE_FLAG_OPEN) with (flag p PIPE_FLAG_OPEN).
  rewrite Hopen. cbn [andb]. unfold wait_for_enter.
  change (flag (k_spin_lock p) PIPE_FLAG_RESET) with (flag p PIPE_FLAG_RESET).
  destruct (K_TIMEOUT_EQ timeout K_NO_WAIT || flag p PIPE_FLAG_RESET).
  - do 2 f_equal. destruct p. cbn in *. subst. reflexivity.
  - do 2 f_equal. destruct p. cbn in *. subst. reflexivity.
Qed.

(** * The claims *)

(** C1 (defect): [reset] raises the reset flag whether or not a thread is
    waiting, and only a departing waiter ever lowers it.  On a fresh pipe
    of four bytes with nothing queued, [reset] returns with
    [waiting = 0] and the reset flag up; the blocking [read] that follows
    is turned away with [-EAGAIN] instead of being suspended, and the flag
    is still up afterwards. *)
Theorem reset_without_waiters_keeps_flag :
  (forall p : k_pipe,
      flag (snd (z_impl_k_pipe_reset p)) PIPE_FLAG_RESET = true /\
      waiting (snd (z_impl_k_pipe_reset p)) = waiting p) /\
  exists k : kernel,
    run (boot (zeros 4) 4) [Reset; Read 1%nat 1 K_FOREVER]
    = Ok (Some (k, [ResetRet 0; ReadRet (- EAGAIN) []])) /\
    waiting (pipe k) = 0 /\ frames k = [] /\
    data (pipe k) = [] /\ space (pipe k) = [] /\
    flag (pipe k) PIPE_FLAG_OPEN = true /\
    flag (pipe k) PIPE_FLAG_RESET = true.
Proof.
  split.
  - intros p. unfold z_impl_k_pipe_reset. fields.
    autorewrite with pipe_flags. auto.
  - eexists. split; [vm_compute; reflexivity|]. vm_compute. auto 10.
Qed.

(** C2 (defect): [reset] rewinds both indices but leaves the full flag as
    it is.  After four bytes have filled a pipe of four bytes, [reset]
    returns with [utilization] still four: a write without waiting is
    refused with [-EAGAIN], and a read delivers the four bytes that were
    to be discarded. *)
Theorem reset_keeps_full_flag :
  exists k k' : kernel,
    run (boot (zeros 4) 4)
        [Write 0%nat [x41; x42; x43; x44] K_NO_WAIT; Reset]
    = Ok (Some (k, [WriteRet 4 [x41; x42; x43; x44]; ResetRet 0])) /\
    utilization (pipe k) = Ok 4 /\
    queue_full (pipe k) = Ok true /\
    run k [Write 0%nat [x45] K_NO_WAIT; Read 1%nat 4 K_NO_WAIT]
    = Ok (Some (k', [WriteRet (- EAGAIN) [x45];
                     ReadRet 4 [x41; x42; x43; x44]])).
Proof.
  eexists. eexists. split; [vm_compute; reflexivity|].
  split; [vm_compute; reflexivity|].
  split; vm_compute; reflexivity.
Qed.

(** C3 (defect): on a pipe of capacity zero the occupancy is computed by
    a remainder modulo zero, so [utilization], and with it every [write]
    and every [read], is undefined. *)
Theorem capacity_zero_divides_by_zero (storage : list byte) (curr : tid)
        (src : list byte) (len : Z) (timeout : k_timeout_t) :
  utilization (z_impl_k_pipe_init storage 0) = Undefined DivideByZero /\
  queue_full (z_impl_k_pipe_init storage 0) = Undefined DivideByZero /\
  queue_empty (z_impl_k_pipe_init storage 0) = Undefined DivideByZero /\
  z_impl_k_pipe_write curr (z_impl_k_pipe_init storage 0) src timeout
  = Undefined DivideByZero /\
  z_impl_k_pipe_read curr (z_impl_k_pipe_init storage 0) len timeout
  = Undefined DivideByZero.
Proof. repeat split. Qed.

(** C6 (defect): [close] stores zero in the flag word and so lowers the
    full flag too.  A pipe of three bytes holding three bytes is empty
    after [close]: the read that should drain them returns [-EPIPE]. *)
Theorem close_drops_a_full_buffer :
  exists k : kernel,
    run (boot (zeros 3) 3)
        [Write 0%nat [x41; x42; x43] K_NO_WAIT; Close; Read 1%nat 10 K_NO_WAIT]
    = Ok (Some (k, [WriteRet 3 [x41; x42; x43]; CloseRet 0;
                    ReadRet (- EPIPE) []])) /\
    buffer (pipe k) = [x41; x42; x43].
Proof. eexists. split; vm_compute; reflexivity. Qed.

(** C7: the wait helper.  Entered with a no-wait timeout or with the
    reset flag up, it releases the lock and returns [-EAGAIN] at once;
    otherwise it counts the thread in [waiting] and suspends it at the end
    of the queue, releasing the lock.  Run again in a state [p'], it takes
    the lock, counts the thread out, and answers in this order: [-EPIPE]
    if the pipe is not open; else [-ECANCELED] if the reset flag is up,
    lowering that flag exactly when no waiter is left; else [0] if the
    condition waited on no longer holds; else [-EAGAIN]. *)
Theorem wait_for_contract (curr : tid) (q : waitq_id) (p p' : k_pipe)
        (timeout : k_timeout_t) (cond : wait_cond_t) :
  (K_TIMEOUT_EQ timeout K_NO_WAIT = true \/ flag p PIPE_FLAG_RESET = true ->
   wait_for_enter curr q p timeout = NoWait (- EAGAIN) (k_spin_unlock p) /\
   lock (k_spin_unlock p) = false) /\
  (K_TIMEOUT_EQ timeout K_NO_WAIT = false ->
   flag p PIPE_FLAG_RESET = false ->
   exists p1,
     wait_for_enter curr q p timeout = Pended p1 /\
     waiting p1 = size_t (waiting p + 1) /\
     waitq p1 q = waitq p q ++ [curr] /\
     lock p1 = false /\ same_ring p p1) /\
  let woken := set_waiting (k_spin_lock p') (size_t (waiting p' - 1)) in
  (flag p' PIPE_FLAG_OPEN = false ->
   wait_for_resume cond p' = Ok (- EPIPE, woken)) /\
  (flag p' PIPE_FLAG_OPEN = true -> flag p' PIPE_FLAG_RESET = true ->
   exists p2,
     wait_for_resume cond p' = Ok (- ECANCELED, p2) /\
     lock p2 = true /\ waiting p2 = waiting woken /\
     same_ring p' p2 /\
     flag p2 PIPE_FLAG_RESET = negb (waiting woken =? 0)) /\
  (flag p' PIPE_FLAG_OPEN = true -> flag p' PIPE_FLAG_RESET = false ->
   cond woken = Ok false ->
   wait_for_resume cond p' = Ok (0, woken)) /\
  (flag p' PIPE_FLAG_OPEN = true -> flag p' PIPE_FLAG_RESET = false ->
   cond woken = Ok true ->
   wait_for_resume cond p' = Ok (- EAGAIN, woken)) /\
  lock woken = true.
Proof.
  split; [|split].
  - intros H. unfold wait_for_enter.
    replace (K_TIMEOUT_EQ timeout K_NO_WAIT || flag p PIPE_FLAG_RESET)
      with true; [auto|].
    symmetry. apply orb_true_iff. exact H.
  - intros H1 H2. unfold wait_for_enter. rewrite H1, H2. cbn [orb].
    eexists. split; [reflexivity|].
    destruct q; unfold same_ring; fields; auto 10.
  - intros woken. unfold wait_for_resume.
    change (set_waiting (k_spin_lock p')
              (size_t (waiting (k_spin_lock p') - 1))) with woken.
    change (flag woken PIPE_FLAG_OPEN) with (flag p' PIPE_FLAG_OPEN).
    change (flag woken PIPE_FLAG_RESET) with (flag p' PIPE_FLAG_RESET).
    split; [|split; [|split; [|split]]].
    + intros ->. reflexivity.
    + intros Ho Hr. rewrite Ho, Hr. cbn [negb]. eexists.
      split; [reflexivity|].
      destruct (waiting woken =? 0) eqn:E.
      * unfold same_ring, woken. fields. autorewrite with pipe_flags.
        auto 10.
      * unfold same_ring, woken in *. fields. auto 10.
    + intros -> -> ->. reflexivity.
    + intros -> -> ->. reflexivity.
    + reflexivity.
Qed.

(** The helper on a pipe of four bytes: turned away without waiting,
    suspended, and run again on a closed pipe, on a pipe under reset as
    the last waiter, on a pipe that got a byte, and on a pipe still
    empty. *)
Lemma wait_for_contract_witness :
  let fresh := z_impl_k_pipe_init (zeros 4) 4 in
  let woken f t := mk_pipe (zeros 4) 4 0 t 1 f false [] [] in
  wait_for_enter 1%nat DATA fresh K_NO_WAIT
  = NoWait (- EAGAIN) (k_spin_unlock fresh) /\
  (exists p1,
      wait_for_enter 1%nat DATA fresh K_FOREVER = Pended p1 /\
      waiting p1 = 1 /\ data p1 = [1%nat] /\ lock p1 = false) /\
  (exists p2, wait_for_resume queue_empty (woken 0 0) = Ok (- EPIPE, p2)) /\
  (exists p2,
      wait_for_resume queue_empty (woken 3 0) = Ok (- ECANCELED, p2) /\
      flag p2 PIPE_FLAG_RESET = false) /\
  (exists p2, wait_for_resume queue_empty (woken 1 1) = Ok (0, p2)) /\
  (exists p2, wait_for_resume queue_empty (woken 1 0) = Ok (- EAGAIN, p2)).
Proof.
  intros fresh woken.
  pose proof (wait_for_contract 1%nat DATA fresh (woken 0 0) K_NO_WAIT
                queue_empty) as (H1 & _ & H3 & _).
  pose proof (wait_for_contract 1%nat DATA fresh (woken 3 0) K_FOREVER
                queue_empty) as (_ & H2 & _ & H4 & _).
  pose proof (wait_for_contract 1%nat DATA fresh (woken 1 1) K_FOREVER
                queue_empty) as (_ & _ & _ & _ & H5 & _).
  pose proof (wait_for_contract 1%nat DATA fresh (woken 1 0) K_FOREVER
                queue_empty) as (_ & _ & _ & _ & _ & H6 & _).
  split; [apply H1; left; reflexivity|].
  split.
  { destruct (H2 eq_refl eq_refl) as (p1 & E & Hw & Hq & Hl & _).
    exists p1. repeat split; assumption. }
  split; [eexists; apply (H3 eq_refl)|].
  split.
  { destruct (H4 eq_refl eq_refl) as (p2 & E & _ & _ & _ & Hr).
    exists p2. split; assumption. }
  split; [eexists; apply (H5 eq_refl eq_refl eq_refl)|].
  eexists; apply (H6 eq_refl eq_refl eq_refl).
Defined.

(** C9: [close] on an open pipe returns [0] and leaves the flag word at
    zero, so neither the open nor the reset flag is up, with both wait
    queues emptied; a second [close] returns [-EALREADY] and leaves the
    pipe as the first one left it. *)
Theorem close_is_one_shot (p : k_pipe) :
  flag p PIPE_FLAG_OPEN = true ->
  let first := z_impl_k_pipe_close p in
  let second := z_impl_k_pipe_close (snd first) in
  fst first = 0 /\
  flags (snd first) = 0 /\
  flag (snd first) PIPE_FLAG_OPEN = false /\
  flag (snd first) PIPE_FLAG_RESET = false /\
  data (snd first) = [] /\ space (snd first) = [] /\
  lock (snd first) = false /\
  fst second = - EALREADY /\
  snd second = snd first.
Proof.
  intros Hopen first second.
  assert (H1 : first = (0, set_lock (set_space (set_data (set_flags p 0) []) []) false)).
  { unfold first, z_impl_k_pipe_close.
    change (flag (k_spin_lock p) PIPE_FLAG_OPEN) with (flag p PIPE_FLAG_OPEN).
    rewrite Hopen. reflexivity. }
  unfold second. rewrite H1. cbn [fst snd]. repeat split.
Qed.

(** The pipe of four bytes after [close]. *)
Lemma close_is_one_shot_witness :
  fst (z_impl_k_pipe_close (z_impl_k_pipe_init (zeros 4) 4)) = 0 /\
  fst (z_impl_k_pipe_close
         (snd (z_impl_k_pipe_close (z_impl_k_pipe_init (zeros 4) 4))))
  = - EALREADY.
Proof.
  pose proof (close_is_one_shot (z_impl_k_pipe_init (zeros 4) 4) eq_refl) as H.
  cbv zeta in H. split; [apply H|]. apply H.
Defined.

(** C10: in a pipe initialised on storage of [size > 0] bytes, after
    [init] and after every run of writes, reads, resets, closes, timeouts
    and resumptions, no step is undefined, so every copy stays inside the
    storage and inside the caller's bytes, and in the state reached both
    indices lie in [0, size) and the full flag is up only where they are
    equal. *)
Theorem ring_indices_in_bounds (storage : list byte) (size : Z)
        (es : list event) :
  0 < size <= SIZE_MAX -> Z.of_nat (length storage) = size ->
  exists s,
    run (boot storage size) es = Ok s /\
    forall k rs, s = Some (k, rs) ->
      buffer_size (pipe k) = size /\
      Z.of_nat (length (buffer (pipe k))) = size /\
      0 <= head (pipe k) < size /\
      0 <= tail (pipe k) < size /\
      (flag (pipe k) PIPE_FLAG_FULL = true -> head (pipe k) = tail (pipe k)).
Proof.
  intros Hs Hl.
  destruct (run_inv size es _ (boot_inv storage size Hs Hl)) as (s & Hrun & H).
  exists s. split; [exact Hrun|]. intros k rs ->.
  destruct (H k rs eq_refl) as (((H1 & H2 & H3 & H4 & H5) & _) & _ & H6).
  rewrite H6 in *. auto.
Qed.

(** A pipe of four bytes through a write that wraps, a reset and a read. *)
Lemma ring_indices_in_bounds_witness :
  exists s,
    run (boot (zeros 4) 4)
        [Write 0%nat [x41; x42; x43] K_NO_WAIT; Read 1%nat 2 K_NO_WAIT;
         Write 0%nat [x44; x45; x46] K_NO_WAIT; Reset; Read 1%nat 4 K_FOREVER]
    = Ok s /\
    forall k rs, s = Some (k, rs) ->
      buffer_size (pipe k) = 4 /\
      Z.of_nat (length (buffer (pipe k))) = 4 /\
      0 <= head (pipe k) < 4 /\
      0 <= tail (pipe k) < 4 /\
      (flag (pipe k) PIPE_FLAG_FULL = true -> head (pipe k) = tail (pipe k)).
Proof.
  apply (ring_indices_in_bounds (zeros 4) 4).
  - vm_compute. split; [reflexivity|discriminate].
  - reflexivity.
Defined.

(** C4 as stated fails: a call of length zero goes through the wait
    helper like every other.  On a full pipe a [write] of no bytes returns
    [-EAGAIN] without waiting and is suspended with [K_FOREVER]; on an
    empty open pipe so does a [read] of no bytes. *)
Lemma zero_length_is_not_exempt :
  exists k k' : kernel,
    run (boot (zeros 2) 2)
        [Write 0%nat [x41; x42] K_NO_WAIT; Write 0%nat [] K_NO_WAIT;
         Write 1%nat [] K_FOREVER]
    = Ok (Some (k, [WriteRet 2 [x41; x42]; WriteRet (- EAGAIN) []; Suspend])) /\
    space (pipe k) = [1%nat] /\
    run (boot (zeros 2) 2) [Read 0%nat 0 K_NO_WAIT; Read 1%nat 0 K_FOREVER]
    = Ok (Some (k', [ReadRet (- EAGAIN) []; Suspend])) /\
    data (pipe k') = [1%nat].
Proof.
  eexists. eexists. split; [vm_compute; reflexivity|].
  split; [reflexivity|]. split; vm_compute; reflexivity.
Qed.

(** C4 (amended): on a well-formed pipe whose lock is free, for every
    timeout: a [write] of no bytes returns [0] without suspending when the
    pipe is open and its buffer is not full, and a [read] of no bytes
    returns [0] without suspending when the buffer is not empty; either
    call leaves the pipe as it was.  On a full buffer the [write] of no
    bytes, and on the empty buffer of an open pipe the [read] of no
    bytes, goes through [wait_for] like every other call: it returns
    [-EAGAIN] with the pipe as it was when the timeout is no-wait or the
    reset flag is up, and is otherwise suspended on the space queue
    (write) or on the data queue (read) and counted in [waiting].  On a
    closed pipe the [write] of no bytes into a buffer that is not full,
    and the [read] of no bytes from an empty buffer, return [-EPIPE]. *)
Theorem zero_length_transfer (curr : tid) (p : k_pipe) (timeout : k_timeout_t) :
  ring_ok p -> lock p = false ->
  (flag p PIPE_FLAG_OPEN = true -> queue_full p = Ok false ->
   z_impl_k_pipe_write curr p [] timeout = Ok (Returned 0 p)) /\
  (queue_empty p = Ok false ->
   z_impl_k_pipe_read curr p 0 timeout = Ok (Returned (0, []) p)) /\
  (queue_full p = Ok true ->
   z_impl_k_pipe_write curr p [] timeout
   = if K_TIMEOUT_EQ timeout K_NO_WAIT || flag p PIPE_FLAG_RESET
     then Ok (Returned (- EAGAIN) p)
     else Ok (Suspended
                (set_space (set_waiting p (size_t (waiting p + 1)))
                           (space p ++ [curr])))) /\
  (flag p PIPE_FLAG_OPEN = true -> queue_empty p = Ok true ->
   z_impl_k_pipe_read curr p 0 timeout
   = if K_TIMEOUT_EQ timeout K_NO_WAIT || flag p PIPE_FLAG_RESET
     then Ok (Returned (- EAGAIN, []) p)
     else Ok (Suspended
                (set_data (set_waiting p (size_t (waiting p + 1)))
                          (data p ++ [curr])))) /\
  (flag p PIPE_FLAG_OPEN = false -> queue_full p = Ok false ->
   z_impl_k_pipe_write curr p [] timeout = Ok (Returned (- EPIPE) p)) /\
  (flag p PIPE_FLAG_OPEN = false -> queue_empty p = Ok true ->
   z_impl_k_pipe_read curr p 0 timeout = Ok (Returned (- EPIPE, []) p)).
Proof.
  intros Hok Hlock.
  destruct (utilization_defined p Hok) as (u & Hu & Hur & _).
  assert (Hul : utilization (k_spin_lock p) = Ok u).
  { rewrite (utilization_same p) by apply same_ring_lock. exact Hu. }
  pose proof (ring_ok_lock p Hok) as Hokl.
  pose proof Hok as (Hs & Hl & Hh & Ht & Hf).
  assert (Hunlock : k_spin_unlock p = p).
  { destruct p; cbn in *; subst; reflexivity. }
  split; [|split; [|split; [|split; [|split]]]].
  - intros Hopen Hfull. unfold queue_full in Hfull.
    rewrite Hu, bind_Ok in Hfull. injection Hfull as Hfull.
    unfold z_impl_k_pipe_write, queue_full. rewrite Hul, !bind_Ok.
    change (buffer_size (k_spin_lock p)) with (buffer_size p). rewrite Hfull.
    destruct (write_transfer_open (k_spin_lock p) [] u Hokl Hopen Hul Hur)
      as (b & Hlen & Hpt & ->).
    rewrite bind_Ok. cbn [fst snd]. fields.
    apply Z.eqb_neq in Hfull.
    replace (Z.min (buffer_size p - u) (Z.of_nat (@length byte []))) with 0
      in * by (cbn [length]; lia).
    cbn [Z.eqb negb andb]. rewrite Z.add_0_r, size_t_id, Z.mod_small by lia.
    assert (b = buffer p) as ->.
    { apply zth_ext; [exact Hlen|]. intros i Hi. rewrite Hpt by lia.
      pose proof (Z.mod_pos_bound (i - tail p) (buffer_size p) ltac:(lia)).
      destruct (Z.ltb_spec ((i - tail p) mod buffer_size p) 0);
        [lia|reflexivity]. }
    destruct p; cbn in *; subst; reflexivity.
  - intros Hempty. unfold queue_empty in Hempty.
    rewrite Hu, bind_Ok in Hempty. injection Hempty as Hempty.
    unfold z_impl_k_pipe_read. rewrite Hul, !bind_Ok, Hempty. cbn [andb].
    change (size_t 0) with 0.
    apply Z.eqb_neq in Hempty.
    rewrite (read_transfer_take (k_spin_lock p) 0 u Hokl Hul Hur
               (or_introl Hempty) (Z.le_refl 0)).
    rewrite bind_Ok. cbn [fst snd]. fields.
    replace (Z.min 0 u) with 0 by lia.
    cbn [Z.eqb Z.to_nat seq map]. rewrite Z.add_0_r, size_t_id, Z.mod_small by lia.
    destruct p; cbn in *; subst; reflexivity.
  - intros Hfull. exact (write_full_gate curr p [] timeout Hlock Hfull).
  - intros Hopen Hempty.
    exact (read_empty_gate curr p 0 timeout Hlock Hempty Hopen).
  - intros Hclosed Hfull. unfold queue_full in Hfull.
    rewrite Hu, bind_Ok in Hfull. injection Hfull as Hfull.
    unfold z_impl_k_pipe_write, queue_full. rewrite Hul, !bind_Ok.
    change (buffer_size (k_spin_lock p)) with (buffer_size p). rewrite Hfull.
    rewrite write_transfer_closed by exact Hclosed.
    rewrite bind_Ok. cbn [fst snd].
    change (k_spin_unlock (k_spin_lock p)) with (k_spin_unlock p).
    now rewrite Hunlock.
  - intros Hclosed Hempty.
    rewrite (closed_empty_read curr p 0 timeout Hclosed Hempty).
    now rewrite Hunlock.
Qed.

(** A pipe of four bytes holding one byte, neither full nor empty; a full
    pipe of two bytes, also under reset; a fresh pipe of two bytes, also
    under reset; and the pipe holding one byte, closed and then drained. *)
Lemma zero_length_transfer_witness :
  let some := mk_pipe [x41; x00; x00; x00] 4 0 1 0 PIPE_FLAG_OPEN false [] [] in
  let full := mk_pipe [x41; x42] 2 0 0 0
                      (Z.lor PIPE_FLAG_OPEN PIPE_FLAG_FULL) false [] [] in
  let full_reset := snd (z_impl_k_pipe_reset full) in
  let fresh := z_impl_k_pipe_init (zeros 2) 2 in
  let fresh_reset := snd (z_impl_k_pipe_reset fresh) in
  let closed := mk_pipe [x41; x00; x00; x00] 4 0 1 0 0 false [] [] in
  let drained := mk_pipe [x41; x00; x00; x00] 4 1 1 0 0 false [] [] in
  (z_impl_k_pipe_write 0%nat some [] K_FOREVER = Ok (Returned 0 some) /\
   z_impl_k_pipe_read 0%nat some 0 K_FOREVER = Ok (Returned (0, []) some)) /\
  (z_impl_k_pipe_write 0%nat full [] K_NO_WAIT = Ok (Returned (- EAGAIN) full) /\
   z_impl_k_pipe_write 0%nat full [] K_FOREVER
   = Ok (Suspended (mk_pipe [x41; x42] 2 0 0 1
                            (Z.lor PIPE_FLAG_OPEN PIPE_FLAG_FULL) false []
                            [0%nat])) /\
   z_impl_k_pipe_write 0%nat full_reset [] K_FOREVER
   = Ok (Returned (- EAGAIN) full_reset)) /\
  (z_impl_k_pipe_read 0%nat fresh 0 K_NO_WAIT
   = Ok (Returned (- EAGAIN, []) fresh) /\
   z_impl_k_pipe_read 0%nat fresh 0 K_FOREVER
   = Ok (Suspended (mk_pipe (zeros 2) 2 0 0 1 PIPE_FLAG_OPEN false
                            [0%nat] [])) /\
   z_impl_k_pipe_read 0%nat fresh_reset 0 K_FOREVER
   = Ok (Returned (- EAGAIN, []) fresh_reset)) /\
  (z_impl_k_pipe_write 0%nat closed [] K_FOREVER
   = Ok (Returned (- EPIPE) closed) /\
   z_impl_k_pipe_read 0%nat drained 0 K_FOREVER
   = Ok (Returned (- EPIPE, []) drained)).
Proof.
  intros some full full_reset fresh fresh_reset closed drained.
  assert (Hsome : ring_ok some)
    by (unfold ring_ok; vm_compute; intuition discriminate).
  assert (Hfull : ring_ok full)
    by (unfold ring_ok; vm_compute; intuition discriminate).
  assert (Hfull_reset : ring_ok full_reset)
    by (unfold ring_ok; vm_compute; intuition discriminate).
  assert (Hfresh : ring_ok fresh)
    by (unfold ring_ok; vm_compute; intuition discriminate).
  assert (Hfresh_reset : ring_ok fresh_reset)
    by (unfold ring_ok; vm_compute; intuition discriminate).
  assert (Hclosed : ring_ok closed)
    by (unfold ring_ok; vm_compute; intuition discriminate).
  assert (Hdrained : ring_ok drained)
    by (unfold ring_ok; vm_compute; intuition discriminate).
  split; [|split; [|split]].
  - destruct (zero_length_transfer 0%nat some K_FOREVER Hsome eq_refl)
      as (Hw & Hr & _).
    split; [apply Hw; reflexivity|apply Hr; reflexivity].
  - destruct (zero_length_transfer 0%nat full K_NO_WAIT Hfull eq_refl)
      as (_ & _ & H1 & _).
    destruct (zero_length_transfer 0%nat full K_FOREVER Hfull eq_refl)
      as (_ & _ & H2 & _).
    destruct (zero_length_transfer 0%nat full_reset K_FOREVER Hfull_reset
                eq_refl) as (_ & _ & H3 & _).
    split; [exact (H1 eq_refl)|]. split; [exact (H2 eq_refl)|exact (H3 eq_refl)].
  - destruct (zero_length_transfer 0%nat fresh K_NO_WAIT Hfresh eq_refl)
      as (_ & _ & _ & H1 & _).
    destruct (zero_length_transfer 0%nat fresh K_FOREVER Hfresh eq_refl)
      as (_ & _ & _ & H2 & _).
    destruct (zero_length_transfer 0%nat fresh_reset K_FOREVER Hfresh_reset
                eq_refl) as (_ & _ & _ & H3 & _).
    split; [exact (H1 eq_refl eq_refl)|].
    split; [exact (H2 eq_refl eq_refl)|exact (H3 eq_refl eq_refl)].
  - destruct (zero_length_transfer 0%nat closed K_FOREVER Hclosed eq_refl)
      as (_ & _ & _ & _ & H1 & _).
    destruct (zero_length_transfer 0%nat drained K_FOREVER Hdrained eq_refl)
      as (_ & _ & _ & _ & _ & H2).
    split; [exact (H1 eq_refl eq_refl)|exact (H2 eq_refl eq_refl)].
Defined.

(** C5 as stated fails for the empty byte sequence: the write of no
    bytes into an empty open pipe returns [0], and the read of no bytes
    that follows finds the pipe empty and returns [-EAGAIN]. *)
Lemma empty_sequence_does_not_round_trip :
  run (boot (zeros 4) 4) [Write 0%nat [] K_NO_WAIT; Read 1%nat 0 K_NO_WAIT]
  = Ok (Some (boot (zeros 4) 4, [WriteRet 0 []; ReadRet (- EAGAIN) []])).
Proof. vm_compute. reflexivity. Qed.

(** C5 (amended): a sequence of [N] bytes, [0 < N <= capacity], written
    by one [write] into an empty open pipe is accepted whole, and a read
    of [N] bytes that follows returns [N] and exactly those bytes in
    order, wherever [head] and [tail] stand in the storage, so also when
    the transfer wraps around its end.  Over every run of writes and
    reads, with their suspensions, timeouts and resumptions, no step is
    undefined and the bytes accepted from writers are the bytes delivered
    to readers followed by the bytes still in the ring: what was read is a
    prefix of what was written. *)
Theorem fifo_round_trip :
  (forall (w r : tid) (p : k_pipe) (src : list byte) (t1 t2 : k_timeout_t),
      ring_ok p -> buffer_size p <= PTRDIFF_MAX ->
      flag p PIPE_FLAG_OPEN = true -> queue_empty p = Ok true ->
      0 < Z.of_nat (length src) <= buffer_size p ->
      exists p1 p2,
        z_impl_k_pipe_write w p src t1
        = Ok (Returned (Z.of_nat (length src)) p1) /\
        z_impl_k_pipe_read r p1 (Z.of_nat (length src)) t2
        = Ok (Returned (Z.of_nat (length src), src) p2)) /\
  (forall (storage : list byte) (size : Z) (es : list event),
      0 < size <= PTRDIFF_MAX -> Z.of_nat (length storage) = size ->
      forallb transfer_event es = true ->
      exists s,
        run (boot storage size) es = Ok s /\
        forall k rs, s = Some (k, rs) ->
          written rs = received rs ++ contents (pipe k)).
Proof.
  split.
  - intros. now apply write_then_read.
  - intros storage size es Hs Hl Hes.
    assert (Hs' : 0 < size <= SIZE_MAX).
    { unfold SIZE_MAX, PTRDIFF_MAX in *. simpl in *. lia. }
    pose proof (boot_inv storage size Hs' Hl) as Hk.
    destruct (run_inv size es _ Hk) as (s & Hrun & _).
    exists s. split; [exact Hrun|]. intros k rs ->.
    apply (run_stream size es _ _ _ Hk (proj2 Hs) Hes Hrun).
Qed.

(** Three bytes through a pipe of four whose indices stand at three, so
    that the write wraps; and a run in which a suspended reader is served
    by a later write. *)
Lemma fifo_round_trip_witness :
  (let p := mk_pipe (zeros 4) 4 3 3 0 PIPE_FLAG_OPEN false [] [] in
   exists p1 p2,
     z_impl_k_pipe_write 0%nat p [x41; x42; x43] K_NO_WAIT
     = Ok (Returned 3 p1) /\
     z_impl_k_pipe_read 1%nat p1 3 K_NO_WAIT
     = Ok (Returned (3, [x41; x42; x43]) p2)) /\
  exists s,
    run (boot (zeros 4) 4)
        [Read 1%nat 2 K_FOREVER; Write 0%nat [x41; x42; x43] K_NO_WAIT;
         Resume 1%nat; Write 0%nat [x44; x45; x46; x47] K_NO_WAIT;
         Read 1%nat 4 K_NO_WAIT]
    = Ok s /\
    forall k rs, s = Some (k, rs) ->
      written rs = received rs ++ contents (pipe k).
Proof.
  split.
  - intros p.
    apply (proj1 fifo_round_trip 0%nat 1%nat p [x41; x42; x43]
                 K_NO_WAIT K_NO_WAIT).
    + unfold ring_ok. vm_compute. intuition discriminate.
    + vm_compute. discriminate.
    + reflexivity.
    + reflexivity.
    + vm_compute. split; [reflexivity|discriminate].
  - apply (proj2 fifo_round_trip (zeros 4) 4).
    + vm_compute. split; [reflexivity|discriminate].
    + reflexivity.
    + reflexivity.
Defined.

(** C8 (defect): [reset] raises the reset flag whether or not a thread
    is waiting and without looking at the open flag, and only a departing
    waiter ever lowers it.  A closed pipe has no waiter: after [init],
    [close] and [reset] the state between two calls has the open flag
    down and the reset flag up, with [waiting = 0], no call in flight and
    both queues empty; a second [close] returns [-EALREADY] and leaves
    the reset flag up. *)
Theorem reset_on_closed_pipe_raises_flag :
  (forall p : k_pipe,
      flag (snd (z_impl_k_pipe_reset p)) PIPE_FLAG_RESET = true /\
      flag (snd (z_impl_k_pipe_reset p)) PIPE_FLAG_OPEN
      = flag p PIPE_FLAG_OPEN) /\
  exists k k' : kernel,
    run (boot (zeros 4) 4) [Close; Reset]
    = Ok (Some (k, [CloseRet 0; ResetRet 0])) /\
    flag (pipe k) PIPE_FLAG_OPEN = false /\
    flag (pipe k) PIPE_FLAG_RESET = true /\
    waiting (pipe k) = 0 /\ frames k = [] /\
    data (pipe k) = [] /\ space (pipe k) = [] /\ lock (pipe k) = false /\
    run k [Close] = Ok (Some (k', [CloseRet (- EALREADY)])) /\
    flag (pipe k') PIPE_FLAG_OPEN = false /\
    flag (pipe k') PIPE_FLAG_RESET = true.
Proof.
  split.
  - intros p. unfold z_impl_k_pipe_reset. fields.
    autorewrite with pipe_flags. auto.
  - eexists. eexists. split; [vm_compute; reflexivity|].
    vm_compute. auto 12.
Qed.

(** * Further properties of the calls *)

Lemma accepted_count (n : Z) (src : list byte) :
  0 <= n -> accepted (WriteRet n src) = firstn (Z.to_nat n) src.
Proof.
  intros Hn. cbn [accepted]. destruct (Z.ltb_spec 0 n); [reflexivity|].
  replace n with 0 by lia. reflexivity.
Qed.

Lemma queue_full_false (p : k_pipe) :
  ring_ok p -> buffer_size p <= PTRDIFF_MAX -> queue_full p = Ok false ->
  0 <= occupancy p < buffer_size p.
Proof.
  intros Hok Hmax Hq. pose proof (occupancy_range p Hok).
  unfold queue_full in Hq. rewrite (utilization_occupancy p Hok Hmax) in Hq.
  rewrite bind_Ok in Hq. injection Hq as Hq. apply Z.eqb_neq in Hq. lia.
Qed.

Lemma queue_empty_false (p : k_pipe) :
  ring_ok p -> buffer_size p <= PTRDIFF_MAX -> queue_empty p = Ok false ->
  0 < occupancy p <= buffer_size p.
Proof.
  intros Hok Hmax Hq. pose proof (occupancy_range p Hok).
  unfold queue_empty in Hq. rewrite (utilization_occupancy p Hok Hmax) in Hq.
  rewrite bind_Ok in Hq. injection Hq as Hq. apply Z.eqb_neq in Hq. lia.
Qed.

(** The transfer of a write into an open pipe. *)
Lemma write_transfer_fits (p : k_pipe) (src : list byte) :
  ring_ok p -> buffer_size p <= PTRDIFF_MAX ->
  flag p PIPE_FLAG_OPEN = true ->
  let n := Z.min (Z.of_nat (length src)) (buffer_size p - occupancy p) in
  exists p',
    write_transfer p src = Ok (n, p') /\
    ring_ok p' /\ buffer_size p' = buffer_size p /\
    contents p' = contents p ++ firstn (Z.to_nat n) src /\
    occupancy p' = occupancy p + n /\
    head p' = head p /\ waiting p' = waiting p /\ lock p' = false /\
    flag p' PIPE_FLAG_OPEN = true /\
    flag p' PIPE_FLAG_RESET = flag p PIPE_FLAG_RESET /\
    data p' = (if n =? 0 then data p else tl (data p)) /\
    space p' = space p.
Proof.
  intros Hok Hmax Hopen n.
  pose proof (occupancy_range p Hok) as Hocc.
  pose proof (utilization_occupancy p Hok Hmax) as Hu.
  destruct (write_transfer_open p src _ Hok Hopen Hu Hocc)
    as (b & Hb & _ & Hw).
  replace (Z.min (buffer_size p - occupancy p) (Z.of_nat (length src)))
    with n in Hw by (unfold n; lia).
  assert (Hn : 0 <= n <= buffer_size p - occupancy p) by (unfold n; lia).
  rewrite int_of_size_id in Hw
    by (unfold INT_MAX, PTRDIFF_MAX in *; lia).
  match type of Hw with _ = Ok (_, ?q) => set (p' := q) in * end.
  assert (Hinv' : pipe_inv p').
  { destruct (write_transfer_inv p src) as (rc & q & Hq & Hi & _).
    - split; [exact Hok|]. intros Hc. congruence.
    - rewrite Hw in Hq. now injection Hq as _ <-. }
  exists p'. split; [exact Hw|].
  split; [exact (proj1 Hinv')|]. split; [reflexivity|]. split.
  { rewrite (contents_after_write p src n p' Hok Hmax Hw).
    rewrite accepted_count by lia. reflexivity. }
  split; [apply (occupancy_after_write p n b Hok Hmax Hn)|].
  unfold p'. cbn [head waiting lock data space]. fields.
  repeat split.
  - match goal with |- testflag (if ?c then _ else _) _ = _ => destruct c end;
      autorewrite with pipe_flags; exact Hopen.
  - match goal with |- testflag (if ?c then _ else _) _ = _ => destruct c end;
      autorewrite with pipe_flags; reflexivity.
Qed.

(** A write into an open pipe that is not full. *)
Lemma write_fits (curr : tid) (p : k_pipe) (src : list byte)
      (timeout : k_timeout_t) :
  ring_ok p -> buffer_size p <= PTRDIFF_MAX ->
  flag p PIPE_FLAG_OPEN = true -> queue_full p = Ok false ->
  let n := Z.min (Z.of_nat (length src)) (buffer_size p - occupancy p) in
  exists p',
    z_impl_k_pipe_write curr p src timeout = Ok (Returned n p') /\
    ring_ok p' /\ buffer_size p' = buffer_size p /\
    contents p' = contents p ++ firstn (Z.to_nat n) src /\
    occupancy p' = occupancy p + n /\
    head p' = head p /\ waiting p' = waiting p /\ lock p' = false /\
    flag p' PIPE_FLAG_OPEN = true /\
    flag p' PIPE_FLAG_RESET = flag p PIPE_FLAG_RESET /\
    data p' = (if n =? 0 then data p else tl (data p)) /\
    space p' = space p.
Proof.
  intros Hok Hmax Hopen Hnf n.
  set (pl := k_spin_lock p).
  assert (Hsl : same_ring p pl) by apply same_ring_lock.
  pose proof (ring_ok_same _ _ Hsl Hok) as Hokl.
  assert (Hq : queue_full pl = Ok false).
  { unfold queue_full in *. rewrite (utilization_same _ _ Hsl). exact Hnf. }
  pose proof (write_transfer_fits pl src Hokl Hmax Hopen) as H.
  cbv zeta in H. rewrite (occupancy_same _ _ Hsl) in H.
  rewrite (contents_same _ _ Hsl) in H.
  change (buffer_size pl) with (buffer_size p) in H. fold n in H.
  destruct H as (p' & Hw & H).
  exists p'. split; [|exact H].
  unfold z_impl_k_pipe_write. fold pl. rewrite Hq, bind_Ok, Hw. reflexivity.
Qed.

Lemma after_read_ring_ok (p : k_pipe) (rl : Z) :
  ring_ok p -> 0 <= rl ->
  let h' := size_t (head p + rl) mod buffer_size p in
  ring_ok (mk_pipe (buffer p) (buffer_size p) h' (tail p) (waiting p)
                   (if rl =? 0 then flags p
                    else Z.land (flags p) (Z.lnot PIPE_FLAG_FULL))
                   false (data p)
                   (if rl =? 0 then space p else tl (space p))).
Proof.
  intros (Hs & Hl & Hh & Ht & Hf) Hrl h'.
  pose proof (Z.mod_pos_bound (size_t (head p + rl)) (buffer_size p)
                ltac:(lia)) as Hb.
  fold h' in Hb. unfold ring_ok. fields.
  destruct (Z.eqb_spec rl 0) as [E|E]; autorewrite with pipe_flags.
  - assert (h' = head p) as ->.
    { unfold h'. rewrite E, Z.add_0_r, size_t_id by lia.
      apply Z.mod_small. lia. }
    repeat split; try lia; auto.
  - repeat split; try lia; try discriminate; auto.
Qed.

Lemma split_at_length {A : Type} (l out rest : list A) :
  l = out ++ rest ->
  out = firstn (length out) l /\ rest = skipn (length out) l.
Proof.
  intros ->. split.
  - rewrite firstn_app, firstn_all, Nat.sub_diag, firstn_0, app_nil_r.
    reflexivity.
  - rewrite skipn_app, skipn_all, Nat.sub_diag, skipn_O. reflexivity.
Qed.

(** The transfer of a read, unless the pipe is closed and empty. *)
Lemma read_transfer_takes (p : k_pipe) (len : Z) :
  ring_ok p -> buffer_size p <= PTRDIFF_MAX -> 0 <= len ->
  occupancy p <> 0 \/ flag p PIPE_FLAG_OPEN = true ->
  let n := Z.min len (occupancy p) in
  exists p',
    read_transfer p len = Ok (n, firstn (Z.to_nat n) (contents p), p') /\
    ring_ok p' /\ buffer_size p' = buffer_size p /\
    contents p' = skipn (Z.to_nat n) (contents p) /\
    occupancy p' = occupancy p - n /\
    buffer p' = buffer p /\ tail p' = tail p /\
    waiting p' = waiting p /\ lock p' = false /\
    flag p' PIPE_FLAG_OPEN = flag p PIPE_FLAG_OPEN /\
    flag p' PIPE_FLAG_RESET = flag p PIPE_FLAG_RESET /\
    data p' = data p /\
    space p' = (if n =? 0 then space p else tl (space p)).
Proof.
  intros Hok Hmax Hlen Hgo n.
  pose proof (occupancy_range p Hok) as Hocc.
  pose proof (utilization_occupancy p Hok Hmax) as Hu.
  pose proof (read_transfer_take p len _ Hok Hu Hocc Hgo Hlen) as Hr.
  cbv zeta in Hr. fold n in Hr.
  assert (Hn : 0 <= n <= occupancy p) by (unfold n; lia).
  rewrite int_of_size_id in Hr
    by (unfold INT_MAX, PTRDIFF_MAX in *; lia).
  match type of Hr with _ = Ok (_, ?o, ?q) => set (out := o) in *;
                                              set (p' := q) in * end.
  destruct (contents_after_read p len n out p' Hok Hmax Hlen Hr)
    as (Hc & _).
  assert (Hlo : length out = Z.to_nat n).
  { unfold out. rewrite length_map, length_seq. reflexivity. }
  destruct (split_at_length _ _ _ Hc) as (Hout & Hrest).
  rewrite Hlo in Hout, Hrest.
  exists p'. split; [rewrite Hr, <- Hout; reflexivity|].
  split; [apply (after_read_ring_ok p n Hok); lia|].
  split; [reflexivity|]. split; [exact Hrest|].
  split; [apply (occupancy_after_read p n Hok Hmax Hn)|].
  unfold p'. cbn [buffer tail waiting lock data space]. fields.
  repeat split;
    destruct (n =? 0); autorewrite with pipe_flags; reflexivity.
Qed.

(** A read from a pipe that is not empty, open or closed. *)
Lemma read_takes (curr : tid) (p : k_pipe) (len : Z) (timeout : k_timeout_t) :
  ring_ok p -> buffer_size p <= PTRDIFF_MAX ->
  0 <= len <= SIZE_MAX -> queue_empty p = Ok false ->
  let n := Z.min len (occupancy p) in
  exists p',
    z_impl_k_pipe_read curr p len timeout
    = Ok (Returned (n, firstn (Z.to_nat n) (contents p)) p') /\
    ring_ok p' /\ buffer_size p' = buffer_size p /\
    contents p' = skipn (Z.to_nat n) (contents p) /\
    occupancy p' = occupancy p - n /\
    buffer p' = buffer p /\ tail p' = tail p /\
    waiting p' = waiting p /\ lock p' = false /\
    flag p' PIPE_FLAG_OPEN = flag p PIPE_FLAG_OPEN /\
    flag p' PIPE_FLAG_RESET = flag p PIPE_FLAG_RESET /\
    data p' = data p /\
    space p' = (if n =? 0 then space p else tl (space p)).
Proof.
  intros Hok Hmax Hlen Hne n.
  pose proof (queue_empty_false p Hok Hmax Hne) as Hocc.
  pose proof (utilization_occupancy p Hok Hmax) as Hu.
  set (pl := k_spin_lock p).
  assert (Hsl : same_ring p pl) by apply same_ring_lock.
  pose proof (ring_ok_same _ _ Hsl Hok) as Hokl.
  assert (Hgo : occupancy pl <> 0 \/ flag pl PIPE_FLAG_OPEN = true).
  { left. rewrite (occupancy_same _ _ Hsl). lia. }
  pose proof (read_transfer_takes pl len Hokl Hmax (proj1 Hlen) Hgo) as H.
  cbv zeta in H. rewrite (occupancy_same _ _ Hsl) in H.
  rewrite (contents_same _ _ Hsl) in H. fold n in H.
  destruct H as (p' & Hr & H).
  exists p'. split; [|exact H].
  unfold z_impl_k_pipe_read. fold pl.
  rewrite (utilization_same _ _ Hsl), Hu, !bind_Ok.
  destruct (Z.eqb_spec (occupancy p) 0); [lia|]. cbn [andb].
  rewrite size_t_id by lia. rewrite Hr. reflexivity.
Qed.

(** A write that finds the buffer full, and a read that finds an open
    pipe empty: turned away at once with a no-wait timeout or with the
    reset flag up, suspended otherwise. *)
(** * The wait queues and the counter of waiters through the calls *)

Lemma dequeued_refl (q : wait_q) : dequeued q q.
Proof. now left. Qed.

Lemma write_transfer_queues (p : k_pipe) (src : list byte) (rc : Z)
      (p' : k_pipe) :
  ring_ok p -> write_transfer p src = Ok (rc, p') ->
  waiting p' = waiting p /\ dequeued (data p) (data p') /\
  space p' = space p /\
  flag p' PIPE_FLAG_OPEN = flag p PIPE_FLAG_OPEN /\
  flag p' PIPE_FLAG_RESET = flag p PIPE_FLAG_RESET /\
  (flag p PIPE_FLAG_OPEN = false -> rc = - EPIPE /\ same_ring p p').
Proof.
  intros Hok Hw. destruct (flag p PIPE_FLAG_OPEN) eqn:Hopen.
  - destruct (utilization_defined p Hok) as (u & Hu & Hur & _).
    destruct (write_transfer_open p src u Hok Hopen Hu Hur) as (b & _ & _ & E).
    rewrite E in Hw. injection Hw as <- <-. fields.
    repeat split; try discriminate.
    + unfold dequeued. destruct (_ =? 0); auto.
    + match goal with |- testflag (if ?c then _ else _) _ = _ => destruct c end;
        autorewrite with pipe_flags; congruence.
    + match goal with |- testflag (if ?c then _ else _) _ = _ => destruct c end;
        autorewrite with pipe_flags; reflexivity.
  - rewrite (write_transfer_closed p src Hopen) in Hw.
    injection Hw as <- <-. fields.
    repeat split; auto using dequeued_refl.
Qed.

Lemma read_transfer_queues (p : k_pipe) (len rc : Z) (out : list byte)
      (p' : k_pipe) :
  ring_ok p -> 0 <= len -> read_transfer p len = Ok (rc, out, p') ->
  waiting p' = waiting p /\ data p' = data p /\
  dequeued (space p) (space p') /\
  flag p' PIPE_FLAG_OPEN = flag p PIPE_FLAG_OPEN /\
  flag p' PIPE_FLAG_RESET = flag p PIPE_FLAG_RESET.
Proof.
  intros Hok Hlen Hr.
  destruct (utilization_defined p Hok) as (u & Hu & Hur & _).
  assert (Hcases : (u = 0 /\ flag p PIPE_FLAG_OPEN = false)
                   \/ (u <> 0 \/ flag p PIPE_FLAG_OPEN = true)).
  { destruct (Z.eq_dec u 0), (flag p PIPE_FLAG_OPEN); auto. }
  destruct Hcases as [(-> & Hopen)|Hgo].
  - rewrite (read_transfer_eof p len Hu Hopen) in Hr.
    injection Hr as <- <- <-. fields. repeat split; auto using dequeued_refl.
  - rewrite (read_transfer_take p len u Hok Hu Hur Hgo Hlen) in Hr.
    injection Hr as <- <- <-. fields. repeat split.
    + unfold dequeued. destruct (_ =? 0); auto.
    + destruct (_ =? 0); autorewrite with pipe_flags; reflexivity.
    + destruct (_ =? 0); autorewrite with pipe_flags; reflexivity.
Qed.

Lemma write_queues (curr : tid) (p : k_pipe) (src : list byte)
      (timeout : k_timeout_t) (o : outcome Z) :
  ring_ok p -> z_impl_k_pipe_write curr p src timeout = Ok o ->
  match o with
  | Returned _ p' =>
      waiting p' = waiting p /\ dequeued (data p) (data p') /\
      space p' = space p
  | Suspended p' =>
      waiting p' = size_t (waiting p + 1) /\ data p' = data p /\
      space p' = space p ++ [curr]
  end.
Proof.
  intros Hok. unfold z_impl_k_pipe_write.
  destruct (queue_full (k_spin_lock p)) as [full|f]; [|discriminate].
  rewrite bind_Ok. destruct full.
  - unfold wait_for_enter.
    destruct (K_TIMEOUT_EQ timeout K_NO_WAIT || _); intros [= <-]; fields;
      auto using dequeued_refl.
  - destruct (write_transfer (k_spin_lock p) src) as [[rc p']|f] eqn:Hw;
      [|discriminate].
    rewrite bind_Ok. intros [= <-]. cbn [fst snd].
    destruct (write_transfer_queues _ _ _ _ (ring_ok_lock p Hok) Hw)
      as (H1 & H2 & H3 & _). auto.
Qed.

Lemma read_queues (curr : tid) (p : k_pipe) (len : Z) (timeout : k_timeout_t)
      (o : outcome (Z * list byte)) :
  ring_ok p -> z_impl_k_pipe_read curr p len timeout = Ok o ->
  match o with
  | Returned _ p' =>
      waiting p' = waiting p /\ data p' = data p /\
      dequeued (space p) (space p')
  | Suspended p' =>
      waiting p' = size_t (waiting p + 1) /\ data p' = data p ++ [curr] /\
      space p' = space p
  end.
Proof.
  intros Hok. unfold z_impl_k_pipe_read.
  destruct (utilization (k_spin_lock p)) as [u|f]; [|discriminate].
  rewrite bind_Ok. destruct ((u =? 0) && _).
  - unfold wait_for_enter.
    destruct (K_TIMEOUT_EQ timeout K_NO_WAIT || _); intros [= <-]; fields;
      auto using dequeued_refl.
  - destruct (read_transfer (k_spin_lock p) (size_t len))
      as [[[rc out] p']|f] eqn:Hr; [|discriminate].
    rewrite bind_Ok. intros [= <-]. cbn [fst snd].
    destruct (read_transfer_queues _ _ _ _ _ (ring_ok_lock p Hok)
                (proj1 (size_t_range len)) Hr) as (H1 & H2 & H3 & _). auto.
Qed.

Lemma ring_ok_woken (p : k_pipe) :
  ring_ok p -> ring_ok (set_waiting (k_spin_lock p) (size_t (waiting p - 1))).
Proof.
  apply ring_ok_same.
  eapply same_ring_trans; [apply same_ring_lock|apply same_ring_waiting].
Qed.

(** What [wait_for] answers once the thread runs again, in full. *)
Lemma wait_for_resume_cases (cond : wait_cond_t) (p : k_pipe) (rc : Z)
      (p' : k_pipe) :
  wait_for_resume cond p = Ok (rc, p') ->
  let woken := set_waiting (k_spin_lock p) (size_t (waiting p - 1)) in
  waiting p' = size_t (waiting p - 1) /\ data p' = data p /\
  space p' = space p /\ same_ring p p' /\ lock p' = true /\
  ((flag p PIPE_FLAG_OPEN = false /\ rc = - EPIPE /\ p' = woken) \/
   (flag p PIPE_FLAG_OPEN = true /\ flag p PIPE_FLAG_RESET = true /\
    rc = - ECANCELED /\
    flag p' PIPE_FLAG_RESET = negb (size_t (waiting p - 1) =? 0)) \/
   (flag p PIPE_FLAG_OPEN = true /\ flag p PIPE_FLAG_RESET = false /\
    p' = woken /\
    ((rc = 0 /\ cond woken = Ok false) \/
     (rc = - EAGAIN /\ cond woken = Ok true)))).
Proof.
  intros H woken. unfold wait_for_resume in H.
  change (set_waiting (k_spin_lock p) (size_t (waiting (k_spin_lock p) - 1)))
    with woken in H.
  change (flag woken PIPE_FLAG_OPEN) with (flag p PIPE_FLAG_OPEN) in H.
  change (flag woken PIPE_FLAG_RESET) with (flag p PIPE_FLAG_RESET) in H.
  assert (Hsw : same_ring p woken).
  { eapply same_ring_trans; [apply same_ring_lock|apply same_ring_waiting]. }
  destruct (flag p PIPE_FLAG_OPEN) eqn:Hopen; cbn [negb] in H.
  - destruct (flag p PIPE_FLAG_RESET) eqn:Hreset.
    + injection H as <- <-.
      change (waiting woken) with (size_t (waiting p - 1)).
      destruct (size_t (waiting p - 1) =? 0) eqn:E;
        refine (conj _ (conj _ (conj _ (conj _ (conj _ _)))));
        try reflexivity.
      * apply (same_ring_trans p woken); [exact Hsw|].
        apply (same_ring_clear_reset woken).
      * right. left. repeat split. fields.
        autorewrite with pipe_flags. reflexivity.
      * exact Hsw.
      * right. left. repeat split. exact Hreset.
    + destruct (cond woken) as [c|f] eqn:Hc; [|discriminate].
      rewrite bind_Ok in H. destruct c; cbn [negb] in H; injection H as <- <-;
        refine (conj _ (conj _ (conj _ (conj _ (conj _ _)))));
        try reflexivity; try exact Hsw; right; right; auto 10.
  - injection H as <- <-.
    refine (conj _ (conj _ (conj _ (conj _ (conj _ _)))));
      try reflexivity; try exact Hsw.
    left. auto.
Qed.

Lemma write_resume_queues (p : k_pipe) (src : list byte) (rc : Z)
      (p' : k_pipe) :
  ring_ok p -> z_impl_k_pipe_write_resume p src = Ok (rc, p') ->
  waiting p' = size_t (waiting p - 1) /\ dequeued (data p) (data p') /\
  space p' = space p.
Proof.
  intros Hok. unfold z_impl_k_pipe_write_resume.
  destruct (wait_for_resume queue_full p) as [[rc1 p1]|f] eqn:Hw;
    [|discriminate].
  rewrite bind_Ok.
  destruct (wait_for_resume_cases _ _ _ _ Hw) as (H1 & H2 & H3 & Hs & _).
  destruct (negb (rc1 =? 0)).
  - intros [= <- <-]. fields. rewrite H1, H2, H3. auto using dequeued_refl.
  - intros Hwt.
    destruct (write_transfer_queues _ _ _ _ (ring_ok_same _ _ Hs Hok) Hwt)
      as (G1 & G2 & G3 & _).
    rewrite G1, G3, H1, H3. rewrite H2 in G2. auto.
Qed.

Lemma read_resume_queues (p : k_pipe) (len rc : Z) (out : list byte)
      (p' : k_pipe) :
  ring_ok p -> z_impl_k_pipe_read_resume p len = Ok (rc, out, p') ->
  waiting p' = size_t (waiting p - 1) /\ data p' = data p /\
  dequeued (space p) (space p').
Proof.
  intros Hok. unfold z_impl_k_pipe_read_resume.
  destruct (wait_for_resume queue_empty p) as [[rc1 p1]|f] eqn:Hw;
    [|discriminate].
  rewrite bind_Ok.
  destruct (wait_for_resume_cases _ _ _ _ Hw) as (H1 & H2 & H3 & Hs & _).
  destruct (negb (rc1 =? 0) && negb (rc1 =? - EPIPE)).
  - intros [= <- <- <-]. fields. rewrite H1, H2, H3. auto using dequeued_refl.
  - intros Hrt.
    destruct (read_transfer_queues _ _ _ _ _ (ring_ok_same _ _ Hs Hok)
                (proj1 (size_t_range len)) Hrt) as (G1 & G2 & G3 & _).
    rewrite G1, G2, H1, H2. rewrite H3 in G3. auto.
Qed.

(** * Frames and queues *)

Lemma find_frame_tids (t : tid) (fs : list frame) :
  find_frame t fs = None <-> ~ In t (tids fs).
Proof.
  induction fs as [|[[t' c] to] fs IH]; cbn [find_frame tids map In fst].
  - tauto.
  - destruct (Nat.eqb_spec t t') as [->|Hne].
    + split; [discriminate|]. intros H. exfalso. apply H. now left.
    + rewrite IH. unfold tids. split.
      * intros H [E|E]; [congruence|contradiction].
      * intros H E. apply H. now right.
Qed.

Lemma find_frame_in (t : tid) (fs : list frame) (c : call) (to : k_timeout_t) :
  find_frame t fs = Some (c, to) -> In t (tids fs).
Proof.
  intros H. destruct (in_dec Nat.eq_dec t (tids fs)) as [Hin|Hnin];
    [exact Hin|].
  apply find_frame_tids in Hnin. congruence.
Qed.

Lemma tids_app (fs gs : list frame) : tids (fs ++ gs) = tids fs ++ tids gs.
Proof. unfold tids. apply map_app. Qed.

Lemma tids_drop_frame (t : tid) (fs : list frame) :
  tids (drop_frame t fs) = unqueue t (tids fs).
Proof.
  unfold tids, drop_frame, unqueue.
  induction fs as [|[[t' c] to] fs IH]; [reflexivity|].
  cbn [filter map fst].
  destruct (Nat.eqb t t'); cbn [negb map fst]; [|f_equal]; exact IH.
Qed.

Lemma unqueue_In (t x : tid) (q : wait_q) :
  In x (unqueue t q) <-> In x q /\ x <> t.
Proof.
  unfold unqueue. rewrite filter_In.
  destruct (Nat.eqb_spec t x); cbn [negb]; intuition congruence.
Qed.

Lemma unqueue_NoDup (t : tid) (q : wait_q) : NoDup q -> NoDup (unqueue t q).
Proof. apply NoDup_filter. Qed.

Lemma unqueue_absent (t : tid) (q : wait_q) : ~ In t q -> unqueue t q = q.
Proof.
  unfold unqueue. induction q as [|x q IH]; [reflexivity|].
  intros H. cbn [filter]. destruct (Nat.eqb_spec t x) as [->|Hne].
  - exfalso. apply H. now left.
  - cbn [negb]. rewrite IH; [reflexivity|]. intros Hin. apply H. now right.
Qed.

Lemma unqueue_length (t : tid) (q : wait_q) :
  NoDup q -> In t q -> S (length (unqueue t q)) = length q.
Proof.
  unfold unqueue. induction q as [|x q IH]; [contradiction|].
  intros Hnd Hin. apply NoDup_cons_iff in Hnd. destruct Hnd as (Hx & Hnd).
  cbn [filter length]. destruct (Nat.eqb_spec t x) as [->|Hne]; cbn [negb].
  - f_equal. fold (unqueue x q). now rewrite unqueue_absent.
  - cbn [length]. f_equal. apply IH; [exact Hnd|].
    destruct Hin as [E|Hin]; [congruence|exact Hin].
Qed.

Lemma drop_frame_length (t : tid) (fs : list frame) :
  NoDup (tids fs) -> In t (tids fs) ->
  S (length (drop_frame t fs)) = length fs.
Proof.
  intros Hnd Hin. pose proof (unqueue_length t (tids fs) Hnd Hin) as H.
  rewrite <- tids_drop_frame in H. unfold tids in H.
  now rewrite !length_map in H.
Qed.

Lemma queued_In (t : tid) (q : wait_q) : queued t q = true <-> In t q.
Proof.
  unfold queued. rewrite existsb_exists. split.
  - intros (x & Hin & E). apply Nat.eqb_eq in E. now subst.
  - intros Hin. exists t. split; [exact Hin|apply Nat.eqb_refl].
Qed.

Lemma not_queued (t : tid) (d s : wait_q) :
  queued t d || queued t s = false -> ~ In t (d ++ s).
Proof.
  intros H Hin. apply orb_false_iff in H. destruct H as (Hd & Hs).
  apply in_app_or in Hin. destruct Hin as [Hin|Hin];
    apply queued_In in Hin; congruence.
Qed.

Lemma dequeued_In (q q' : wait_q) (x : tid) :
  dequeued q q' -> In x q' -> In x q.
Proof.
  intros [->| ->] Hin; [exact Hin|]. destruct q; [exact Hin|now right].
Qed.

Lemma queues_shrink (d s d' s' : wait_q) :
  NoDup (d ++ s) -> dequeued d d' -> dequeued s s' ->
  NoDup (d' ++ s') /\ forall x, In x (d' ++ s') -> In x (d ++ s).
Proof.
  intros Hnd Hd Hs. split.
  - apply NoDup_app_remove_l in Hnd as Hs0.
    assert (Hs' : NoDup s').
    { destruct Hs as [->| ->]; [exact Hs0|].
      destruct s; [exact Hs0|]. now apply NoDup_cons_iff in Hs0. }
    assert (Hd0 : NoDup d) by (eapply NoDup_app_remove_r; exact Hnd).
    assert (Hd' : NoDup d').
    { destruct Hd as [->| ->]; [exact Hd0|].
      destruct d; [exact Hd0|]. now apply NoDup_cons_iff in Hd0. }
    assert (Hdis : forall x, In x d' -> ~ In x s').
    { intros x Hx Hx'. apply (dequeued_In _ _ _ Hd) in Hx.
      apply (dequeued_In _ _ _ Hs) in Hx'.
      clear - Hnd Hx Hx'. induction d as [|a d IH]; [contradiction|].
      cbn [app] in Hnd. apply NoDup_cons_iff in Hnd. destruct Hnd as (Ha & Hnd).
      destruct Hx as [->|Hx].
      - apply Ha. apply in_or_app. now right.
      - now apply IH. }
    clear - Hs' Hd' Hdis. induction d' as [|a d' IH]; [exact Hs'|].
    cbn [app]. apply NoDup_cons_iff in Hd'. destruct Hd' as (Ha & Hd').
    apply NoDup_cons.
    + intros Hin. apply in_app_or in Hin. destruct Hin as [Hin|Hin].
      * contradiction.
      * apply (Hdis a); [now left|exact Hin].
    + apply IH; [exact Hd'|]. intros x Hx. apply Hdis. now right.
  - intros x Hin. apply in_app_or in Hin. apply in_or_app.
    destruct Hin as [Hin|Hin]; [left|right]; eauto using dequeued_In.
Qed.

Lemma NoDup_insert (x y : wait_q) (t : tid) :
  NoDup (x ++ y) -> ~ In t (x ++ y) -> NoDup (x ++ t :: y).
Proof.
  induction x as [|a x IH]; cbn [app]; intros Hn Hni.
  - now constructor.
  - apply NoDup_cons_iff in Hn. destruct Hn as (Ha & Hn).
    constructor.
    + intros Hin. apply in_app_or in Hin.
      destruct Hin as [Hin|[->|Hin]].
      * apply Ha. apply in_or_app. now left.
      * apply Hni. now left.
      * apply Ha. apply in_or_app. now right.
    + apply IH; [exact Hn|]. intros Hin. apply Hni. now right.
Qed.

Lemma size_t_sub_l (a b : Z) : size_t (size_t a - b) = size_t (a - b).
Proof. unfold size_t. apply Zminus_mod_idemp_l. Qed.

(** * Every step keeps the books of the calls in flight *)

Lemma boot_frames (storage : list byte) (size : Z) :
  frames_inv (boot storage size).
Proof.
  unfold frames_inv, boot. cbn. repeat split; try constructor.
  intros t [].
Qed.

Lemma frames_inv_suspend (k : kernel) (p' : k_pipe) (t : tid) (c : call)
      (to : k_timeout_t) (d' s' : wait_q) :
  frames_inv k -> find_frame t (frames k) = None ->
  waiting p' = size_t (waiting (pipe k) + 1) ->
  data p' = d' -> space p' = s' ->
  (d' = data (pipe k) ++ [t] /\ s' = space (pipe k) \/
   d' = data (pipe k) /\ s' = space (pipe k) ++ [t]) ->
  frames_inv (mk_kernel p' (frames k ++ [(t, c, to)])).
Proof.
  intros (Hw & Hnd & Hq & Hin) Hnone Hw' Hd Hs Hcase.
  apply find_frame_tids in Hnone.
  assert (Hnq : ~ In t (data (pipe k) ++ space (pipe k))) by auto.
  unfold frames_inv. cbn [pipe frames].
  rewrite Hw', Hw, size_t_add_l, length_app, tids_app, Hd, Hs. cbn [length tids map fst].
  split; [f_equal; lia|]. split; [|split].
  - apply NoDup_app; [exact Hnd|repeat constructor; intros []|].
    intros x Hx [<-|[]]. contradiction.
  - assert (Hperm : forall x y : wait_q,
               NoDup (x ++ y) -> ~ In t (x ++ y) ->
               NoDup ((x ++ [t]) ++ y) /\ NoDup (x ++ y ++ [t])).
    { intros x y Hn Hni. split.
      - rewrite <- app_assoc. cbn [app]. now apply NoDup_insert.
      - rewrite app_assoc. apply NoDup_app; [exact Hn|repeat constructor; intros []|].
        intros z Hz [<-|[]]. contradiction. }
    destruct (Hperm _ _ Hq Hnq) as (H1 & H2).
    destruct Hcase as [(-> & ->)|(-> & ->)]; assumption.
  - intros x Hx. apply in_or_app.
    assert (Hx' : In x (data (pipe k) ++ space (pipe k)) \/ x = t).
    { destruct Hcase as [(-> & ->)|(-> & ->)];
        repeat (apply in_app_or in Hx; destruct Hx as [Hx|Hx]);
        try (left; apply in_or_app; auto; fail);
        destruct Hx as [<-|[]]; auto. }
    destruct Hx' as [Hx'| ->]; [left; auto|right; now left].
Qed.

Lemma frames_inv_return (k : kernel) (p' : k_pipe) :
  frames_inv k -> waiting p' = waiting (pipe k) ->
  dequeued (data (pipe k)) (data p') ->
  dequeued (space (pipe k)) (space p') ->
  frames_inv (mk_kernel p' (frames k)).
Proof.
  intros (Hw & Hnd & Hq & Hin) Hw' Hd Hs.
  destruct (queues_shrink _ _ _ _ Hq Hd Hs) as (H1 & H2).
  unfold frames_inv. cbn [pipe frames]. rewrite Hw'.
  split; [exact Hw|]. split; [exact Hnd|]. split; [exact H1|].
  intros t Ht. auto.
Qed.

Lemma frames_inv_resume (k : kernel) (p' : k_pipe) (t : tid) (c : call)
      (to : k_timeout_t) :
  frames_inv k -> find_frame t (frames k) = Some (c, to) ->
  queued t (data (pipe k)) || queued t (space (pipe k)) = false ->
  waiting p' = size_t (waiting (pipe k) - 1) ->
  dequeued (data (pipe k)) (data p') ->
  dequeued (space (pipe k)) (space p') ->
  frames_inv (mk_kernel p' (drop_frame t (frames k))).
Proof.
  intros (Hw & Hnd & Hq & Hin) Hsome Hnq Hw' Hd Hs.
  apply find_frame_in in Hsome. apply not_queued in Hnq.
  destruct (queues_shrink _ _ _ _ Hq Hd Hs) as (H1 & H2).
  pose proof (drop_frame_length t _ Hnd Hsome) as Hlen.
  unfold frames_inv. cbn [pipe frames].
  rewrite Hw', Hw, size_t_sub_l, tids_drop_frame.
  split; [f_equal; lia|]. split; [now apply unqueue_NoDup|].
  split; [exact H1|]. intros x Hx. apply unqueue_In. split; [auto|].
  intros ->. auto.
Qed.

Lemma step_frames (size : Z) (k : kernel) (e : event) (k' : kernel)
      (r : response) :
  kernel_inv size k -> frames_inv k ->
  step k e = Ok (Some (k', r)) -> frames_inv k'.
Proof.
  intros ((Hok & _) & _ & _) Hf.
  destruct e as [t src timeout|t len timeout| | |t|t]; cbn [step].
  - destruct (find_frame t (frames k)) eqn:Hfind; [discriminate|].
    destruct (z_impl_k_pipe_write t (pipe k) src timeout) as [o|f] eqn:Hw;
      [|discriminate].
    rewrite bind_Ok. pose proof (write_queues _ _ _ _ _ Hok Hw) as H.
    destruct o as [rc p'|p']; intros [= <- _]; destruct H as (H1 & H2 & H3).
    + apply frames_inv_return; auto. rewrite H3. apply dequeued_refl.
    + eapply frames_inv_suspend; eauto.
  - destruct (find_frame t (frames k)) eqn:Hfind; [discriminate|].
    destruct (z_impl_k_pipe_read t (pipe k) len timeout) as [o|f] eqn:Hr;
      [|discriminate].
    rewrite bind_Ok. pose proof (read_queues _ _ _ _ _ Hok Hr) as H.
    destruct o as [[rc out] p'|p']; intros [= <- _]; destruct H as (H1 & H2 & H3).
    + apply frames_inv_return; auto. rewrite H2. apply dequeued_refl.
    + eapply frames_inv_suspend; eauto.
  - unfold z_impl_k_pipe_reset. intros [= <- _].
    destruct Hf as (Hw & Hnd & Hq & Hin).
    unfold frames_inv. cbn [pipe frames]. fields.
    repeat split; auto; try constructor. intros t [].
  - unfold z_impl_k_pipe_close.
    destruct (negb (flag (k_spin_lock (pipe k)) PIPE_FLAG_OPEN));
      intros [= <- _]; destruct Hf as (Hw & Hnd & Hq & Hin);
      unfold frames_inv; cbn [pipe frames]; fields;
      repeat split; auto; try constructor. intros t [].
  - destruct (find_frame t (frames k)) as [[c timeout]|]; [|discriminate].
    match goal with |- context [if ?b then _ else _] => destruct b end;
      [|discriminate].
    intros [= <- _]. destruct Hf as (Hw & Hnd & Hq & Hin).
    unfold frames_inv. cbn [pipe frames]. fields.
    split; [exact Hw|]. split; [exact Hnd|].
    assert (Hfil : unqueue t (data (pipe k)) ++ unqueue t (space (pipe k))
                   = unqueue t (data (pipe k) ++ space (pipe k))).
    { unfold unqueue. now rewrite filter_app. }
    rewrite Hfil. split; [now apply unqueue_NoDup|].
    intros x Hx. apply unqueue_In in Hx. apply Hin, Hx.
  - destruct (find_frame t (frames k)) as [[c timeout]|] eqn:Hfind;
      [|discriminate].
    destruct (queued t (data (pipe k)) || queued t (space (pipe k))) eqn:Hq;
      [discriminate|].
    destruct c as [src|len].
    + destruct (z_impl_k_pipe_write_resume (pipe k) src) as [[rc p']|f] eqn:Hw;
        [|discriminate].
      rewrite bind_Ok. intros [= <- _]. cbn [snd].
      destruct (write_resume_queues _ _ _ _ Hok Hw) as (H1 & H2 & H3).
      eapply frames_inv_resume; eauto. rewrite H3. apply dequeued_refl.
    + destruct (z_impl_k_pipe_read_resume (pipe k) len)
        as [[[rc out] p']|f] eqn:Hr; [|discriminate].
      rewrite bind_Ok. intros [= <- _]. cbn [snd].
      destruct (read_resume_queues _ _ _ _ _ Hok Hr) as (H1 & H2 & H3).
      eapply frames_inv_resume; eauto. rewrite H2. apply dequeued_refl.
Qed.

Lemma run_frames (size : Z) (es : list event) :
  forall k k' rs,
    kernel_inv size k -> frames_inv k ->
    run k es = Ok (Some (k', rs)) -> frames_inv k'.
Proof.
  induction es as [|e es IH]; intros k k' rs Hk Hf; cbn [run].
  - now intros [= <- _].
  - destruct (step_inv size k e Hk) as (s & Hstep & Hs). rewrite Hstep, bind_Ok.
    destruct s as [[k1 r]|]; [|discriminate].
    destruct (run k1 es) as [[[k2 rs']|]|f] eqn:Hrun; try discriminate.
    rewrite bind_Ok. intros [= <- _].
    apply (IH k1 k2 rs'); [exact (Hs _ _ eq_refl)| |exact Hrun].
    eapply step_frames; eauto.
Qed.

(** * Reset and the waiters *)

Lemma wait_for_resume_reset (cond : wait_cond_t) (p : k_pipe) :
  flag p PIPE_FLAG_OPEN = true -> flag p PIPE_FLAG_RESET = true ->
  exists p',
    wait_for_resume cond p = Ok (- ECANCELED, p') /\
    same_ring p p' /\ data p' = data p /\ space p' = space p /\
    waiting p' = size_t (waiting p - 1) /\
    flag p' PIPE_FLAG_RESET = negb (size_t (waiting p - 1) =? 0).
Proof.
  intros Hopen Hreset.
  set (woken := set_waiting (k_spin_lock p) (size_t (waiting p - 1))).
  assert (Hsw : same_ring p woken).
  { eapply same_ring_trans; [apply same_ring_lock|apply same_ring_waiting]. }
  unfold wait_for_resume.
  change (set_waiting (k_spin_lock p) (size_t (waiting (k_spin_lock p) - 1)))
    with woken.
  change (flag woken PIPE_FLAG_OPEN) with (flag p PIPE_FLAG_OPEN).
  change (flag woken PIPE_FLAG_RESET) with (flag p PIPE_FLAG_RESET).
  rewrite Hopen, Hreset. cbn [negb].
  change (waiting woken) with (size_t (waiting p - 1)).
  eexists. split; [reflexivity|].
  destruct (size_t (waiting p - 1) =? 0).
  - refine (conj _ (conj _ (conj _ (conj _ _)))); try reflexivity.
    + apply (same_ring_trans p woken); [exact Hsw|].
      apply (same_ring_clear_reset woken).
    + fields. autorewrite with pipe_flags. reflexivity.
  - refine (conj _ (conj _ (conj _ (conj _ _)))); try reflexivity;
      [exact Hsw|exact Hreset].
Qed.

Lemma tids_nil (fs : list frame) : tids fs = [] -> fs = [].
Proof. destruct fs; [reflexivity|discriminate]. Qed.

(** One waiter runs again while the reset flag is up. *)
Lemma resume_under_reset (size : Z) (k : kernel) (t : tid) :
  kernel_inv size k -> frames_inv k ->
  flag (pipe k) PIPE_FLAG_OPEN = true ->
  flag (pipe k) PIPE_FLAG_RESET = true ->
  data (pipe k) = [] -> space (pipe k) = [] ->
  Z.of_nat (length (frames k)) <= SIZE_MAX ->
  In t (tids (frames k)) ->
  exists k' r,
    step k (Resume t) = Ok (Some (k', r)) /\
    result_code r = Some (- ECANCELED) /\
    accepted r = [] /\ delivered r = [] /\
    frames k' = drop_frame t (frames k) /\
    same_ring (pipe k) (pipe k') /\
    data (pipe k') = [] /\ space (pipe k') = [] /\
    flag (pipe k') PIPE_FLAG_RESET
    = negb (Z.of_nat (length (frames k')) =? 0).
Proof.
  intros Hk (Hw & Hnd & _) Hopen Hreset Hd Hs Hmax Hin.
  destruct (find_frame t (frames k)) as [[c to]|] eqn:Hfind.
  2:{ apply find_frame_tids in Hfind. contradiction. }
  pose proof (drop_frame_length t _ Hnd Hin) as Hlen.
  assert (Hwait : size_t (waiting (pipe k) - 1)
                  = Z.of_nat (length (drop_frame t (frames k)))).
  { rewrite Hw, size_t_sub_l.
    replace (Z.of_nat (length (frames k)) - 1)
      with (Z.of_nat (length (drop_frame t (frames k)))) by lia.
    apply size_t_id. lia. }
  cbn [step]. rewrite Hfind, Hd, Hs. cbn [queued existsb orb].
  destruct c as [src|len].
  - destruct (wait_for_resume_reset queue_full _ Hopen Hreset)
      as (p' & Hwf & Hsr & Hd' & Hs' & Hw' & Hr').
    unfold z_impl_k_pipe_write_resume. rewrite Hwf, !bind_Ok.
    change (negb (- ECANCELED =? 0)) with true. cbn iota. rewrite bind_Ok.
    eexists _, _. split; [reflexivity|]. cbn [result_code accepted delivered
      frames pipe fst snd].
    refine (conj eq_refl (conj eq_refl (conj eq_refl (conj eq_refl
              (conj _ (conj _ (conj _ _))))))).
    + eapply same_ring_trans; [exact Hsr|apply same_ring_unlock].
    + fields. congruence.
    + fields. congruence.
    + fields. rewrite Hr', Hwait. reflexivity.
  - destruct (wait_for_resume_reset queue_empty _ Hopen Hreset)
      as (p' & Hwf & Hsr & Hd' & Hs' & Hw' & Hr').
    unfold z_impl_k_pipe_read_resume. rewrite Hwf, !bind_Ok.
    change (negb (- ECANCELED =? 0) && negb (- ECANCELED =? - EPIPE))
      with true. cbn iota. rewrite bind_Ok.
    eexists _, _. split; [reflexivity|]. cbn [result_code accepted delivered
      frames pipe fst snd].
    refine (conj eq_refl (conj eq_refl (conj eq_refl (conj eq_refl
              (conj _ (conj _ (conj _ _))))))).
    + eapply same_ring_trans; [exact Hsr|apply same_ring_unlock].
    + fields. congruence.
    + fields. congruence.
    + fields. rewrite Hr', Hwait. reflexivity.
Qed.

Lemma run_cons (k : kernel) (e : event) (es : list event) (k1 k2 : kernel)
      (r : response) (rs : list response) :
  step k e = Ok (Some (k1, r)) -> run k1 es = Ok (Some (k2, rs)) ->
  run k (e :: es) = Ok (Some (k2, r :: rs)).
Proof. intros H1 H2. cbn [run]. rewrite H1, bind_Ok, H2. reflexivity. Qed.

(** Every waiter runs again while the reset flag is up, in any order. *)
Lemma cancel_all (size : Z) (order : list tid) :
  forall k,
    kernel_inv size k -> frames_inv k ->
    flag (pipe k) PIPE_FLAG_OPEN = true ->
    flag (pipe k) PIPE_FLAG_RESET = true ->
    data (pipe k) = [] -> space (pipe k) = [] ->
    Z.of_nat (length (frames k)) <= SIZE_MAX ->
    NoDup order -> (forall t, In t order <-> In t (tids (frames k))) ->
    order <> [] ->
    exists k' rs,
      run k (map Resume order) = Ok (Some (k', rs)) /\
      Forall (fun r => result_code r = Some (- ECANCELED) /\
                       accepted r = [] /\ delivered r = []) rs /\
      length rs = length order /\
      frames k' = [] /\ waiting (pipe k') = 0 /\
      flag (pipe k') PIPE_FLAG_RESET = false /\
      same_ring (pipe k) (pipe k').
Proof.
  induction order as [|t rest IH]; intros k Hk Hf Hopen Hreset Hd Hs Hmax
                                          Hnd Hiff Hne; [congruence|].
  assert (Hin : In t (tids (frames k))) by (apply Hiff; now left).
  destruct (resume_under_reset size k t Hk Hf Hopen Hreset Hd Hs Hmax Hin)
    as (k1 & r & Hstep & Hrc & Hacc & Hdel & Hfr & Hsr & Hd1 & Hs1 & Hr1).
  destruct (step_inv size k (Resume t) Hk) as (s & Hs' & Hinv).
  rewrite Hstep in Hs'. injection Hs' as <-.
  pose proof (Hinv _ _ eq_refl) as Hk1.
  pose proof (step_frames size _ _ _ _ Hk Hf Hstep) as Hf1.
  apply NoDup_cons_iff in Hnd. destruct Hnd as (Ht & Hnd).
  assert (Hiff1 : forall x, In x rest <-> In x (tids (frames k1))).
  { intros x. rewrite Hfr, tids_drop_frame, unqueue_In, <- Hiff.
    cbn [In]. split.
    - intros Hx. split; [now right|]. intros ->. contradiction.
    - intros ([->|Hx] & Hxt); [congruence|exact Hx]. }
  assert (Hlen1 : Z.of_nat (length (frames k1)) <= SIZE_MAX).
  { destruct Hf as (_ & Hndk & _).
    pose proof (drop_frame_length t _ Hndk Hin). rewrite Hfr. lia. }
  destruct rest as [|t' rest'].
  - assert (Hnil : frames k1 = []).
    { apply tids_nil. destruct (tids (frames k1)) as [|x l]; [reflexivity|].
      exfalso. apply (Hiff1 x). now left. }
    exists k1, [r]. split; [apply (run_cons _ _ _ _ _ _ _ Hstep); reflexivity|].
    split; [repeat constructor; assumption|]. split; [reflexivity|].
    split; [exact Hnil|]. rewrite Hnil in Hr1.
    destruct Hf1 as (Hw1 & _). rewrite Hnil in Hw1.
    split; [exact Hw1|]. split; [exact Hr1|exact Hsr].
  - assert (Hne1 : frames k1 <> []).
    { intros E. rewrite E in Hiff1. apply (Hiff1 t'). now left. }
    assert (Hreset1 : flag (pipe k1) PIPE_FLAG_RESET = true).
    { rewrite Hr1. destruct (frames k1); [congruence|reflexivity]. }
    assert (Hopen1 : flag (pipe k1) PIPE_FLAG_OPEN = true).
    { destruct Hsr as (_ & _ & _ & _ & _ & ->). exact Hopen. }
    destruct (IH k1 Hk1 Hf1 Hopen1 Hreset1 Hd1 Hs1 Hlen1 Hnd Hiff1
                 ltac:(discriminate))
      as (k2 & rs & Hrun & Hall & Hl & Hfr2 & Hw2 & Hr2 & Hsr2).
    exists k2, (r :: rs). split; [exact (run_cons _ _ _ _ _ _ _ Hstep Hrun)|].
    split; [constructor; auto|]. split; [cbn [length]; now rewrite Hl|].
    split; [exact Hfr2|]. split; [exact Hw2|]. split; [exact Hr2|].
    eapply same_ring_trans; eauto.
Qed.

(** * Resumption on an open pipe that is not under reset *)

Lemma wait_for_resume_normal (cond : wait_cond_t) (p : k_pipe) (c : bool) :
  flag p PIPE_FLAG_OPEN = true -> flag p PIPE_FLAG_RESET = false ->
  cond (set_waiting (k_spin_lock p) (size_t (waiting p - 1))) = Ok c ->
  wait_for_resume cond p
  = Ok (if c then - EAGAIN else 0,
        set_waiting (k_spin_lock p) (size_t (waiting p - 1))).
Proof.
  intros Hopen Hreset Hc. unfold wait_for_resume.
  set (woken := set_waiting (k_spin_lock p) (size_t (waiting p - 1))) in *.
  change (set_waiting (k_spin_lock p) (size_t (waiting (k_spin_lock p) - 1)))
    with woken.
  change (flag woken PIPE_FLAG_OPEN) with (flag p PIPE_FLAG_OPEN).
  change (flag woken PIPE_FLAG_RESET) with (flag p PIPE_FLAG_RESET).
  rewrite Hopen, Hreset, Hc, bind_Ok. destruct c; reflexivity.
Qed.

Lemma same_ring_woken (p : k_pipe) :
  same_ring p (set_waiting (k_spin_lock p) (size_t (waiting p - 1))).
Proof.
  eapply same_ring_trans; [apply same_ring_lock|apply same_ring_waiting].
Qed.

Lemma queue_empty_same (p p' : k_pipe) :
  same_ring p p' -> queue_empty p' = queue_empty p.
Proof. intros H. unfold queue_empty. now rewrite (utilization_same _ _ H). Qed.

Lemma queue_full_same (p p' : k_pipe) :
  same_ring p p' -> queue_full p' = queue_full p.
Proof.
  intros H. unfold queue_full. rewrite (utilization_same _ _ H).
  destruct H as (_ & -> & _). reflexivity.
Qed.

(** A reader runs again and finds bytes. *)
Lemma read_resume_takes (p : k_pipe) (len : Z) :
  ring_ok p -> buffer_size p <= PTRDIFF_MAX -> 0 <= len <= SIZE_MAX ->
  flag p PIPE_FLAG_OPEN = true -> flag p PIPE_FLAG_RESET = false ->
  queue_empty p = Ok false ->
  let n := Z.min len (occupancy p) in
  exists p',
    z_impl_k_pipe_read_resume p len
    = Ok (n, firstn (Z.to_nat n) (contents p), p') /\
    ring_ok p' /\ buffer_size p' = buffer_size p /\
    contents p' = skipn (Z.to_nat n) (contents p) /\
    occupancy p' = occupancy p - n /\
    waiting p' = size_t (waiting p - 1) /\ lock p' = false /\
    flag p' PIPE_FLAG_OPEN = true /\ flag p' PIPE_FLAG_RESET = false /\
    data p' = data p /\
    space p' = (if n =? 0 then space p else tl (space p)).
Proof.
  intros Hok Hmax Hlen Hopen Hreset Hne n.
  set (woken := set_waiting (k_spin_lock p) (size_t (waiting p - 1))).
  pose proof (same_ring_woken p) as Hsw. fold woken in Hsw.
  pose proof (ring_ok_same _ _ Hsw Hok) as Hokw.
  assert (Hc : queue_empty woken = Ok false).
  { rewrite (queue_empty_same _ _ Hsw). exact Hne. }
  pose proof (queue_empty_false p Hok Hmax Hne) as Hocc.
  assert (Hgo : occupancy woken <> 0 \/ flag woken PIPE_FLAG_OPEN = true).
  { left. rewrite (occupancy_same _ _ Hsw). lia. }
  pose proof (read_transfer_takes woken len Hokw Hmax (proj1 Hlen) Hgo) as H.
  cbv zeta in H. rewrite (occupancy_same _ _ Hsw) in H.
  rewrite (contents_same _ _ Hsw) in H. fold n in H.
  destruct H as (p' & Hr & H1 & H2 & H3 & H4 & _ & _ & H5 & H6 & H7 & H8 & H9 & H10).
  exists p'. split.
  { unfold z_impl_k_pipe_read_resume.
    rewrite (wait_for_resume_normal queue_empty p false Hopen Hreset Hc).
    rewrite bind_Ok. cbn iota. change (negb (0 =? 0)) with false.
    cbn [andb]. rewrite (size_t_id len) by lia. exact Hr. }
  refine (conj H1 (conj H2 (conj H3 (conj H4 (conj H5 (conj H6
            (conj _ (conj _ (conj H9 H10))))))))).
  - rewrite H7. exact Hopen.
  - rewrite H8. exact Hreset.
Qed.

(** A writer runs again and finds room. *)
Lemma write_resume_fits (p : k_pipe) (src : list byte) :
  ring_ok p -> buffer_size p <= PTRDIFF_MAX ->
  flag p PIPE_FLAG_OPEN = true -> flag p PIPE_FLAG_RESET = false ->
  queue_full p = Ok false ->
  let n := Z.min (Z.of_nat (length src)) (buffer_size p - occupancy p) in
  exists p',
    z_impl_k_pipe_write_resume p src = Ok (n, p') /\
    ring_ok p' /\ buffer_size p' = buffer_size p /\
    contents p' = contents p ++ firstn (Z.to_nat n) src /\
    occupancy p' = occupancy p + n /\
    waiting p' = size_t (waiting p - 1) /\ lock p' = false /\
    flag p' PIPE_FLAG_OPEN = true /\ flag p' PIPE_FLAG_RESET = false /\
    data p' = (if n =? 0 then data p else tl (data p)) /\
    space p' = space p.
Proof.
  intros Hok Hmax Hopen Hreset Hnf n.
  set (woken := set_waiting (k_spin_lock p) (size_t (waiting p - 1))).
  pose proof (same_ring_woken p) as Hsw. fold woken in Hsw.
  pose proof (ring_ok_same _ _ Hsw Hok) as Hokw.
  assert (Hc : queue_full woken = Ok false).
  { rewrite (queue_full_same _ _ Hsw). exact Hnf. }
  pose proof (write_transfer_fits woken src Hokw Hmax Hopen) as H.
  cbv zeta in H. rewrite (occupancy_same _ _ Hsw) in H.
  rewrite (contents_same _ _ Hsw) in H.
  change (buffer_size woken) with (buffer_size p) in H. fold n in H.
  destruct H as (p' & Hw & H1 & H2 & H3 & H4 & _ & H5 & H6 & H7 & H8 & H9 & H10).
  exists p'. split.
  { unfold z_impl_k_pipe_write_resume.
    rewrite (wait_for_resume_normal queue_full p false Hopen Hreset Hc).
    rewrite bind_Ok. cbn iota. change (negb (0 =? 0)) with false.
    cbn iota. exact Hw. }
  refine (conj H1 (conj H2 (conj H3 (conj H4 (conj H5 (conj H6
            (conj H7 (conj _ (conj H9 H10))))))))).
  rewrite H8. exact Hreset.
Qed.

(** A waiter runs again after its timeout and finds nothing changed. *)
Lemma read_resume_timeout (p : k_pipe) (len : Z) :
  flag p PIPE_FLAG_OPEN = true -> flag p PIPE_FLAG_RESET = false ->
  queue_empty p = Ok true ->
  z_impl_k_pipe_read_resume p len
  = Ok (- EAGAIN, [], set_lock (set_waiting p (size_t (waiting p - 1))) false).
Proof.
  intros Hopen Hreset He.
  assert (Hc : queue_empty (set_waiting (k_spin_lock p)
                              (size_t (waiting p - 1))) = Ok true).
  { rewrite (queue_empty_same _ _ (same_ring_woken p)). exact He. }
  unfold z_impl_k_pipe_read_resume.
  rewrite (wait_for_resume_normal queue_empty p true Hopen Hreset Hc).
  rewrite bind_Ok. cbn iota.
  change (negb (- EAGAIN =? 0) && negb (- EAGAIN =? - EPIPE)) with true.
  cbn iota. reflexivity.
Qed.

Lemma write_resume_timeout (p : k_pipe) (src : list byte) :
  flag p PIPE_FLAG_OPEN = true -> flag p PIPE_FLAG_RESET = false ->
  queue_full p = Ok true ->
  z_impl_k_pipe_write_resume p src
  = Ok (- EAGAIN, set_lock (set_waiting p (size_t (waiting p - 1))) false).
Proof.
  intros Hopen Hreset He.
  assert (Hc : queue_full (set_waiting (k_spin_lock p)
                             (size_t (waiting p - 1))) = Ok true).
  { rewrite (queue_full_same _ _ (same_ring_woken p)). exact He. }
  unfold z_impl_k_pipe_write_resume.
  rewrite (wait_for_resume_normal queue_full p true Hopen Hreset Hc).
  rewrite bind_Ok. cbn iota. change (negb (- EAGAIN =? 0)) with true.
  cbn iota. reflexivity.
Qed.

(** * The closed pipe in a run *)

Lemma read_transfer_storage (p : k_pipe) (len rc : Z) (out : list byte)
      (p' : k_pipe) :
  ring_ok p -> 0 <= len -> read_transfer p len = Ok (rc, out, p') ->
  buffer p' = buffer p /\ tail p' = tail p.
Proof.
  intros Hok Hlen Hr.
  destruct (utilization_defined p Hok) as (u & Hu & Hur & _).
  assert (Hcases : (u = 0 /\ flag p PIPE_FLAG_OPEN = false)
                   \/ (u <> 0 \/ flag p PIPE_FLAG_OPEN = true)).
  { destruct (Z.eq_dec u 0), (flag p PIPE_FLAG_OPEN); auto. }
  destruct Hcases as [(-> & Hopen)|Hgo].
  - rewrite (read_transfer_eof p len Hu Hopen) in Hr.
    injection Hr as <- <- <-. split; reflexivity.
  - rewrite (read_transfer_take p len u Hok Hu Hur Hgo Hlen) in Hr.
    injection Hr as <- <- <-. split; reflexivity.
Qed.

Lemma write_resume_closed (p : k_pipe) (src : list byte) :
  flag p PIPE_FLAG_OPEN = false ->
  z_impl_k_pipe_write_resume p src
  = Ok (- EPIPE, set_lock (set_waiting p (size_t (waiting p - 1))) false).
Proof.
  intros Hopen. unfold z_impl_k_pipe_write_resume, wait_for_resume.
  change (flag (set_waiting (k_spin_lock p)
                  (size_t (waiting (k_spin_lock p) - 1))) PIPE_FLAG_OPEN)
    with (flag p PIPE_FLAG_OPEN).
  rewrite Hopen. reflexivity.
Qed.

Lemma read_resume_closed (p : k_pipe) (len : Z) :
  flag p PIPE_FLAG_OPEN = false ->
  z_impl_k_pipe_read_resume p len
  = read_transfer (set_waiting (k_spin_lock p) (size_t (waiting p - 1)))
                  (size_t len).
Proof.
  intros Hopen. unfold z_impl_k_pipe_read_resume, wait_for_resume.
  change (flag (set_waiting (k_spin_lock p)
                  (size_t (waiting (k_spin_lock p) - 1))) PIPE_FLAG_OPEN)
    with (flag p PIPE_FLAG_OPEN).
  rewrite Hopen. reflexivity.
Qed.

Lemma step_closed (size : Z) (k : kernel) (e : event) (k' : kernel)
      (r : response) :
  kernel_inv size k -> flag (pipe k) PIPE_FLAG_OPEN = false ->
  step k e = Ok (Some (k', r)) ->
  flag (pipe k') PIPE_FLAG_OPEN = false /\
  buffer (pipe k') = buffer (pipe k) /\
  accepted r = [] /\ closed_response r.
Proof.
  intros (Hinv & _ & _) Hc. pose proof (proj1 Hinv) as Hok.
  destruct e as [t src timeout|t len timeout| | |t|t]; cbn [step].
  - destruct (find_frame t (frames k)); [discriminate|].
    rewrite (closed_write t _ src timeout Hinv Hc), bind_Ok.
    intros [= <- <-]. cbn [pipe accepted closed_response]. fields. auto.
  - destruct (find_frame t (frames k)); [discriminate|].
    unfold z_impl_k_pipe_read.
    destruct (utilization (k_spin_lock (pipe k))) as [u|f]; [|discriminate].
    rewrite bind_Ok.
    change (flag (k_spin_lock (pipe k)) PIPE_FLAG_OPEN)
      with (flag (pipe k) PIPE_FLAG_OPEN).
    rewrite Hc, andb_false_r.
    destruct (read_transfer (k_spin_lock (pipe k)) (size_t len))
      as [[[rc out] p']|f] eqn:Hr; [|discriminate].
    rewrite bind_Ok. intros [= <- <-]. cbn [pipe fst snd accepted closed_response].
    destruct (read_transfer_queues _ _ _ _ _ (ring_ok_lock _ Hok)
                (proj1 (size_t_range len)) Hr) as (_ & _ & _ & Ho & _).
    destruct (read_transfer_storage _ _ _ _ _ (ring_ok_lock _ Hok)
                (proj1 (size_t_range len)) Hr) as (Hb & _).
    rewrite Ho, Hb. auto.
  - unfold z_impl_k_pipe_reset. intros [= <- <-].
    cbn [pipe accepted closed_response]. fields.
    autorewrite with pipe_flags. auto.
  - unfold z_impl_k_pipe_close.
    change (flag (k_spin_lock (pipe k)) PIPE_FLAG_OPEN)
      with (flag (pipe k) PIPE_FLAG_OPEN).
    rewrite Hc. cbn [negb]. intros [= <- <-].
    cbn [pipe accepted closed_response]. fields. auto.
  - destruct (find_frame t (frames k)) as [[c timeout]|]; [|discriminate].
    match goal with |- context [if ?b then _ else _] => destruct b end;
      [|discriminate].
    intros [= <- <-]. cbn [pipe accepted closed_response]. fields. auto.
  - destruct (find_frame t (frames k)) as [[c timeout]|]; [|discriminate].
    match goal with |- context [if ?b then _ else _] => destruct b end;
      [discriminate|].
    destruct c as [src|len].
    + rewrite (write_resume_closed _ src Hc), bind_Ok.
      intros [= <- <-]. cbn [pipe fst snd accepted closed_response].
      fields. auto.
    + rewrite (read_resume_closed _ len Hc).
      destruct (read_transfer _ (size_t len)) as [[[rc out] p']|f] eqn:Hr;
        [|discriminate].
      rewrite bind_Ok. intros [= <- <-].
      cbn [pipe fst snd accepted closed_response].
      destruct (read_transfer_queues _ _ _ _ _ (ring_ok_woken _ Hok)
                  (proj1 (size_t_range len)) Hr) as (_ & _ & _ & Ho & _).
      destruct (read_transfer_storage _ _ _ _ _ (ring_ok_woken _ Hok)
                  (proj1 (size_t_range len)) Hr) as (Hb & _).
      rewrite Ho, Hb. auto.
Qed.

Lemma run_closed (size : Z) (es : list event) :
  forall k k' rs,
    kernel_inv size k -> flag (pipe k) PIPE_FLAG_OPEN = false ->
    run k es = Ok (Some (k', rs)) ->
    flag (pipe k') PIPE_FLAG_OPEN = false /\
    buffer (pipe k') = buffer (pipe k) /\
    written rs = [] /\ Forall closed_response rs.
Proof.
  induction es as [|e es IH]; intros k k' rs Hk Hc; cbn [run].
  - intros [= <- <-]. auto.
  - destruct (step_inv size k e Hk) as (s & Hstep & Hs). rewrite Hstep, bind_Ok.
    destruct s as [[k1 r]|]; [|discriminate].
    destruct (run k1 es) as [[[k2 rs']|]|f] eqn:Hrun; try discriminate.
    rewrite bind_Ok. intros [= <- <-].
    destruct (step_closed size _ _ _ _ Hk Hc Hstep) as (H1 & H2 & H3 & H4).
    destruct (IH k1 k2 rs' (Hs _ _ eq_refl) H1 Hrun) as (G1 & G2 & G3 & G4).
    split; [exact G1|]. split; [congruence|].
    split; [unfold written in *; cbn [flat_map]; now rewrite H3, G3|].
    now constructor.
Qed.

(** * States reached from [init] *)

Lemma reached_inv (storage : list byte) (size : Z) (es : list event)
      (k : kernel) (rs : list response) :
  0 < size <= SIZE_MAX -> Z.of_nat (length storage) = size ->
  run (boot storage size) es = Ok (Some (k, rs)) ->
  kernel_inv size k /\ frames_inv k.
Proof.
  intros Hs Hl Hrun. pose proof (boot_inv storage size Hs Hl) as Hb. split.
  - destruct (run_inv size es _ Hb) as (s & Hr & H). rewrite Hrun in Hr.
    injection Hr as <-. eauto.
  - eapply run_frames; eauto using boot_frames.
Qed.

Lemma occupancy_length (p : k_pipe) :
  ring_ok p -> occupancy p = Z.of_nat (length (contents p)).
Proof.
  intros Hok. pose proof (occupancy_range p Hok).
  pose proof (length_contents p). lia.
Qed.

Lemma queue_full_occupancy (p : k_pipe) :
  ring_ok p -> buffer_size p <= PTRDIFF_MAX ->
  queue_full p = Ok (occupancy p =? buffer_size p).
Proof.
  intros Hok Hmax. unfold queue_full.
  now rewrite (utilization_occupancy p Hok Hmax).
Qed.

Lemma queue_empty_occupancy (p : k_pipe) :
  ring_ok p -> buffer_size p <= PTRDIFF_MAX ->
  queue_empty p = Ok (occupancy p =? 0).
Proof.
  intros Hok Hmax. unfold queue_empty.
  now rewrite (utilization_occupancy p Hok Hmax).
Qed.

(** * A call that waits *)

Lemma find_frame_new (t : tid) (fs : list frame) (c : call)
      (to : k_timeout_t) :
  find_frame t fs = None -> find_frame t (fs ++ [(t, c, to)]) = Some (c, to).
Proof.
  induction fs as [|[[t' c'] to'] fs IH]; cbn [find_frame app].
  - now rewrite Nat.eqb_refl.
  - destruct (Nat.eqb t t'); [discriminate|exact IH].
Qed.

Lemma find_frame_other (t t' : tid) (fs : list frame) (c : call)
      (to : k_timeout_t) :
  t <> t' -> find_frame t (fs ++ [(t', c, to)]) = find_frame t fs.
Proof.
  intros Hne. induction fs as [|[[t0 c0] to0] fs IH]; cbn [find_frame app].
  - apply Nat.eqb_neq in Hne. now rewrite Hne.
  - now rewrite IH.
Qed.

Lemma drop_frame_new (t : tid) (fs : list frame) (c : call)
      (to : k_timeout_t) :
  find_frame t fs = None -> drop_frame t (fs ++ [(t, c, to)]) = fs.
Proof.
  induction fs as [|[[t' c'] to'] fs IH]; cbn [find_frame app]; unfold drop_frame;
    cbn [filter fst].
  - now rewrite Nat.eqb_refl.
  - destruct (Nat.eqb t t'); [discriminate|]. intros H. cbn [negb].
    f_equal. exact (IH H).
Qed.

Lemma unqueue_new (t : tid) (q : wait_q) :
  ~ In t q -> unqueue t (q ++ [t]) = q.
Proof.
  intros Hn. unfold unqueue. rewrite filter_app. cbn [filter].
  rewrite Nat.eqb_refl. cbn [negb]. rewrite app_nil_r.
  now apply unqueue_absent.
Qed.

Lemma queued_new (t : tid) (q : wait_q) : queued t (q ++ [t]) = true.
Proof. apply queued_In, in_or_app. right. now left. Qed.

Lemma queued_absent (t : tid) (q : wait_q) : ~ In t q -> queued t q = false.
Proof.
  intros Hn. destruct (queued t q) eqn:E; [|reflexivity].
  apply queued_In in E. contradiction.
Qed.

Lemma waiting_round (w : Z) : size_t (size_t (w + 1) - 1) = size_t w.
Proof. rewrite size_t_sub_l. f_equal. lia. Qed.

(** A thread without a frame is on neither queue. *)
Lemma unframed_absent (k : kernel) (t : tid) :
  frames_inv k -> find_frame t (frames k) = None ->
  ~ In t (data (pipe k)) /\ ~ In t (space (pipe k)).
Proof.
  intros (_ & _ & _ & Hq) Hfind. apply find_frame_tids in Hfind.
  split; intros Hin; apply Hfind, Hq, in_or_app; auto.
Qed.

Lemma frames_inv_waiting (k : kernel) :
  frames_inv k -> size_t (waiting (pipe k)) = waiting (pipe k).
Proof.
  intros (Hw & _). rewrite Hw. apply size_t_id, size_t_range.
Qed.

Lemma read_times_out (k : kernel) (t : tid) (len : Z) (timeout : k_timeout_t) :
  frames_inv k -> lock (pipe k) = false ->
  find_frame t (frames k) = None ->
  flag (pipe k) PIPE_FLAG_OPEN = true ->
  flag (pipe k) PIPE_FLAG_RESET = false ->
  K_TIMEOUT_EQ timeout K_NO_WAIT = false ->
  K_TIMEOUT_EQ timeout K_FOREVER = false ->
  queue_empty (pipe k) = Ok true ->
  run k [Read t len timeout; Expire t; Resume t]
  = Ok (Some (k, [Suspend; Expired; ReadRet (- EAGAIN) []])).
Proof.
  intros Hf Hlock Hfind Hopen Hreset Hnw Hfe Hqe.
  destruct (unframed_absent k t Hf Hfind) as (Hd & Hs).
  pose proof (frames_inv_waiting k Hf) as Hw.
  destruct k as [p fs]. cbn [pipe frames] in *.
  cbn [run step pipe frames]. rewrite Hfind.
  rewrite (read_empty_gate t p len timeout Hlock Hqe Hopen), Hnw, Hreset.
  cbn [orb]. rewrite !bind_Ok. cbn [pipe frames].
  rewrite (find_frame_new t fs _ _ Hfind).
  cbn [data space set_data set_space set_waiting].
  rewrite queued_new, Hfe, (unqueue_new t _ Hd), (unqueue_absent t _ Hs).
  cbn [orb andb negb]. rewrite !bind_Ok. cbn [run step pipe frames].
  rewrite (find_frame_new t fs _ _ Hfind).
  cbn [data space set_data set_space set_waiting].
  rewrite (queued_absent t _ Hd), (queued_absent t _ Hs). cbn [orb].
  set (p2 := set_space _ _).
  assert (Hsr : same_ring p p2) by (unfold same_ring, p2; fields; repeat split).
  rewrite (read_resume_timeout p2 len).
  - rewrite !bind_Ok. cbn [fst snd].
    rewrite (drop_frame_new t fs _ _ Hfind). do 3 f_equal.
    unfold p2. destruct p. setters. rewrite waiting_round.
    cbn [waiting] in Hw. rewrite Hw. cbn [lock] in Hlock. now rewrite Hlock.
  - destruct Hsr as (_ & _ & _ & _ & _ & ->). exact Hopen.
  - unfold p2. fields. exact Hreset.
  - now rewrite (queue_empty_same p p2 Hsr).
Qed.

Lemma write_times_out (k : kernel) (t : tid) (src : list byte)
      (timeout : k_timeout_t) :
  frames_inv k -> lock (pipe k) = false ->
  find_frame t (frames k) = None ->
  flag (pipe k) PIPE_FLAG_OPEN = true ->
  flag (pipe k) PIPE_FLAG_RESET = false ->
  K_TIMEOUT_EQ timeout K_NO_WAIT = false ->
  K_TIMEOUT_EQ timeout K_FOREVER = false ->
  queue_full (pipe k) = Ok true ->
  run k [Write t src timeout; Expire t; Resume t]
  = Ok (Some (k, [Suspend; Expired; WriteRet (- EAGAIN) src])).
Proof.
  intros Hf Hlock Hfind Hopen Hreset Hnw Hfe Hqf.
  destruct (unframed_absent k t Hf Hfind) as (Hd & Hs).
  pose proof (frames_inv_waiting k Hf) as Hw.
  destruct k as [p fs]. cbn [pipe frames] in *.
  cbn [run step pipe frames]. rewrite Hfind.
  rewrite (write_full_gate t p src timeout Hlock Hqf), Hnw, Hreset.
  cbn [orb]. rewrite !bind_Ok. cbn [pipe frames].
  rewrite (find_frame_new t fs _ _ Hfind).
  cbn [data space set_data set_space set_waiting].
  rewrite queued_new, Hfe, (unqueue_new t _ Hs), (unqueue_absent t _ Hd).
  rewrite orb_true_r.
  cbn [orb andb negb]. rewrite !bind_Ok. cbn [run step pipe frames].
  rewrite (find_frame_new t fs _ _ Hfind).
  cbn [data space set_data set_space set_waiting].
  rewrite (queued_absent t _ Hd), (queued_absent t _ Hs). cbn [orb].
  set (p2 := set_space _ _).
  assert (Hsr : same_ring p p2) by (unfold same_ring, p2; fields; repeat split).
  rewrite (write_resume_timeout p2 src).
  - rewrite !bind_Ok. cbn [fst snd].
    rewrite (drop_frame_new t fs _ _ Hfind). do 3 f_equal.
    unfold p2. destruct p. setters. rewrite waiting_round.
    cbn [waiting] in Hw. rewrite Hw. cbn [lock] in Hlock. now rewrite Hlock.
  - destruct Hsr as (_ & _ & _ & _ & _ & ->). exact Hopen.
  - unfold p2. fields. exact Hreset.
  - now rewrite (queue_full_same p p2 Hsr).
Qed.

(** * A call that is served by the other side *)

Lemma reader_served (k : kernel) (t w : tid) (len : Z) (src : list byte)
      (to to' : k_timeout_t) :
  ring_ok (pipe k) -> buffer_size (pipe k) <= PTRDIFF_MAX ->
  lock (pipe k) = false -> frames_inv k ->
  t <> w -> find_frame t (frames k) = None -> find_frame w (frames k) = None ->
  flag (pipe k) PIPE_FLAG_OPEN = true ->
  flag (pipe k) PIPE_FLAG_RESET = false ->
  queue_empty (pipe k) = Ok true -> data (pipe k) = [] ->
  K_TIMEOUT_EQ to K_NO_WAIT = false ->
  0 <= len <= SIZE_MAX -> src <> [] ->
  let n := Z.min (Z.of_nat (length src)) (buffer_size (pipe k)) in
  let m := Z.min len n in
  exists k',
    run k [Read t len to; Write w src to'; Resume t]
    = Ok (Some (k', [Suspend; WriteRet n src;
                     ReadRet m (firstn (Z.to_nat m) src)])) /\
    frames k' = frames k /\ waiting (pipe k') = waiting (pipe k) /\
    contents (pipe k') = skipn (Z.to_nat m) (firstn (Z.to_nat n) src) /\
    data (pipe k') = [] /\
    space (pipe k') = (if m =? 0 then space (pipe k) else tl (space (pipe k))) /\
    lock (pipe k') = false.
Proof.
  intros Hok Hmax Hlock Hf Htw Hft Hfw Hopen Hreset Hqe Hdata Hnw Hlen Hsrc n m.
  destruct (unframed_absent k t Hf Hft) as (_ & Hs).
  pose proof (frames_inv_waiting k Hf) as Hw.
  destruct k as [p fs]. cbn [pipe frames] in *.
  assert (Hocc : occupancy p = 0).
  { rewrite (queue_empty_occupancy p Hok Hmax) in Hqe.
    injection Hqe as Hqe. now apply Z.eqb_eq. }
  assert (Hlsrc : 0 < Z.of_nat (length src)).
  { destruct src; [congruence|cbn [length]; lia]. }
  assert (Hsz : 0 < buffer_size p) by (destruct Hok; lia).
  assert (Hn : 0 < n) by (unfold n; lia).
  cbn [run step pipe frames]. rewrite Hft.
  rewrite (read_empty_gate t p len to Hlock Hqe Hopen), Hnw, Hreset, Hdata.
  cbn [orb app]. rewrite !bind_Ok. cbn [pipe frames].
  rewrite (find_frame_other w t fs _ _ (not_eq_sym Htw)), Hfw.
  set (p1 := set_data _ _).
  assert (Hsr1 : same_ring p p1) by (unfold same_ring, p1; fields; repeat split).
  pose proof (ring_ok_same _ _ Hsr1 Hok) as Hok1.
  assert (Hopen1 : flag p1 PIPE_FLAG_OPEN = true).
  { destruct Hsr1 as (_ & _ & _ & _ & _ & ->). exact Hopen. }
  assert (Hqf1 : queue_full p1 = Ok false).
  { rewrite (queue_full_occupancy p1 Hok1 Hmax), (occupancy_same _ _ Hsr1), Hocc.
    f_equal. apply Z.eqb_neq. change (buffer_size p1) with (buffer_size p). lia. }
  destruct (write_fits w p1 src to' Hok1 Hmax Hopen1 Hqf1)
    as (p2 & Hwr & Hok2 & Hsz2 & Hc2 & Ho2 & _ & Hw2 & Hl2 & Hop2 & Hr2 & Hd2 & Hs2).
  rewrite (occupancy_same _ _ Hsr1), Hocc, Z.sub_0_r in Hwr, Hc2, Ho2, Hd2.
  change (buffer_size p1) with (buffer_size p) in *. fold n in Hwr, Hc2, Ho2, Hd2.
  rewrite (contents_same p p1 Hsr1) in Hc2.
  assert (Hc : contents p = []).
  { unfold contents. rewrite Hocc. reflexivity. }
  rewrite Hc in Hc2. cbn [app] in Hc2.
  replace (n =? 0) with false in Hd2 by (symmetry; apply Z.eqb_neq; lia).
  change (data p1) with [t] in Hd2. cbn [tl] in Hd2.
  change (space p1) with (space p) in Hs2.
  change (flag p1 PIPE_FLAG_RESET) with (flag p PIPE_FLAG_RESET) in Hr2.
  change (waiting p1) with (size_t (waiting p + 1)) in Hw2.
  rewrite Hwr, !bind_Ok. cbn [run step pipe frames].
  rewrite (find_frame_new t fs _ _ Hft), Hd2, Hs2, (queued_absent t _ Hs).
  cbn [queued existsb orb].
  assert (Hqe2 : queue_empty p2 = Ok false).
  { rewrite (queue_empty_occupancy p2 Hok2) by (rewrite Hsz2; exact Hmax).
    rewrite Ho2. f_equal. apply Z.eqb_neq. lia. }
  destruct (read_resume_takes p2 len Hok2 ltac:(rewrite Hsz2; exact Hmax) Hlen
              Hop2 ltac:(rewrite Hr2; exact Hreset) Hqe2)
    as (p3 & Hrd & Hok3 & Hsz3 & Hc3 & Ho3 & Hw3 & Hl3 & Hop3 & Hr3 & Hd3 & Hs3).
  rewrite Ho2, Z.add_0_l in Hrd, Hc3, Hs3. fold m in Hrd, Hc3, Hs3.
  rewrite Hc2 in Hrd, Hc3.
  assert (Hfst : firstn (Z.to_nat m) (firstn (Z.to_nat n) src)
                 = firstn (Z.to_nat m) src).
  { rewrite firstn_firstn. f_equal. unfold m. lia. }
  rewrite Hfst in Hrd.
  rewrite Hrd, !bind_Ok. cbn [fst snd]. rewrite (drop_frame_new t fs _ _ Hft).
  eexists. split; [reflexivity|]. cbn [pipe frames].
  split; [reflexivity|]. split.
  { rewrite Hw3, Hw2, waiting_round. exact Hw. }
  split; [exact Hc3|]. split; [congruence|]. split; [|exact Hl3].
  rewrite Hs3, Hs2. reflexivity.
Qed.

Lemma writer_freed (k : kernel) (w r : tid) (src : list byte) (len : Z)
      (to to' : k_timeout_t) :
  ring_ok (pipe k) -> buffer_size (pipe k) <= PTRDIFF_MAX ->
  lock (pipe k) = false -> frames_inv k ->
  w <> r -> find_frame w (frames k) = None -> find_frame r (frames k) = None ->
  flag (pipe k) PIPE_FLAG_OPEN = true ->
  flag (pipe k) PIPE_FLAG_RESET = false ->
  queue_full (pipe k) = Ok true -> space (pipe k) = [] ->
  K_TIMEOUT_EQ to K_NO_WAIT = false ->
  0 < len <= SIZE_MAX ->
  let n := Z.min len (buffer_size (pipe k)) in
  let m := Z.min (Z.of_nat (length src)) n in
  exists k',
    run k [Write w src to; Read r len to'; Resume w]
    = Ok (Some (k', [Suspend;
                     ReadRet n (firstn (Z.to_nat n) (contents (pipe k)));
                     WriteRet m src])) /\
    frames k' = frames k /\ waiting (pipe k') = waiting (pipe k) /\
    contents (pipe k')
    = skipn (Z.to_nat n) (contents (pipe k)) ++ firstn (Z.to_nat m) src /\
    space (pipe k') = [] /\
    data (pipe k') = (if m =? 0 then data (pipe k) else tl (data (pipe k))) /\
    lock (pipe k') = false.
Proof.
  intros Hok Hmax Hlock Hf Hwr Hfw Hfr Hopen Hreset Hqf Hspace Hnw Hlen n m.
  destruct (unframed_absent k w Hf Hfw) as (Hd & _).
  pose proof (frames_inv_waiting k Hf) as Hw.
  destruct k as [p fs]. cbn [pipe frames] in *.
  assert (Hocc : occupancy p = buffer_size p).
  { rewrite (queue_full_occupancy p Hok Hmax) in Hqf.
    injection Hqf as Hqf. now apply Z.eqb_eq. }
  assert (Hsz : 0 < buffer_size p) by (destruct Hok; lia).
  assert (Hn : 0 < n) by (unfold n; lia).
  cbn [run step pipe frames]. rewrite Hfw.
  rewrite (write_full_gate w p src to Hlock Hqf), Hnw, Hreset, Hspace.
  cbn [orb app]. rewrite !bind_Ok. cbn [pipe frames].
  rewrite (find_frame_other r w fs _ _ (not_eq_sym Hwr)), Hfr.
  set (p1 := set_space _ _).
  assert (Hsr1 : same_ring p p1) by (unfold same_ring, p1; fields; repeat split).
  pose proof (ring_ok_same _ _ Hsr1 Hok) as Hok1.
  assert (Hqe1 : queue_empty p1 = Ok false).
  { rewrite (queue_empty_occupancy p1 Hok1 Hmax), (occupancy_same _ _ Hsr1), Hocc.
    f_equal. apply Z.eqb_neq. lia. }
  destruct (read_takes r p1 len to' Hok1 Hmax ltac:(lia) Hqe1)
    as (p2 & Hrd & Hok2 & Hsz2 & Hc2 & Ho2 & _ & _ & Hw2 & Hl2 & Hop2 & Hr2
        & Hd2 & Hs2).
  rewrite (occupancy_same _ _ Hsr1), Hocc in Hrd, Hc2, Ho2, Hs2.
  change (buffer_size p1) with (buffer_size p) in *. fold n in Hrd, Hc2, Ho2, Hs2.
  rewrite (contents_same p p1 Hsr1) in Hrd, Hc2.
  replace (n =? 0) with false in Hs2 by (symmetry; apply Z.eqb_neq; lia).
  change (space p1) with [w] in Hs2. cbn [tl] in Hs2.
  change (data p1) with (data p) in Hd2.
  change (flag p1 PIPE_FLAG_RESET) with (flag p PIPE_FLAG_RESET) in Hr2.
  change (flag p1 PIPE_FLAG_OPEN) with (flag p PIPE_FLAG_OPEN) in Hop2.
  change (waiting p1) with (size_t (waiting p + 1)) in Hw2.
  rewrite Hrd, !bind_Ok. cbn [run step pipe frames fst snd].
  rewrite (find_frame_new w fs _ _ Hfw), Hd2, Hs2, (queued_absent w _ Hd).
  cbn [queued existsb orb].
  assert (Hmax2 : buffer_size p2 <= PTRDIFF_MAX) by (rewrite Hsz2; exact Hmax).
  assert (Hqf2 : queue_full p2 = Ok false).
  { rewrite (queue_full_occupancy p2 Hok2 Hmax2), Ho2, Hsz2.
    f_equal. apply Z.eqb_neq. lia. }
  destruct (write_resume_fits p2 src Hok2 Hmax2 ltac:(rewrite Hop2; exact Hopen)
              ltac:(rewrite Hr2; exact Hreset) Hqf2)
    as (p3 & Hwt & Hok3 & Hsz3 & Hc3 & Ho3 & Hw3 & Hl3 & Hop3 & Hr3 & Hd3 & Hs3).
  rewrite Ho2, Hsz2 in Hwt, Hc3, Hd3.
  replace (buffer_size p - (buffer_size p - n)) with n in Hwt, Hc3, Hd3 by lia.
  fold m in Hwt, Hc3, Hd3. rewrite Hc2 in Hc3.
  rewrite Hwt, !bind_Ok. cbn [fst snd]. rewrite (drop_frame_new w fs _ _ Hfw).
  eexists. split; [reflexivity|]. cbn [pipe frames].
  split; [reflexivity|]. split.
  { rewrite Hw3, Hw2, waiting_round. exact Hw. }
  split; [exact Hc3|]. split; [congruence|]. split; [|exact Hl3].
  rewrite Hd3, Hd2. reflexivity.
Qed.

(** * Reset and close with threads waiting *)

Lemma reset_step (size : Z) (k : kernel) :
  kernel_inv size k -> frames_inv k ->
  exists k1,
    step k Reset = Ok (Some (k1, ResetRet 0)) /\
    kernel_inv size k1 /\ frames_inv k1 /\ frames k1 = frames k /\
    flag (pipe k1) PIPE_FLAG_OPEN = flag (pipe k) PIPE_FLAG_OPEN /\
    flag (pipe k1) PIPE_FLAG_RESET = true /\
    data (pipe k1) = [] /\ space (pipe k1) = [] /\
    buffer (pipe k1) = buffer (pipe k) /\
    head (pipe k1) = 0 /\ tail (pipe k1) = 0.
Proof.
  intros Hk Hf.
  destruct (step_inv size k Reset Hk) as (s & Hs & Hinv).
  assert (Hstep : step k Reset
                  = Ok (Some (mk_kernel (snd (z_impl_k_pipe_reset (pipe k)))
                                        (frames k), ResetRet 0)))
    by reflexivity.
  rewrite Hstep in Hs. injection Hs as <-.
  eexists. split; [exact Hstep|].
  split; [exact (Hinv _ _ eq_refl)|].
  split; [exact (step_frames size _ _ _ _ Hk Hf Hstep)|].
  cbn [pipe frames]. unfold z_impl_k_pipe_reset. fields.
  autorewrite with pipe_flags. repeat split.
Qed.

Lemma close_step (size : Z) (k : kernel) :
  kernel_inv size k -> frames_inv k ->
  flag (pipe k) PIPE_FLAG_OPEN = true ->
  exists k1,
    step k Close = Ok (Some (k1, CloseRet 0)) /\
    kernel_inv size k1 /\ frames_inv k1 /\ frames k1 = frames k /\
    flags (pipe k1) = 0 /\
    data (pipe k1) = [] /\ space (pipe k1) = [] /\
    buffer (pipe k1) = buffer (pipe k) /\
    head (pipe k1) = head (pipe k) /\ tail (pipe k1) = tail (pipe k).
Proof.
  intros Hk Hf Hopen.
  destruct (step_inv size k Close Hk) as (s & Hs & Hinv).
  assert (Hstep : step k Close
                  = Ok (Some (mk_kernel (snd (z_impl_k_pipe_close (pipe k)))
                                        (frames k), CloseRet 0))).
  { cbn [step]. unfold z_impl_k_pipe_close.
    change (flag (k_spin_lock (pipe k)) PIPE_FLAG_OPEN)
      with (flag (pipe k) PIPE_FLAG_OPEN).
    rewrite Hopen. reflexivity. }
  rewrite Hstep in Hs. injection Hs as <-.
  eexists. split; [exact Hstep|].
  split; [exact (Hinv _ _ eq_refl)|].
  split; [exact (step_frames size _ _ _ _ Hk Hf Hstep)|].
  cbn [pipe frames]. unfold z_impl_k_pipe_close.
  change (flag (k_spin_lock (pipe k)) PIPE_FLAG_OPEN)
    with (flag (pipe k) PIPE_FLAG_OPEN).
  rewrite Hopen. cbn [negb]. fields. repeat split.
Qed.

(** A closed pipe whose indices meet holds nothing. *)
Lemma closed_drained (p : k_pipe) :
  pipe_inv p -> flag p PIPE_FLAG_OPEN = false -> head p = tail p ->
  utilization p = Ok 0.
Proof.
  intros (Hok & Hcl) Hopen Hht. destruct (Hcl Hopen) as (_ & _ & Hnf).
  destruct Hok as (Hs & _). unfold utilization. rewrite Hnf, Hht, Z.sub_diag.
  change (size_t 0) with 0. rewrite Z.add_0_l, size_t_id by lia.
  unfold umod. replace (buffer_size p =? 0) with false
    by (symmetry; apply Z.eqb_neq; lia).
  f_equal. apply Z_mod_same_full.
Qed.

Lemma resume_closed_drained (size : Z) (k : kernel) (t : tid) :
  kernel_inv size k -> frames_inv k ->
  flag (pipe k) PIPE_FLAG_OPEN = false ->
  head (pipe k) = tail (pipe k) ->
  In t (tids (frames k)) ->
  exists k' r,
    step k (Resume t) = Ok (Some (k', r)) /\
    result_code r = Some (- EPIPE) /\
    accepted r = [] /\ delivered r = [] /\
    frames k' = drop_frame t (frames k) /\
    same_ring (pipe k) (pipe k').
Proof.
  intros (Hinv & _ & _) Hf Hopen Hht Hin.
  destruct (proj2 Hinv Hopen) as (Hd & Hs & _).
  pose proof (closed_drained _ Hinv Hopen Hht) as Hu.
  destruct (find_frame t (frames k)) as [[c to]|] eqn:Hfind.
  2:{ apply find_frame_tids in Hfind. contradiction. }
  cbn [step]. rewrite Hfind, Hd, Hs. cbn [queued existsb orb].
  destruct c as [src|len].
  - rewrite (write_resume_closed _ src Hopen), bind_Ok.
    eexists _, _. split; [reflexivity|].
    cbn [result_code accepted delivered frames pipe fst snd].
    refine (conj eq_refl (conj eq_refl (conj eq_refl (conj eq_refl _)))).
    unfold same_ring. fields. repeat split.
  - rewrite (read_resume_closed _ len Hopen).
    rewrite read_transfer_eof.
    + rewrite bind_Ok. eexists _, _. split; [reflexivity|].
      cbn [result_code accepted delivered frames pipe fst snd].
      refine (conj eq_refl (conj eq_refl (conj eq_refl (conj eq_refl _)))).
      unfold same_ring. fields. repeat split.
    + rewrite <- Hu. apply utilization_same.
      unfold same_ring. fields. repeat split.
    + fields. exact Hopen.
Qed.

Lemma release_all (size : Z) (order : list tid) :
  forall k,
    kernel_inv size k -> frames_inv k ->
    flag (pipe k) PIPE_FLAG_OPEN = false ->
    head (pipe k) = tail (pipe k) ->
    NoDup order -> (forall t, In t order <-> In t (tids (frames k))) ->
    exists k' rs,
      run k (map Resume order) = Ok (Some (k', rs)) /\
      Forall (fun r => result_code r = Some (- EPIPE) /\
                       accepted r = [] /\ delivered r = []) rs /\
      length rs = length order /\
      frames k' = [] /\ waiting (pipe k') = 0 /\
      same_ring (pipe k) (pipe k').
Proof.
  induction order as [|t rest IH]; intros k Hk Hf Hopen Hht Hnd Hiff.
  - assert (Hnil : frames k = []).
    { apply tids_nil. destruct (tids (frames k)) as [|x l]; [reflexivity|].
      exfalso. apply (Hiff x). now left. }
    exists k, []. split; [reflexivity|]. split; [constructor|].
    split; [reflexivity|]. split; [exact Hnil|].
    destruct Hf as (Hw & _). rewrite Hnil in Hw.
    split; [exact Hw|apply same_ring_refl].
  - assert (Hin : In t (tids (frames k))) by (apply Hiff; now left).
    destruct (resume_closed_drained size k t Hk Hf Hopen Hht Hin)
      as (k1 & r & Hstep & Hrc & Hacc & Hdel & Hfr & Hsr).
    destruct (step_inv size k (Resume t) Hk) as (s & Hs' & Hinv).
    rewrite Hstep in Hs'. injection Hs' as <-.
    pose proof (Hinv _ _ eq_refl) as Hk1.
    pose proof (step_frames size _ _ _ _ Hk Hf Hstep) as Hf1.
    apply NoDup_cons_iff in Hnd. destruct Hnd as (Ht & Hnd).
    assert (Hiff1 : forall x, In x rest <-> In x (tids (frames k1))).
    { intros x. rewrite Hfr, tids_drop_frame, unqueue_In, <- Hiff.
      cbn [In]. split.
      - intros Hx. split; [now right|]. intros ->. contradiction.
      - intros ([->|Hx] & Hxt); [congruence|exact Hx]. }
    assert (Hopen1 : flag (pipe k1) PIPE_FLAG_OPEN = false).
    { destruct Hsr as (_ & _ & _ & _ & _ & ->). exact Hopen. }
    assert (Hht1 : head (pipe k1) = tail (pipe k1)).
    { destruct Hsr as (_ & _ & -> & -> & _). exact Hht. }
    destruct (IH k1 Hk1 Hf1 Hopen1 Hht1 Hnd Hiff1)
      as (k2 & rs & Hrun & Hall & Hl & Hfr2 & Hw2 & Hsr2).
    exists k2, (r :: rs). split; [exact (run_cons _ _ _ _ _ _ _ Hstep Hrun)|].
    split; [constructor; auto|]. split; [cbn [length]; now rewrite Hl|].
    split; [exact Hfr2|]. split; [exact Hw2|].
    eapply same_ring_trans; eauto.
Qed.

(** With no call in flight both wait queues are empty. *)
Lemma no_frame_no_queue (k : kernel) :
  frames_inv k -> frames k = [] ->
  data (pipe k) = [] /\ space (pipe k) = [].
Proof.
  intros (_ & _ & _ & Hq) Hnil. rewrite Hnil in Hq.
  destruct (data (pipe k)) as [|x d].
  - destruct (space (pipe k)) as [|y s]; [auto|].
    exfalso. apply (Hq y). now left.
  - exfalso. apply (Hq x). now left.
Qed.


(** * Properties of the calls *)

(** X1: on a well-formed pipe the unsigned arithmetic of [utilization]
    gives the distance from [head] to [tail] around the ring, or the
    whole size when the full flag is up; [queue_full] holds exactly when
    the full flag is up and [queue_empty] exactly when the flag is down
    and the two indices are equal. *)
Theorem utilization_is_ring_distance (p : k_pipe) :
  ring_ok p -> buffer_size p <= PTRDIFF_MAX ->
  utilization p
  = Ok (if flag p PIPE_FLAG_FULL then buffer_size p
        else if head p <=? tail p then tail p - head p
             else tail p - head p + buffer_size p) /\
  queue_full p = Ok (flag p PIPE_FLAG_FULL) /\
  queue_empty p = Ok (negb (flag p PIPE_FLAG_FULL) && (head p =? tail p)).
Proof.
  intros Hok Hmax.
  rewrite (queue_full_occupancy p Hok Hmax), (queue_empty_occupancy p Hok Hmax),
    (utilization_occupancy p Hok Hmax).
  destruct Hok as (Hs & Hl & Hh & Ht & Hf). unfold occupancy.
  destruct (flag p PIPE_FLAG_FULL); cbn [negb andb].
  - repeat split; f_equal.
    + apply Z.eqb_refl.
    + apply Z.eqb_neq. lia.
  - rewrite (mod_cases (tail p - head p) (buffer_size p)) by lia.
    repeat split; f_equal;
      destruct (Z.ltb_spec (tail p - head p) 0), (Z.leb_spec (head p) (tail p)),
               (Z.ltb_spec (tail p - head p) (buffer_size p));
      try lia;
      try (destruct (Z.eqb_spec (head p) (tail p)));
      try (apply Z.eqb_neq); try (apply Z.eqb_eq); lia.
Qed.

(** A ring of four bytes with [head] at three and [tail] at one. *)
Lemma utilization_is_ring_distance_witness :
  let p := mk_pipe (zeros 4) 4 3 1 0 PIPE_FLAG_OPEN false [] [] in
  utilization p = Ok 2 /\ queue_full p = Ok false /\ queue_empty p = Ok false.
Proof.
  intros p.
  apply (utilization_is_ring_distance p).
  - unfold ring_ok. vm_compute. intuition discriminate.
  - vm_compute. discriminate.
Defined.

(** X2: a write into an open pipe that is not full never suspends,
    whatever its timeout: it returns the smaller of [len] and the free
    space, appends exactly that many bytes of the source behind the bytes
    already buffered, leaves the pipe full exactly when the source had at
    least as many bytes as there was room, and, when at least one byte
    went in, takes the earliest thread, and no other, off the data queue.
    The space queue and the counter of waiters are as they were and the
    lock is released. *)
Theorem write_takes_what_fits (curr : tid) (p : k_pipe) (src : list byte)
        (timeout : k_timeout_t) :
  ring_ok p -> buffer_size p <= PTRDIFF_MAX ->
  flag p PIPE_FLAG_OPEN = true -> queue_full p = Ok false ->
  let free := buffer_size p - Z.of_nat (length (contents p)) in
  let n := Z.min (Z.of_nat (length src)) free in
  0 < free /\
  exists p',
    z_impl_k_pipe_write curr p src timeout = Ok (Returned n p') /\
    ring_ok p' /\
    contents p' = contents p ++ firstn (Z.to_nat n) src /\
    queue_full p' = Ok (free <=? Z.of_nat (length src)) /\
    data p' = (if n =? 0 then data p else tl (data p)) /\
    space p' = space p /\ waiting p' = waiting p /\ lock p' = false.
Proof.
  intros Hok Hmax Hopen Hnf free n.
  pose proof (queue_full_false p Hok Hmax Hnf) as Hocc.
  pose proof (occupancy_length p Hok) as Hlen.
  split; [unfold free; lia|].
  pose proof (write_fits curr p src timeout Hok Hmax Hopen Hnf) as H.
  cbv zeta in H. rewrite Hlen in H. fold free in H. fold n in H.
  destruct H as (p' & Hw & Hok' & Hsz & Hc & Ho & _ & Hwt & Hl & _ & _ & Hd & Hs).
  exists p'. split; [exact Hw|]. split; [exact Hok'|]. split; [exact Hc|].
  split.
  { rewrite (queue_full_occupancy p' Hok') by (rewrite Hsz; exact Hmax).
    rewrite Ho, Hsz. f_equal. unfold n, free.
    destruct (Z.eqb_spec (Z.of_nat (length (contents p))
                          + Z.min (Z.of_nat (length src))
                                  (buffer_size p - Z.of_nat (length (contents p))))
                         (buffer_size p)),
             (Z.leb_spec (buffer_size p - Z.of_nat (length (contents p)))
                         (Z.of_nat (length src))); lia. }
  auto.
Qed.

(** Three bytes offered to a pipe of four that holds two. *)
Lemma write_takes_what_fits_witness :
  let p := mk_pipe [x41; x00; x00; x42] 4 3 1 0 PIPE_FLAG_OPEN false
                   [7%nat; 8%nat] [] in
  exists p',
    z_impl_k_pipe_write 0%nat p [x43; x44; x45] K_FOREVER
    = Ok (Returned 2 p') /\
    contents p' = [x42; x41; x43; x44] /\
    queue_full p' = Ok true /\ data p' = [8%nat].
Proof.
  intros p.
  assert (Hok : ring_ok p).
  { unfold ring_ok. vm_compute. intuition discriminate. }
  assert (Hmax : buffer_size p <= PTRDIFF_MAX) by (vm_compute; discriminate).
  destruct (write_takes_what_fits 0%nat p [x43; x44; x45] K_FOREVER Hok Hmax
              eq_refl eq_refl)
    as (_ & p' & Hw & _ & Hc & Hf & Hd & _).
  exists p'. split; [exact Hw|]. split; [exact Hc|]. split; [exact Hf|exact Hd].
Defined.

(** X3: a read from a pipe that is not empty, open or closed, never
    suspends: it returns the smaller of [len] and the number of bytes
    buffered, delivers that many of the oldest bytes in order and leaves
    the others buffered, does not touch the storage or [tail], and, when
    at least one byte came out, leaves the pipe not full and takes the
    earliest thread, and no other, off the space queue. *)
Theorem read_takes_what_is_buffered (curr : tid) (p : k_pipe) (len : Z)
        (timeout : k_timeout_t) :
  ring_ok p -> buffer_size p <= PTRDIFF_MAX ->
  0 <= len <= SIZE_MAX -> queue_empty p = Ok false ->
  let n := Z.min len (Z.of_nat (length (contents p))) in
  exists p',
    z_impl_k_pipe_read curr p len timeout
    = Ok (Returned (n, firstn (Z.to_nat n) (contents p)) p') /\
    ring_ok p' /\
    contents p' = skipn (Z.to_nat n) (contents p) /\
    buffer p' = buffer p /\ tail p' = tail p /\
    (0 < n -> queue_full p' = Ok false) /\
    space p' = (if n =? 0 then space p else tl (space p)) /\
    data p' = data p /\ waiting p' = waiting p /\ lock p' = false /\
    flag p' PIPE_FLAG_OPEN = flag p PIPE_FLAG_OPEN.
Proof.
  intros Hok Hmax Hlen Hne n.
  pose proof (queue_empty_false p Hok Hmax Hne) as Hocc.
  pose proof (occupancy_length p Hok) as Hol.
  pose proof (read_takes curr p len timeout Hok Hmax Hlen Hne) as H.
  cbv zeta in H. rewrite Hol in H. fold n in H.
  destruct H as (p' & Hr & Hok' & Hsz & Hc & Ho & Hb & Ht & Hw & Hl & Hop & _
                 & Hd & Hs).
  exists p'. split; [exact Hr|]. split; [exact Hok'|]. split; [exact Hc|].
  split; [exact Hb|]. split; [exact Ht|]. split.
  { intros Hn. rewrite (queue_full_occupancy p' Hok')
      by (rewrite Hsz; exact Hmax).
    rewrite Ho, Hsz. f_equal. apply Z.eqb_neq. lia. }
  auto 10.
Qed.

(** Three bytes asked of a full pipe of four whose ring wraps. *)
Lemma read_takes_what_is_buffered_witness :
  let p := mk_pipe [x43; x44; x41; x42] 4 2 2 0
                   (Z.lor PIPE_FLAG_OPEN PIPE_FLAG_FULL) false [] [5%nat] in
  exists p',
    z_impl_k_pipe_read 0%nat p 3 K_NO_WAIT
    = Ok (Returned (3, [x41; x42; x43]) p') /\
    contents p' = [x44] /\ space p' = [].
Proof.
  intros p.
  assert (Hok : ring_ok p).
  { unfold ring_ok. vm_compute. intuition discriminate. }
  assert (Hmax : buffer_size p <= PTRDIFF_MAX) by (vm_compute; discriminate).
  assert (Hlen : 0 <= 3 <= SIZE_MAX)
    by (vm_compute; split; discriminate).
  destruct (read_takes_what_is_buffered 0%nat p 3 K_NO_WAIT Hok Hmax Hlen
              eq_refl)
    as (p' & Hr & _ & Hc & _ & _ & _ & Hs & _).
  exists p'. split; [exact Hr|]. split; [exact Hc|exact Hs].
Defined.

(** X4: a write that finds the buffer full, and a read that finds an
    open pipe empty, transfer nothing, whatever [len] is.  With a no-wait
    timeout, or while the reset flag is up, the call returns [-EAGAIN]
    and leaves the pipe exactly as it was; otherwise the caller is
    pended on the space queue (write) or on the data queue (read) and
    counted in [waiting], with nothing else changed and the lock
    released. *)
Theorem full_and_empty_gate (curr : tid) (p : k_pipe) (src : list byte)
        (len : Z) (timeout : k_timeout_t) :
  lock p = false ->
  (queue_full p = Ok true ->
   z_impl_k_pipe_write curr p src timeout
   = if K_TIMEOUT_EQ timeout K_NO_WAIT || flag p PIPE_FLAG_RESET
     then Ok (Returned (- EAGAIN) p)
     else Ok (Suspended
                (set_space (set_waiting p (size_t (waiting p + 1)))
                           (space p ++ [curr])))) /\
  (queue_empty p = Ok true -> flag p PIPE_FLAG_OPEN = true ->
   z_impl_k_pipe_read curr p len timeout
   = if K_TIMEOUT_EQ timeout K_NO_WAIT || flag p PIPE_FLAG_RESET
     then Ok (Returned (- EAGAIN, []) p)
     else Ok (Suspended
                (set_data (set_waiting p (size_t (waiting p + 1)))
                          (data p ++ [curr])))).
Proof.
  intros Hlock. split.
  - now apply write_full_gate.
  - now apply read_empty_gate.
Qed.

(** A full pipe of two bytes with one writer already waiting, and a
    fresh pipe. *)
Lemma full_and_empty_gate_witness :
  let full := mk_pipe [x41; x42] 2 0 0 1
                      (Z.lor PIPE_FLAG_OPEN PIPE_FLAG_FULL) false [] [3%nat] in
  let fresh := z_impl_k_pipe_init (zeros 2) 2 in
  z_impl_k_pipe_write 4%nat full [x43] K_NO_WAIT
  = Ok (Returned (- EAGAIN) full) /\
  z_impl_k_pipe_write 4%nat full [x43] K_FOREVER
  = Ok (Suspended (mk_pipe [x41; x42] 2 0 0 2
                           (Z.lor PIPE_FLAG_OPEN PIPE_FLAG_FULL) false []
                           [3%nat; 4%nat])) /\
  z_impl_k_pipe_read 4%nat fresh 1 K_NO_WAIT
  = Ok (Returned (- EAGAIN, []) fresh) /\
  z_impl_k_pipe_read 4%nat fresh 1 K_FOREVER
  = Ok (Suspended (mk_pipe (zeros 2) 2 0 0 1 PIPE_FLAG_OPEN false
                           [4%nat] [])).
Proof.
  intros full fresh.
  pose proof (full_and_empty_gate 4%nat full [x43] 1 K_NO_WAIT eq_refl)
    as (H1 & _).
  pose proof (full_and_empty_gate 4%nat full [x43] 1 K_FOREVER eq_refl)
    as (H2 & _).
  pose proof (full_and_empty_gate 4%nat fresh [x43] 1 K_NO_WAIT eq_refl)
    as (_ & H3).
  pose proof (full_and_empty_gate 4%nat fresh [x43] 1 K_FOREVER eq_refl)
    as (_ & H4).
  split; [exact (H1 eq_refl)|]. split; [exact (H2 eq_refl)|].
  split; [exact (H3 eq_refl eq_refl)|exact (H4 eq_refl eq_refl)].
Defined.

(** X5: [close] on an open pipe that is not full keeps the bytes it
    holds for the readers: [close] returns [0], the read that follows,
    asked for at least as many bytes as are buffered, returns them all in
    order without suspending, and every read after that returns [-EPIPE]
    and delivers nothing. *)
Theorem drain_then_eof_after_close (r : tid) (p : k_pipe) (len : Z)
        (timeout : k_timeout_t) :
  ring_ok p -> buffer_size p <= PTRDIFF_MAX ->
  flag p PIPE_FLAG_OPEN = true -> flag p PIPE_FLAG_FULL = false ->
  0 < Z.of_nat (length (contents p)) <= len -> len <= SIZE_MAX ->
  fst (z_impl_k_pipe_close p) = 0 /\
  exists p1,
    z_impl_k_pipe_read r (snd (z_impl_k_pipe_close p)) len timeout
    = Ok (Returned (Z.of_nat (length (contents p)), contents p) p1) /\
    forall r' len' timeout',
      z_impl_k_pipe_read r' p1 len' timeout'
      = Ok (Returned (- EPIPE, []) (k_spin_unlock p1)).
Proof.
  intros Hok Hmax Hopen Hnf Hn Hlen.
  assert (Hc : z_impl_k_pipe_close p
               = (0, k_spin_unlock (z_unpend_all SPACE (z_unpend_all DATA
                                      (set_flags (k_spin_lock p) 0))))).
  { unfold z_impl_k_pipe_close.
    change (flag (k_spin_lock p) PIPE_FLAG_OPEN) with (flag p PIPE_FLAG_OPEN).
    rewrite Hopen. reflexivity. }
  rewrite Hc. cbn [fst snd]. split; [reflexivity|].
  set (pc := k_spin_unlock (z_unpend_all SPACE (z_unpend_all DATA
                              (set_flags (k_spin_lock p) 0)))).
  assert (Hokc : ring_ok pc).
  { destruct Hok as (Hs & Hl & Hh & Ht & Hf). unfold ring_ok, pc. fields.
    repeat split; try lia; auto. discriminate. }
  assert (Hoccc : occupancy pc = occupancy p).
  { unfold occupancy, pc. fields. rewrite Hnf. reflexivity. }
  assert (Hcc : contents pc = contents p).
  { unfold contents. rewrite Hoccc. reflexivity. }
  assert (Hmaxc : buffer_size pc <= PTRDIFF_MAX) by exact Hmax.
  pose proof (occupancy_length p Hok) as Hol.
  assert (Hne : queue_empty pc = Ok false).
  { rewrite (queue_empty_occupancy pc Hokc Hmaxc), Hoccc. f_equal.
    apply Z.eqb_neq. lia. }
  destruct (read_takes r pc len timeout Hokc Hmaxc ltac:(lia) Hne)
    as (p1 & Hr & Hok1 & Hsz1 & Hc1 & Ho1 & _ & _ & _ & _ & Hop1 & _).
  rewrite Hoccc, Hcc in *. rewrite Hol in *.
  replace (Z.min len (Z.of_nat (length (contents p))))
    with (Z.of_nat (length (contents p))) in * by lia.
  rewrite Nat2Z.id, firstn_all in Hr.
  exists p1. split; [exact Hr|]. intros r' len' timeout'.
  apply closed_empty_read; [exact Hop1|].
  rewrite (queue_empty_occupancy p1 Hok1) by (rewrite Hsz1; exact Hmaxc).
  rewrite Ho1, Z.sub_diag. reflexivity.
Qed.

(** Three bytes in a pipe of four at the time of [close]. *)
Lemma drain_then_eof_after_close_witness :
  let p := mk_pipe [x41; x42; x43; x00] 4 0 3 0 PIPE_FLAG_OPEN false [] [] in
  fst (z_impl_k_pipe_close p) = 0 /\
  exists p1,
    z_impl_k_pipe_read 1%nat (snd (z_impl_k_pipe_close p)) 10 K_FOREVER
    = Ok (Returned (3, [x41; x42; x43]) p1) /\
    forall r' len' timeout',
      z_impl_k_pipe_read r' p1 len' timeout'
      = Ok (Returned (- EPIPE, []) (k_spin_unlock p1)).
Proof.
  intros p.
  apply (drain_then_eof_after_close 1%nat p 10 K_FOREVER).
  - unfold ring_ok. vm_compute. intuition discriminate.
  - vm_compute. discriminate.
  - reflexivity.
  - reflexivity.
  - vm_compute. split; [reflexivity|discriminate].
  - vm_compute. discriminate.
Defined.

(** X6: [reset] on an open pipe that is not full discards what is
    buffered: a write of at most [buffer_size] bytes that follows returns
    [len] without suspending, whatever its timeout, and the pipe then
    holds exactly the bytes written. *)
Theorem reset_then_write (curr : tid) (p : k_pipe) (src : list byte)
        (timeout : k_timeout_t) :
  ring_ok p -> buffer_size p <= PTRDIFF_MAX ->
  flag p PIPE_FLAG_OPEN = true -> flag p PIPE_FLAG_FULL = false ->
  Z.of_nat (length src) <= buffer_size p ->
  fst (z_impl_k_pipe_reset p) = 0 /\
  contents (snd (z_impl_k_pipe_reset p)) = [] /\
  buffer (snd (z_impl_k_pipe_reset p)) = buffer p /\
  exists p',
    z_impl_k_pipe_write curr (snd (z_impl_k_pipe_reset p)) src timeout
    = Ok (Returned (Z.of_nat (length src)) p') /\
    contents p' = src.
Proof.
  intros Hok Hmax Hopen Hnf Hlen.
  set (pr := snd (z_impl_k_pipe_reset p)).
  assert (Hokr : ring_ok pr).
  { destruct Hok as (Hs & Hl & Hh & Ht & Hf).
    unfold pr, z_impl_k_pipe_reset, ring_ok. fields.
    autorewrite with pipe_flags. repeat split; try lia; auto. }
  assert (Hocc : occupancy pr = 0).
  { unfold pr. rewrite reset_occupancy by (destruct Hok; lia).
    now rewrite Hnf. }
  assert (Hcr : contents pr = []).
  { unfold contents. rewrite Hocc. reflexivity. }
  assert (Hmaxr : buffer_size pr <= PTRDIFF_MAX) by exact Hmax.
  assert (Hopenr : flag pr PIPE_FLAG_OPEN = true).
  { unfold pr, z_impl_k_pipe_reset. fields. autorewrite with pipe_flags.
    exact Hopen. }
  assert (Hq : queue_full pr = Ok false).
  { rewrite (queue_full_occupancy pr Hokr Hmaxr), Hocc. f_equal.
    apply Z.eqb_neq. change (buffer_size pr) with (buffer_size p).
    destruct Hok; lia. }
  split; [reflexivity|]. split; [exact Hcr|]. split; [reflexivity|].
  destruct (write_fits curr pr src timeout Hokr Hmaxr Hopenr Hq)
    as (p' & Hw & _ & _ & Hc & _).
  rewrite Hocc, Hcr in *. change (buffer_size pr) with (buffer_size p) in *.
  replace (Z.min (Z.of_nat (length src)) (buffer_size p - 0))
    with (Z.of_nat (length src)) in * by lia.
  rewrite Nat2Z.id, firstn_all in Hc.
  exists p'. split; [exact Hw|exact Hc].
Qed.

(** A pipe of four bytes holding two, reset and written with three. *)
Lemma reset_then_write_witness :
  let p := mk_pipe [x41; x42; x00; x00] 4 0 2 0 PIPE_FLAG_OPEN false [] [] in
  fst (z_impl_k_pipe_reset p) = 0 /\
  contents (snd (z_impl_k_pipe_reset p)) = [] /\
  buffer (snd (z_impl_k_pipe_reset p)) = buffer p /\
  exists p',
    z_impl_k_pipe_write 0%nat (snd (z_impl_k_pipe_reset p)) [x43; x44; x45]
                        K_FOREVER
    = Ok (Returned 3 p') /\
    contents p' = [x43; x44; x45].
Proof.
  intros p.
  apply (reset_then_write 0%nat p [x43; x44; x45] K_FOREVER).
  - unfold ring_ok. vm_compute. intuition discriminate.
  - vm_compute. discriminate.
  - reflexivity.
  - reflexivity.
  - vm_compute. discriminate.
Defined.

(** X7: [init] on storage of [size > 0] bytes gives a well-formed pipe
    that is open, not under reset, empty, with nobody waiting and the
    lock free; the first write into it returns the smaller of [len] and
    [size] without suspending and the pipe then holds that prefix of the
    source. *)
Theorem init_gives_an_empty_pipe (storage : list byte) (size : Z)
        (curr : tid) (src : list byte) (timeout : k_timeout_t) :
  0 < size <= PTRDIFF_MAX -> Z.of_nat (length storage) = size ->
  let p := z_impl_k_pipe_init storage size in
  let n := Z.min (Z.of_nat (length src)) size in
  ring_ok p /\ contents p = [] /\ queue_empty p = Ok true /\
  queue_full p = Ok false /\
  flag p PIPE_FLAG_OPEN = true /\ flag p PIPE_FLAG_RESET = false /\
  waiting p = 0 /\ data p = [] /\ space p = [] /\ lock p = false /\
  exists p',
    z_impl_k_pipe_write curr p src timeout = Ok (Returned n p') /\
    contents p' = firstn (Z.to_nat n) src.
Proof.
  intros Hs Hl p n.
  assert (Hs' : 0 < size <= SIZE_MAX).
  { unfold SIZE_MAX, PTRDIFF_MAX in *. simpl in *. lia. }
  pose proof (boot_inv storage size Hs' Hl) as ((Hok & _) & _ & _).
  cbn [boot pipe] in Hok. fold p in Hok.
  assert (Hmax : buffer_size p <= PTRDIFF_MAX) by exact (proj2 Hs).
  assert (Hocc : occupancy p = 0).
  { unfold occupancy, p, z_impl_k_pipe_init. fields.
    change (testflag PIPE_FLAG_OPEN PIPE_FLAG_FULL) with false.
    apply Z.mod_0_l. lia. }
  assert (Hc : contents p = []).
  { unfold contents. rewrite Hocc. reflexivity. }
  assert (Hqe : queue_empty p = Ok true).
  { rewrite (queue_empty_occupancy p Hok Hmax), Hocc. reflexivity. }
  assert (Hqf : queue_full p = Ok false).
  { rewrite (queue_full_occupancy p Hok Hmax), Hocc. f_equal.
    apply Z.eqb_neq. cbn. lia. }
  refine (conj Hok (conj Hc (conj Hqe (conj Hqf (conj eq_refl (conj eq_refl
            (conj eq_refl (conj eq_refl (conj eq_refl (conj eq_refl _)))))))))).
  destruct (write_fits curr p src timeout Hok Hmax eq_refl Hqf)
    as (p' & Hw & _ & _ & Hc' & _).
  rewrite Hocc, Hc, Z.sub_0_r in *. change (buffer_size p) with size in *.
  exists p'. split; [exact Hw|exact Hc'].
Qed.

(** Storage of two bytes and a first write of three. *)
Lemma init_gives_an_empty_pipe_witness :
  let p := z_impl_k_pipe_init (zeros 2) 2 in
  ring_ok p /\ contents p = [] /\ queue_empty p = Ok true /\
  queue_full p = Ok false /\
  flag p PIPE_FLAG_OPEN = true /\ flag p PIPE_FLAG_RESET = false /\
  waiting p = 0 /\ data p = [] /\ space p = [] /\ lock p = false /\
  exists p',
    z_impl_k_pipe_write 0%nat p [x41; x42; x43] K_NO_WAIT
    = Ok (Returned 2 p') /\
    contents p' = [x41; x42].
Proof.
  apply (init_gives_an_empty_pipe (zeros 2) 2 0%nat [x41; x42; x43] K_NO_WAIT).
  - vm_compute. split; [reflexivity|discriminate].
  - reflexivity.
Defined.

(** X8: a call with the no-wait timeout, or made while the reset flag is
    up, never suspends and is never undefined.  On a pipe that satisfies
    the invariant, [write] returns [-EPIPE] when the pipe is closed,
    [-EAGAIN] when it is full, and otherwise the number of bytes that
    fit; [read] returns the bytes buffered, up to [len], when there are
    some, and otherwise [-EAGAIN] on an open pipe and [-EPIPE] on a
    closed one. *)
Theorem no_wait_call_returns (curr : tid) (p : k_pipe) (src : list byte)
        (len : Z) (timeout : k_timeout_t) :
  pipe_inv p -> buffer_size p <= PTRDIFF_MAX -> lock p = false ->
  0 <= len <= SIZE_MAX ->
  K_TIMEOUT_EQ timeout K_NO_WAIT || flag p PIPE_FLAG_RESET = true ->
  let held := Z.of_nat (length (contents p)) in
  (exists p',
     z_impl_k_pipe_write curr p src timeout
     = Ok (Returned
             (if negb (flag p PIPE_FLAG_OPEN) then - EPIPE
              else if held =? buffer_size p then - EAGAIN
              else Z.min (Z.of_nat (length src)) (buffer_size p - held))
             p')) /\
  (exists p',
     z_impl_k_pipe_read curr p len timeout
     = Ok (Returned
             (if held =? 0
              then (if flag p PIPE_FLAG_OPEN then - EAGAIN else - EPIPE, [])
              else (Z.min len held,
                    firstn (Z.to_nat (Z.min len held)) (contents p)))
             p')).
Proof.
  intros Hinv Hmax Hlock Hlen Hnw held. pose proof (proj1 Hinv) as Hok.
  pose proof (occupancy_length p Hok) as Hol. fold held in Hol.
  pose proof (queue_full_occupancy p Hok Hmax) as Hqf.
  pose proof (queue_empty_occupancy p Hok Hmax) as Hqe.
  rewrite Hol in Hqf, Hqe. split.
  - destruct (flag p PIPE_FLAG_OPEN) eqn:Hopen; cbn [negb].
    + destruct (held =? buffer_size p) eqn:Hfull.
      * rewrite (write_full_gate curr p src timeout Hlock Hqf), Hnw.
        eexists. reflexivity.
      * destruct (write_fits curr p src timeout Hok Hmax Hopen Hqf)
          as (p' & Hw & _).
        rewrite Hol in Hw. exists p'. exact Hw.
    + rewrite (closed_write curr p src timeout Hinv Hopen).
      eexists. reflexivity.
  - destruct (held =? 0) eqn:Hempty.
    + destruct (flag p PIPE_FLAG_OPEN) eqn:Hopen.
      * rewrite (read_empty_gate curr p len timeout Hlock Hqe Hopen), Hnw.
        eexists. reflexivity.
      * rewrite (closed_empty_read curr p len timeout Hopen Hqe).
        eexists. reflexivity.
    + destruct (read_takes curr p len timeout Hok Hmax Hlen Hqe)
        as (p' & Hr & _).
      rewrite Hol in Hr. exists p'. exact Hr.
Qed.

(** A pipe of four bytes that holds two, under reset, called with
    [K_FOREVER]. *)
Lemma no_wait_call_returns_witness :
  let p := mk_pipe [x41; x42; x00; x00] 4 0 2 0
                   (Z.lor PIPE_FLAG_OPEN PIPE_FLAG_RESET) false [] [] in
  (exists p', z_impl_k_pipe_write 0%nat p [x43; x44; x45] K_FOREVER
              = Ok (Returned 2 p')) /\
  (exists p', z_impl_k_pipe_read 0%nat p 1 K_FOREVER
              = Ok (Returned (1, [x41]) p')).
Proof.
  intros p.
  apply (no_wait_call_returns 0%nat p [x43; x44; x45] 1 K_FOREVER).
  - split; [|discriminate]. unfold ring_ok. vm_compute. intuition discriminate.
  - vm_compute. discriminate.
  - reflexivity.
  - vm_compute. split; discriminate.
  - reflexivity.
Defined.

(** * Properties of the pipe among its threads

    The states are those reached from [init] by a run of calls, timeouts
    and resumptions. *)

(** X9: in every state reached from [init], [waiting] is the number of
    calls that entered [wait_for] and have not left it (modulo the width
    of [size_t]), no thread is in two such calls or twice on the wait
    queues, and every thread on a wait queue is in such a call. *)
Theorem waiting_counts_calls_in_flight (storage : list byte) (size : Z)
        (es : list event) (k : kernel) (rs : list response) :
  0 < size <= SIZE_MAX -> Z.of_nat (length storage) = size ->
  run (boot storage size) es = Ok (Some (k, rs)) ->
  waiting (pipe k) = size_t (Z.of_nat (length (frames k))) /\
  NoDup (tids (frames k)) /\
  NoDup (data (pipe k) ++ space (pipe k)) /\
  (forall t, In t (data (pipe k) ++ space (pipe k)) -> In t (tids (frames k))).
Proof.
  intros Hs Hl Hrun. exact (proj2 (reached_inv storage size es k rs Hs Hl Hrun)).
Qed.

(** Two readers suspended on an empty pipe, the first then woken by a
    write and not yet run. *)
Lemma waiting_counts_calls_in_flight_witness :
  exists k rs,
    run (boot (zeros 2) 2)
        [Read 1%nat 1 K_FOREVER; Read 2%nat 1 K_FOREVER;
         Write 3%nat [x41] K_NO_WAIT]
    = Ok (Some (k, rs)) /\
    tids (frames k) = [1%nat; 2%nat] /\ data (pipe k) = [2%nat] /\
    waiting (pipe k) = size_t (Z.of_nat (length (frames k))) /\
    NoDup (tids (frames k)) /\
    NoDup (data (pipe k) ++ space (pipe k)) /\
    (forall t, In t (data (pipe k) ++ space (pipe k)) ->
               In t (tids (frames k))).
Proof.
  eexists _, _. split; [vm_compute; reflexivity|].
  split; [reflexivity|]. split; [reflexivity|].
  apply (waiting_counts_calls_in_flight (zeros 2) 2
           [Read 1%nat 1 K_FOREVER; Read 2%nat 1 K_FOREVER;
            Write 3%nat [x41] K_NO_WAIT] _ [Suspend; Suspend; WriteRet 1 [x41]]).
  - vm_compute. split; [reflexivity|discriminate].
  - reflexivity.
  - reflexivity.
Defined.

(** X10: a wait that times out leaves no trace.  In a state reached from
    [init] with the pipe open and not under reset, a thread that is in no
    call and reads from the empty pipe (or writes to the full pipe) with
    a finite, non-zero timeout is suspended; when the timeout fires and
    the thread runs again the call returns [-EAGAIN], no byte has moved,
    and the state is exactly the one before the call. *)
Theorem timed_out_wait_leaves_no_trace (storage : list byte) (size : Z)
        (es : list event) (k : kernel) (rs : list response) (t : tid)
        (len : Z) (src : list byte) (timeout : k_timeout_t) :
  0 < size <= SIZE_MAX -> Z.of_nat (length storage) = size ->
  run (boot storage size) es = Ok (Some (k, rs)) ->
  find_frame t (frames k) = None ->
  flag (pipe k) PIPE_FLAG_OPEN = true ->
  flag (pipe k) PIPE_FLAG_RESET = false ->
  K_TIMEOUT_EQ timeout K_NO_WAIT = false ->
  K_TIMEOUT_EQ timeout K_FOREVER = false ->
  (queue_empty (pipe k) = Ok true ->
   run k [Read t len timeout; Expire t; Resume t]
   = Ok (Some (k, [Suspend; Expired; ReadRet (- EAGAIN) []]))) /\
  (queue_full (pipe k) = Ok true ->
   run k [Write t src timeout; Expire t; Resume t]
   = Ok (Some (k, [Suspend; Expired; WriteRet (- EAGAIN) src]))).
Proof.
  intros Hs Hl Hrun Hfind Hopen Hreset Hnw Hfe.
  destruct (reached_inv storage size es k rs Hs Hl Hrun)
    as ((_ & Hlock & _) & Hf).
  split; intros Hq.
  - now apply read_times_out.
  - now apply write_times_out.
Qed.

(** A pipe of two bytes emptied after one byte went through, and the
    same pipe filled, each with a writer or reader that gives up after 5
    ticks. *)
Lemma timed_out_wait_leaves_no_trace_witness :
  (exists k rs,
     run (boot (zeros 2) 2)
         [Write 0%nat [x41] K_NO_WAIT; Read 1%nat 1 K_NO_WAIT]
     = Ok (Some (k, rs)) /\
     run k [Read 1%nat 2 5; Expire 1%nat; Resume 1%nat]
     = Ok (Some (k, [Suspend; Expired; ReadRet (- EAGAIN) []]))) /\
  (exists k rs,
     run (boot (zeros 2) 2) [Write 0%nat [x41; x42] K_NO_WAIT]
     = Ok (Some (k, rs)) /\
     run k [Write 0%nat [x43] 5; Expire 0%nat; Resume 0%nat]
     = Ok (Some (k, [Suspend; Expired; WriteRet (- EAGAIN) [x43]]))).
Proof.
  split.
  - eexists _, _. split; [vm_compute; reflexivity|].
    refine (proj1 (timed_out_wait_leaves_no_trace (zeros 2) 2
                     [Write 0%nat [x41] K_NO_WAIT; Read 1%nat 1 K_NO_WAIT]
                     _ [WriteRet 1 [x41]; ReadRet 1 [x41]] 1%nat 2 [] 5
                     _ eq_refl eq_refl eq_refl eq_refl eq_refl eq_refl
                     eq_refl) eq_refl).
    vm_compute. split; [reflexivity|discriminate].
  - eexists _, _. split; [vm_compute; reflexivity|].
    refine (proj2 (timed_out_wait_leaves_no_trace (zeros 2) 2
                     [Write 0%nat [x41; x42] K_NO_WAIT]
                     _ [WriteRet 2 [x41; x42]] 0%nat 0 [x43] 5
                     _ eq_refl eq_refl eq_refl eq_refl eq_refl eq_refl
                     eq_refl) eq_refl).
    vm_compute. split; [reflexivity|discriminate].
Defined.

(** X11: a writer serves a suspended reader.  In a state reached from
    [init] with the pipe open, not under reset, empty and with no reader
    queued, a reader with a timeout other than no-wait is suspended; a
    write of a non-empty source by another thread then returns
    [n = min (length src) size] without suspending, and the reader, run
    again, returns [min len n] with the first bytes of the source.  Both
    threads have left their calls and [waiting] is what it was. *)
Theorem writer_serves_suspended_reader (storage : list byte) (size : Z)
        (es : list event) (k : kernel) (rs : list response) (t w : tid)
        (len : Z) (src : list byte) (to to' : k_timeout_t) :
  0 < size <= PTRDIFF_MAX -> Z.of_nat (length storage) = size ->
  run (boot storage size) es = Ok (Some (k, rs)) ->
  t <> w -> find_frame t (frames k) = None -> find_frame w (frames k) = None ->
  flag (pipe k) PIPE_FLAG_OPEN = true ->
  flag (pipe k) PIPE_FLAG_RESET = false ->
  queue_empty (pipe k) = Ok true -> data (pipe k) = [] ->
  K_TIMEOUT_EQ to K_NO_WAIT = false ->
  0 <= len <= SIZE_MAX -> src <> [] ->
  let n := Z.min (Z.of_nat (length src)) size in
  let m := Z.min len n in
  exists k',
    run k [Read t len to; Write w src to'; Resume t]
    = Ok (Some (k', [Suspend; WriteRet n src;
                     ReadRet m (firstn (Z.to_nat m) src)])) /\
    frames k' = frames k /\ waiting (pipe k') = waiting (pipe k) /\
    contents (pipe k') = skipn (Z.to_nat m) (firstn (Z.to_nat n) src) /\
    data (pipe k') = [] /\ lock (pipe k') = false.
Proof.
  intros Hs Hl Hrun Htw Hft Hfw Hopen Hreset Hqe Hdata Hnw Hlen Hsrc n m.
  assert (Hs' : 0 < size <= SIZE_MAX).
  { unfold SIZE_MAX, PTRDIFF_MAX in *. simpl in *. lia. }
  destruct (reached_inv storage size es k rs Hs' Hl Hrun)
    as (((Hok & _) & Hlock & Hsize) & Hf).
  destruct (reader_served k t w len src to to' Hok
              ltac:(rewrite Hsize; exact (proj2 Hs)) Hlock Hf Htw Hft Hfw
              Hopen Hreset Hqe Hdata Hnw Hlen Hsrc)
    as (k' & H1 & H2 & H3 & H4 & H5 & _ & H7).
  rewrite Hsize in H1, H4. exists k'.
  exact (conj H1 (conj H2 (conj H3 (conj H4 (conj H5 H7))))).
Qed.

(** A reader asks for two bytes of an empty pipe of two bytes; a writer
    brings three. *)
Lemma writer_serves_suspended_reader_witness :
  exists k',
    run (boot (zeros 2) 2)
        [Read 1%nat 2 K_FOREVER; Write 2%nat [x41; x42; x43] K_NO_WAIT;
         Resume 1%nat]
    = Ok (Some (k', [Suspend; WriteRet 2 [x41; x42; x43];
                     ReadRet 2 [x41; x42]])) /\
    frames k' = [] /\ waiting (pipe k') = 0 /\
    contents (pipe k') = [] /\
    data (pipe k') = [] /\ lock (pipe k') = false.
Proof.
  apply (writer_serves_suspended_reader (zeros 2) 2 [] (boot (zeros 2) 2) []
           1%nat 2%nat 2 [x41; x42; x43] K_FOREVER K_NO_WAIT).
  - vm_compute. split; [reflexivity|discriminate].
  - reflexivity.
  - reflexivity.
  - discriminate.
  - reflexivity.
  - reflexivity.
  - reflexivity.
  - reflexivity.
  - reflexivity.
  - reflexivity.
  - reflexivity.
  - vm_compute. split; discriminate.
  - discriminate.
Defined.

(** X12: a reader frees a suspended writer.  In a state reached from
    [init] with the pipe open, not under reset, full and with no writer
    queued, a writer with a timeout other than no-wait is suspended; a
    read of [len > 0] bytes by another thread then returns
    [n = min len size] with the oldest bytes without suspending, and the
    writer, run again, returns [min (length src) n]: its bytes go behind
    those still buffered.  Both threads have left their calls and
    [waiting] is what it was. *)
Theorem reader_frees_suspended_writer (storage : list byte) (size : Z)
        (es : list event) (k : kernel) (rs : list response) (w r : tid)
        (src : list byte) (len : Z) (to to' : k_timeout_t) :
  0 < size <= PTRDIFF_MAX -> Z.of_nat (length storage) = size ->
  run (boot storage size) es = Ok (Some (k, rs)) ->
  w <> r -> find_frame w (frames k) = None -> find_frame r (frames k) = None ->
  flag (pipe k) PIPE_FLAG_OPEN = true ->
  flag (pipe k) PIPE_FLAG_RESET = false ->
  queue_full (pipe k) = Ok true -> space (pipe k) = [] ->
  K_TIMEOUT_EQ to K_NO_WAIT = false ->
  0 < len <= SIZE_MAX ->
  let n := Z.min len size in
  let m := Z.min (Z.of_nat (length src)) n in
  exists k',
    run k [Write w src to; Read r len to'; Resume w]
    = Ok (Some (k', [Suspend;
                     ReadRet n (firstn (Z.to_nat n) (contents (pipe k)));
                     WriteRet m src])) /\
    frames k' = frames k /\ waiting (pipe k') = waiting (pipe k) /\
    contents (pipe k')
    = skipn (Z.to_nat n) (contents (pipe k)) ++ firstn (Z.to_nat m) src /\
    space (pipe k') = [] /\ lock (pipe k') = false.
Proof.
  intros Hs Hl Hrun Hwr Hfw Hfr Hopen Hreset Hqf Hspace Hnw Hlen n m.
  assert (Hs' : 0 < size <= SIZE_MAX).
  { unfold SIZE_MAX, PTRDIFF_MAX in *. simpl in *. lia. }
  destruct (reached_inv storage size es k rs Hs' Hl Hrun)
    as (((Hok & _) & Hlock & Hsize) & Hf).
  destruct (writer_freed k w r src len to to' Hok
              ltac:(rewrite Hsize; exact (proj2 Hs)) Hlock Hf Hwr Hfw Hfr
              Hopen Hreset Hqf Hspace Hnw Hlen)
    as (k' & H1 & H2 & H3 & H4 & H5 & _ & H7).
  rewrite Hsize in H1, H4. exists k'.
  exact (conj H1 (conj H2 (conj H3 (conj H4 (conj H5 H7))))).
Qed.

(** A full pipe of two bytes; a writer waits with two more bytes and a
    reader takes one. *)
Lemma reader_frees_suspended_writer_witness :
  exists k rs k',
    run (boot (zeros 2) 2) [Write 0%nat [x41; x42] K_NO_WAIT]
    = Ok (Some (k, rs)) /\
    run k [Write 1%nat [x43; x44] K_FOREVER; Read 2%nat 1 K_NO_WAIT;
           Resume 1%nat]
    = Ok (Some (k', [Suspend; ReadRet 1 [x41]; WriteRet 1 [x43; x44]])) /\
    frames k' = [] /\ waiting (pipe k') = 0 /\
    contents (pipe k') = [x42; x43] /\
    space (pipe k') = [] /\ lock (pipe k') = false.
Proof.
  eexists _, _. 
  assert (H := reader_frees_suspended_writer (zeros 2) 2
                 [Write 0%nat [x41; x42] K_NO_WAIT] _ [WriteRet 2 [x41; x42]]
                 1%nat 2%nat [x43; x44] 1 K_FOREVER K_NO_WAIT
                 ltac:(vm_compute; split; [reflexivity|discriminate])
                 eq_refl eq_refl ltac:(discriminate) eq_refl eq_refl eq_refl
                 eq_refl eq_refl eq_refl eq_refl
                 ltac:(vm_compute; split; [reflexivity|discriminate])).
  cbv zeta in H. destruct H as (k' & H). exists k'.
  split; [vm_compute; reflexivity|]. exact H.
Defined.

(** X13: [reset] cancels every call that waits.  In a state reached from
    [init] with the pipe open and at least one call in [wait_for],
    [reset] returns [0] and takes every thread off the wait queues; the
    waiting threads, run again in any order, each return [-ECANCELED]
    without moving a byte, and when the last has left, [waiting] is zero,
    the reset flag is down again, both indices are zero and the pipe is
    still open. *)
Theorem reset_cancels_every_waiter (storage : list byte) (size : Z)
        (es : list event) (k : kernel) (rs : list response)
        (order : list tid) :
  0 < size <= SIZE_MAX -> Z.of_nat (length storage) = size ->
  run (boot storage size) es = Ok (Some (k, rs)) ->
  flag (pipe k) PIPE_FLAG_OPEN = true ->
  Z.of_nat (length (frames k)) <= SIZE_MAX ->
  NoDup order -> (forall t, In t order <-> In t (tids (frames k))) ->
  order <> [] ->
  exists k' rs',
    run k (Reset :: map Resume order) = Ok (Some (k', ResetRet 0 :: rs')) /\
    Forall (fun r => result_code r = Some (- ECANCELED) /\
                     accepted r = [] /\ delivered r = []) rs' /\
    length rs' = length order /\
    frames k' = [] /\ waiting (pipe k') = 0 /\
    flag (pipe k') PIPE_FLAG_RESET = false /\
    flag (pipe k') PIPE_FLAG_OPEN = true /\
    head (pipe k') = 0 /\ tail (pipe k') = 0 /\
    data (pipe k') = [] /\ space (pipe k') = [].
Proof.
  intros Hs Hl Hrun Hopen Hmax Hnd Hiff Hne.
  destruct (reached_inv storage size es k rs Hs Hl Hrun) as (Hk & Hf).
  destruct (reset_step size k Hk Hf)
    as (k1 & Hstep & Hk1 & Hf1 & Hfr1 & Hop1 & Hr1 & Hd1 & Hs1 & _ & Hh1 & Ht1).
  rewrite Hopen in Hop1. rewrite <- Hfr1 in Hmax, Hiff.
  destruct (cancel_all size order k1 Hk1 Hf1 Hop1 Hr1 Hd1 Hs1 Hmax Hnd Hiff Hne)
    as (k2 & rs2 & Hrun2 & Hall & Hlen & Hfr2 & Hw2 & Hr2 & Hsr).
  exists k2, rs2. split; [exact (run_cons _ _ _ _ _ _ _ Hstep Hrun2)|].
  destruct Hsr as (_ & _ & Hh & Ht & _ & Ho).
  destruct (no_frame_no_queue k2 (run_frames size _ _ _ _ Hk1 Hf1 Hrun2) Hfr2)
    as (Hd2 & Hs2).
  refine (conj Hall (conj Hlen (conj Hfr2 (conj Hw2 (conj Hr2 (conj _
            (conj _ (conj _ (conj Hd2 Hs2))))))))); congruence.
Qed.

(** Two readers wait on an empty pipe of two bytes that has had one byte
    through; the second to wait runs first after the reset. *)
Lemma reset_cancels_every_waiter_witness :
  exists k rs k',
    run (boot (zeros 2) 2)
        [Write 0%nat [x41] K_NO_WAIT; Read 0%nat 1 K_NO_WAIT;
         Read 1%nat 1 K_FOREVER; Read 2%nat 1 K_FOREVER]
    = Ok (Some (k, rs)) /\
    run k [Reset; Resume 2%nat; Resume 1%nat]
    = Ok (Some (k', [ResetRet 0; ReadRet (- ECANCELED) [];
                     ReadRet (- ECANCELED) []])) /\
    frames k' = [] /\ waiting (pipe k') = 0 /\
    flag (pipe k') PIPE_FLAG_RESET = false /\
    flag (pipe k') PIPE_FLAG_OPEN = true /\
    head (pipe k') = 0 /\ tail (pipe k') = 0 /\
    data (pipe k') = [] /\ space (pipe k') = [].
Proof.
  eexists _, _, _.
  split; [vm_compute; reflexivity|]. split; [vm_compute; reflexivity|].
  destruct (reset_cancels_every_waiter (zeros 2) 2
              [Write 0%nat [x41] K_NO_WAIT; Read 0%nat 1 K_NO_WAIT;
               Read 1%nat 1 K_FOREVER; Read 2%nat 1 K_FOREVER]
              _ [WriteRet 1 [x41]; ReadRet 1 [x41]; Suspend; Suspend]
              [2%nat; 1%nat]
              ltac:(vm_compute; split; [reflexivity|discriminate])
              eq_refl eq_refl eq_refl ltac:(vm_compute; discriminate)
              ltac:(repeat constructor; cbn; intuition discriminate)
              ltac:(intros t; cbn; tauto) ltac:(discriminate))
    as (k' & rs' & Hrun & _ & _ & H).
  vm_compute in Hrun. injection Hrun as Hk _. rewrite <- Hk in H. exact H.
Defined.

(** X14: [close] releases every call that waits.  In a state reached
    from [init] with the pipe open and the two indices equal (the pipe is
    empty, or full), [close] returns [0] and takes every thread off the
    wait queues; the waiting threads, run again in any order, each return
    [-EPIPE] without moving a byte, and when the last has left, no call
    is in flight, [waiting] is zero and the flag word is zero. *)
Theorem close_releases_every_waiter (storage : list byte) (size : Z)
        (es : list event) (k : kernel) (rs : list response)
        (order : list tid) :
  0 < size <= SIZE_MAX -> Z.of_nat (length storage) = size ->
  run (boot storage size) es = Ok (Some (k, rs)) ->
  flag (pipe k) PIPE_FLAG_OPEN = true ->
  head (pipe k) = tail (pipe k) ->
  NoDup order -> (forall t, In t order <-> In t (tids (frames k))) ->
  exists k' rs',
    run k (Close :: map Resume order) = Ok (Some (k', CloseRet 0 :: rs')) /\
    Forall (fun r => result_code r = Some (- EPIPE) /\
                     accepted r = [] /\ delivered r = []) rs' /\
    length rs' = length order /\
    frames k' = [] /\ waiting (pipe k') = 0 /\
    flag (pipe k') PIPE_FLAG_OPEN = false /\
    flag (pipe k') PIPE_FLAG_FULL = false /\
    buffer (pipe k') = buffer (pipe k) /\
    data (pipe k') = [] /\ space (pipe k') = [].
Proof.
  intros Hs Hl Hrun Hopen Hht Hnd Hiff.
  destruct (reached_inv storage size es k rs Hs Hl Hrun) as (Hk & Hf).
  destruct (close_step size k Hk Hf Hopen)
    as (k1 & Hstep & Hk1 & Hf1 & Hfr1 & Hfl1 & Hd1 & Hs1 & Hb1 & Hh1 & Ht1).
  assert (Hop1 : flag (pipe k1) PIPE_FLAG_OPEN = false).
  { unfold flag. rewrite Hfl1. reflexivity. }
  assert (Hfu1 : flag (pipe k1) PIPE_FLAG_FULL = false).
  { unfold flag. rewrite Hfl1. reflexivity. }
  rewrite <- Hfr1 in Hiff.
  destruct (release_all size order k1 Hk1 Hf1 Hop1 ltac:(congruence) Hnd Hiff)
    as (k2 & rs2 & Hrun2 & Hall & Hlen & Hfr2 & Hw2 & Hsr).
  exists k2, rs2. split; [exact (run_cons _ _ _ _ _ _ _ Hstep Hrun2)|].
  destruct Hsr as (Hb & _ & _ & _ & Hfu & Ho).
  destruct (no_frame_no_queue k2 (run_frames size _ _ _ _ Hk1 Hf1 Hrun2) Hfr2)
    as (Hd2 & Hs2).
  refine (conj Hall (conj Hlen (conj Hfr2 (conj Hw2 (conj _ (conj _
            (conj _ (conj Hd2 Hs2)))))))); congruence.
Qed.

(** Two writers wait on a full pipe of two bytes. *)
Lemma close_releases_every_waiter_witness :
  exists k rs k',
    run (boot (zeros 2) 2)
        [Write 0%nat [x41; x42] K_NO_WAIT; Write 1%nat [x43] K_FOREVER;
         Write 2%nat [x44] 7]
    = Ok (Some (k, rs)) /\
    run k [Close; Resume 1%nat; Resume 2%nat]
    = Ok (Some (k', [CloseRet 0; WriteRet (- EPIPE) [x43];
                     WriteRet (- EPIPE) [x44]])) /\
    frames k' = [] /\ waiting (pipe k') = 0 /\
    flag (pipe k') PIPE_FLAG_OPEN = false /\
    flag (pipe k') PIPE_FLAG_FULL = false /\
    buffer (pipe k') = buffer (pipe k) /\
    data (pipe k') = [] /\ space (pipe k') = [].
Proof.
  eexists _, _, _.
  split; [vm_compute; reflexivity|]. split; [vm_compute; reflexivity|].
  destruct (close_releases_every_waiter (zeros 2) 2
              [Write 0%nat [x41; x42] K_NO_WAIT; Write 1%nat [x43] K_FOREVER;
               Write 2%nat [x44] 7]
              _ [WriteRet 2 [x41; x42]; Suspend; Suspend]
              [1%nat; 2%nat]
              ltac:(vm_compute; split; [reflexivity|discriminate])
              eq_refl eq_refl eq_refl eq_refl
              ltac:(repeat constructor; cbn; intuition discriminate)
              ltac:(intros t; cbn; tauto))
    as (k' & rs' & Hrun & _ & _ & H).
  vm_compute in Hrun. injection Hrun as Hk _. rewrite <- Hk in H. exact H.
Defined.

(** X15: a closed pipe stays closed.  From a state reached from [init]
    in which the pipe is closed, no run of calls, timeouts and
    resumptions opens it again or stores a byte: the pipe is still
    closed, the storage is unchanged, every write has returned [-EPIPE],
    every [close] has returned [-EALREADY], and no call has been
    suspended. *)
Theorem closed_pipe_stays_closed (storage : list byte) (size : Z)
        (es es' : list event) (k k' : kernel) (rs rs' : list response) :
  0 < size <= SIZE_MAX -> Z.of_nat (length storage) = size ->
  run (boot storage size) es = Ok (Some (k, rs)) ->
  flag (pipe k) PIPE_FLAG_OPEN = false ->
  run k es' = Ok (Some (k', rs')) ->
  flag (pipe k') PIPE_FLAG_OPEN = false /\
  buffer (pipe k') = buffer (pipe k) /\
  written rs' = [] /\
  Forall closed_response rs'.
Proof.
  intros Hs Hl Hrun Hcl Hrun'.
  destruct (reached_inv storage size es k rs Hs Hl Hrun) as (Hk & _).
  exact (run_closed size es' k k' rs' Hk Hcl Hrun').
Qed.

(** One byte written, the pipe closed, then a write, a second close,
    two reads and a reset. *)
Lemma closed_pipe_stays_closed_witness :
  exists k rs k',
    run (boot (zeros 2) 2) [Write 0%nat [x41] K_NO_WAIT; Close]
    = Ok (Some (k, rs)) /\
    run k [Write 0%nat [x42] K_FOREVER; Close; Read 1%nat 2 K_FOREVER;
           Read 1%nat 2 K_FOREVER; Reset]
    = Ok (Some (k', [WriteRet (- EPIPE) [x42]; CloseRet (- EALREADY);
                     ReadRet 1 [x41]; ReadRet (- EPIPE) []; ResetRet 0])) /\
    flag (pipe k') PIPE_FLAG_OPEN = false /\
    buffer (pipe k') = buffer (pipe k) /\
    written [WriteRet (- EPIPE) [x42]; CloseRet (- EALREADY);
             ReadRet 1 [x41]; ReadRet (- EPIPE) []; ResetRet 0] = [] /\
    Forall closed_response
           [WriteRet (- EPIPE) [x42]; CloseRet (- EALREADY);
            ReadRet 1 [x41]; ReadRet (- EPIPE) []; ResetRet 0].
Proof.
  eexists _, _, _.
  split; [vm_compute; reflexivity|]. split; [vm_compute; reflexivity|].
  apply (closed_pipe_stays_closed (zeros 2) 2
           [Write 0%nat [x41] K_NO_WAIT; Close]
           [Write 0%nat [x42] K_FOREVER; Close; Read 1%nat 2 K_FOREVER;
            Read 1%nat 2 K_FOREVER; Reset]
           _ _ [WriteRet 1 [x41]; CloseRet 0]).
  - vm_compute. split; [reflexivity|discriminate].
  - reflexivity.
  - reflexivity.
  - reflexivity.
  - reflexivity.
Defined.

(** X16: in every state reached from [init], a pipe whose open flag is
    down has both wait queues empty: [close] takes every thread off the
    queues, and no call on a closed pipe suspends, so no thread stays
    queued on a closed pipe. *)
Theorem closed_pipe_has_no_waiters (storage : list byte) (size : Z)
        (es : list event) (k : kernel) (rs : list response) :
  0 < size <= SIZE_MAX -> Z.of_nat (length storage) = size ->
  run (boot storage size) es = Ok (Some (k, rs)) ->
  flag (pipe k) PIPE_FLAG_OPEN = false ->
  data (pipe k) = [] /\ space (pipe k) = [].
Proof.
  intros Hs Hl Hrun Hclosed.
  destruct (reached_inv storage size es k rs Hs Hl Hrun)
    as (((_ & Hcl) & _) & _).
  destruct (Hcl Hclosed) as (Hd & Hsp & _). auto.
Qed.

(** Two readers suspended on a pipe of two bytes that is then closed; a
    reader and a writer that come after the close are not queued either. *)
Lemma closed_pipe_has_no_waiters_witness :
  exists k rs,
    run (boot (zeros 2) 2)
        [Read 1%nat 2 K_FOREVER; Read 2%nat 1 5; Close;
         Read 3%nat 1 K_FOREVER; Write 4%nat [x41] K_FOREVER]
    = Ok (Some (k, rs)) /\
    tids (frames k) = [1%nat; 2%nat] /\
    data (pipe k) = [] /\ space (pipe k) = [].
Proof.
  eexists _, _. split; [vm_compute; reflexivity|]. split; [reflexivity|].
  apply (closed_pipe_has_no_waiters (zeros 2) 2
           [Read 1%nat 2 K_FOREVER; Read 2%nat 1 5; Close;
            Read 3%nat 1 K_FOREVER; Write 4%nat [x41] K_FOREVER]
           _ [Suspend; Suspend; CloseRet 0; ReadRet (- EPIPE) [];
              WriteRet (- EPIPE) [x41]]).
  - vm_compute. split; [reflexivity|discriminate].
  - reflexivity.
  - reflexivity.
  - reflexivity.
Defined.
